(** * Video safe-search analyzer: frame sampling and safety aggregation

    A shallow embedding of [safesearch/safe-search-vision-api.py]
    ([VideoSafeSearchAnalyzer] and [main]) together with the properties
    its specification states about it.

    Python values are modelled as the code has them: dictionaries with
    string keys are [gmap string _], Python floats are binary64
    primitive floats, integers are [Z] (or [nat] for list positions),
    and exceptions are values of [exn] returned on the left of a sum.
    OpenCV, the Vision client, the file system and the clock are
    collaborators gathered in the record [World]. *)

From Stdlib Require Import ZArith Floats Lia.
From Stdlib.Strings Require Import Byte.
From stdpp Require Import gmap strings list fin_maps pretty.

Local Open Scope string_scope.
Local Open Scope list_scope.
Local Open Scope Z_scope.

(** ** Python values and exceptions *)

(** The values stored in the result dictionaries: [str], [int], [float]. *)
Inductive pyval : Type :=
| VStr (s : string)
| VInt (z : Z)
| VFloat (f : float).

(** The exceptions the program raises itself or receives from a
    collaborator.  [ExternalError] is any exception raised inside cv2, the
    Vision client or the os module; it carries its description. *)
Inductive exn : Type :=
| FileNotFoundError (msg : string)
| ValueError (msg : string)
| OverflowError (msg : string)
| ZeroDivisionError (msg : string)
| IndexError (msg : string)
| KeyError (key : pyval)
| ExternalError (msg : string).

(** [d[key]] on a dictionary. *)
Definition dict_get {V : Type} (d : gmap string V) (key : string) : exn + V :=
  match d !! key with
  | Some v => inr v
  | None => inl (KeyError (VStr key))
  end.

(** [l[i]] on a list: a negative index counts from the end. *)
Definition py_index {A : Type} (l : list A) (i : Z) : exn + A :=
  let len := Z.of_nat (length l) in
  let j := if i <? 0 then i + len else i in
  if (0 <=? j) && (j <? len) then
    match l !! Z.to_nat j with
    | Some x => inr x
    | None => inl (IndexError "list index out of range")
    end
  else inl (IndexError "list index out of range").

(** [a % b] on integers: the sign follows the divisor, as [Z.modulo]. *)
Definition py_mod (a b : Z) : exn + Z :=
  if b =? 0 then inl (ZeroDivisionError "integer modulo by zero")
  else inr (a mod b).

(** [int(x)] on a float: truncation toward zero; NaN and the infinities
    raise. *)
Definition int_of_float (x : float) : exn + Z :=
  match Prim2SF x with
  | S754_zero _ => inr 0
  | S754_finite s m e =>
      let a := Z.shiftl (Z.pos m) e in
      inr (if s then - a else a)
  | S754_infinity _ => inl (OverflowError "cannot convert float infinity to integer")
  | S754_nan => inl (ValueError "cannot convert float NaN to integer")
  end.

(** [float(n)] for a list position [n]; exact below 2^53, which every
    list length is. *)
Definition float_of_nat (n : nat) : float :=
  PrimFloat.of_uint63 (Uint63.of_Z (Z.of_nat n)).

(** Truthiness of an optional string ([None] and [''] are false). *)
Definition truthy (o : option string) : bool :=
  match o with
  | Some s => negb (String.eqb s "")
  | None => false
  end.

(** ** The likelihood tables *)

(** [likelihood_names] of [analyze_frame_safety]. *)
Definition likelihood_names : list string :=
  ["UNKNOWN"; "VERY_UNLIKELY"; "UNLIKELY"; "POSSIBLE"; "LIKELY"; "VERY_LIKELY"].

(** [likelihood_levels] of [analyze_video]. *)
Definition likelihood_levels : gmap string Z :=
  list_to_map
    [("UNKNOWN", 0); ("VERY_UNLIKELY", 1); ("UNLIKELY", 2);
     ("POSSIBLE", 3); ("LIKELY", 4); ("VERY_LIKELY", 5)].

(** [likelihood_levels[v]]: only a string can be a key of the table. *)
Definition level_of (v : pyval) : exn + Z :=
  match v with
  | VStr s => dict_get likelihood_levels s
  | VInt _ | VFloat _ => inl (KeyError v)
  end.

(** ** Results of a run *)

(** The [safe_search_annotation] of a reply.  Its five fields are
    protobuf enum fields: one the service left unset is [None], and
    reading it gives the enum's zero value, as attribute access on the
    client library's message does. *)
Record SafeSearchAnnotation : Type := {
  adult : option Z;
  spoof : option Z;
  medical : option Z;
  violence : option Z;
  racy : option Z
}.

Definition enum_value (field : option Z) : Z := default 0 field.

(** An entry of [results['summary']['flagged_frames']]. *)
Record FlagRecord : Type := {
  frame_index : nat;
  timestamp_seconds : float;
  reasons : gmap string pyval
}.

(** [results['summary']]: the entries [max_<category>] are the map
    [maxima], the entry [flagged_frames] is the list. *)
Record Summary : Type := {
  maxima : gmap string pyval;
  flagged_frames : list FlagRecord
}.

(** The dictionary [analyze_video] returns. *)
Record Results : Type := {
  video_path : string;
  total_frames_analyzed : nat;
  interval_seconds : float;
  timestamp : string;
  frame_results : list (gmap string pyval);
  summary : Summary
}.

(** Calls to collaborators that a run makes, in order. *)
Inductive Call : Type :=
| CallMakedirs (dir : string)
| CallAnalyzeFrame (idx : nat)
| CallImwrite (path : string).

(** The state the frame loop works on: the dictionary under construction
    and the calls made so far. *)
Record State : Type := {
  results : Results;
  calls : list Call
}.

Definition with_results (f : Results -> Results) (st : State) : State :=
  {| results := f (results st); calls := calls st |}.

Definition with_summary (f : Summary -> Summary) (r : Results) : Results :=
  {| video_path := video_path r;
     total_frames_analyzed := total_frames_analyzed r;
     interval_seconds := interval_seconds r;
     timestamp := timestamp r;
     frame_results := frame_results r;
     summary := f (summary r) |}.

(** [results['frame_results'].append(entry)] *)
Definition append_frame_result (entry : gmap string pyval) (st : State) : State :=
  with_results (fun r =>
    {| video_path := video_path r;
       total_frames_analyzed := total_frames_analyzed r;
       interval_seconds := interval_seconds r;
       timestamp := timestamp r;
       frame_results := frame_results r ++ [entry];
       summary := summary r |}) st.

(** [results['summary'][key] = v] *)
Definition set_max (key : string) (v : pyval) (st : State) : State :=
  with_results (with_summary (fun s =>
    {| maxima := <[key := v]> (maxima s);
       flagged_frames := flagged_frames s |})) st.

(** [results['summary']['flagged_frames'].append(rec)] *)
Definition append_flagged (rec : FlagRecord) (st : State) : State :=
  with_results (with_summary (fun s =>
    {| maxima := maxima s;
       flagged_frames := flagged_frames s ++ [rec] |})) st.

Definition record_call (c : Call) (st : State) : State :=
  {| results := results st; calls := calls st ++ [c] |}.

(** ** Statements that mutate the state and may raise *)

Definition M (A : Type) : Type := State -> State * (exn + A).

Definition ret {A : Type} (a : A) : M A := fun st => (st, inr a).

Definition bind {A B : Type} (m : M A) (k : A -> M B) : M B :=
  fun st =>
    match m st with
    | (st', inr a) => k a st'
    | (st', inl e) => (st', inl e)
    end.

(** The result of a pure expression that may raise. *)
Definition lift {A : Type} (r : exn + A) : M A := fun st => (st, r).

Definition gets {A : Type} (f : State -> exn + A) : M A := fun st => (st, f st).

Definition modify (f : State -> State) : M unit := fun st => (f st, inr tt).

(** [try: body except Exception as e: handler e].  What [body] changed
    before it raised stays changed. *)
Definition try_except {A : Type} (body : M A) (handler : exn -> M A) : M A :=
  fun st =>
    match body st with
    | (st', inl e) => handler e st'
    | (st', inr a) => (st', inr a)
    end.

Notation "x <- c1 ;; c2" := (bind c1 (fun x => c2))
  (at level 62, c1 at next level, right associativity).

(** [for x in l: body x] *)
Fixpoint for_each {A : Type} (l : list A) (body : A -> M unit) : M unit :=
  match l with
  | [] => ret tt
  | x :: l' => _ <- body x ;; for_each l' body
  end.

(** [enumerate(l)], counting from [start]. *)
Fixpoint enumerate_from {A : Type} (start : nat) (l : list A) : list (nat * A) :=
  match l with
  | [] => []
  | x :: l' => (start, x) :: enumerate_from (S start) l'
  end.

Definition enumerate {A : Type} (l : list A) : list (nat * A) := enumerate_from 0 l.

(** [f"{idx:04d}"] for a list position. *)
Fixpoint zeros (k : nat) : string :=
  match k with
  | O => ""
  | S k' => "0" +:+ zeros k'
  end.

Definition format_04d (idx : nat) : string :=
  let digits := pretty idx in
  zeros (4 - String.length digits)%nat +:+ digits.

(** The parsed command line of [main]. *)
Module Args.

Record t : Type := {
  video_path : string;
  credentials : option string;
  interval : float;
  save_flagged : bool;
  output_dir : string;
  json_output : option string;
  report_output : option string
}.

End Args.

(** ** The analyzer *)

Section Analyzer.

Context {Frame : Type}.

(** The collaborators of a run.
    - [VideoCapture path] is [None] when [cap.isOpened()] is false, and
      otherwise the frame rate [cap.get(CAP_PROP_FPS)] with the frames
      [cap.read()] delivers before it first reports failure.
    - [safe_search_detection idx image] is what the Vision client does
      with the request made for sampled frame [idx]: a reply or an
      exception.
    - [os_makedirs], [imwrite], [json_dump] and [write_report] return the
      exception they raise, if any.  [ImageAnnotatorClient] is the
      creation of the client in [__init__].
    - [datetime_now] is [datetime.now().isoformat()]. *)
Record World : Type := {
  os_path_exists : string -> bool;
  VideoCapture : string -> option (float * list Frame);
  imencode : Frame -> exn + list byte;
  safe_search_detection : nat -> list byte -> exn + SafeSearchAnnotation;
  os_makedirs : string -> option exn;
  os_path_join : string -> string -> string;
  imwrite : string -> Frame -> option exn;
  datetime_now : string;
  repr_float : float -> string;
  ImageAnnotatorClient : option string -> option exn;
  json_dump : string -> Results -> option exn;
  write_report : string -> Results -> option exn
}.

Variable w : World.

(** [repr(v)] and [str(e)]; a [KeyError] prints the repr of its key. *)
Definition repr (v : pyval) : string :=
  match v with
  | VStr s => "'" +:+ s +:+ "'"
  | VInt z => pretty z
  | VFloat f => repr_float w f
  end.

Definition str (e : exn) : string :=
  match e with
  | FileNotFoundError msg | ValueError msg | OverflowError msg
  | ZeroDivisionError msg | IndexError msg | ExternalError msg => msg
  | KeyError key => repr key
  end.

(** *** [extract_frames] *)

(** The [while True] loop: [cap] holds the frames still to be read. *)
Fixpoint read_frames (frame_interval : Z) (cap : list Frame)
    (frame_count : Z) (frames : list Frame) : exn + list Frame :=
  match cap with
  | [] => inr frames
  | frame :: cap' =>
      match py_mod frame_count frame_interval with
      | inl e => inl e
      | inr r =>
          read_frames frame_interval cap' (frame_count + 1)
            (if r =? 0 then frames ++ [frame] else frames)
      end
  end.

Definition extract_frames (video_path : string) (interval_seconds : float)
    : exn + list Frame :=
  match VideoCapture w video_path with
  | None => inl (ValueError ("Error opening video file: " +:+ video_path))
  | Some (fps, cap) =>
      match int_of_float (fps * interval_seconds) with
      | inl e => inl e
      | inr frame_interval => read_frames frame_interval cap 0 []
      end
  end.

(** *** [analyze_frame_safety] *)

(** [client] is [self.client.safe_search_detection]. *)
Definition analyze_frame_safety
    (client : list byte -> exn + SafeSearchAnnotation) (frame : Frame)
    : exn + gmap string pyval :=
  match imencode w frame with
  | inl e => inl e
  | inr image_bytes =>
  match client image_bytes with
  | inl e => inl e
  | inr safe_search =>
  match py_index likelihood_names (enum_value (adult safe_search)) with
  | inl e => inl e
  | inr a =>
  match py_index likelihood_names (enum_value (spoof safe_search)) with
  | inl e => inl e
  | inr s =>
  match py_index likelihood_names (enum_value (medical safe_search)) with
  | inl e => inl e
  | inr m =>
  match py_index likelihood_names (enum_value (violence safe_search)) with
  | inl e => inl e
  | inr v =>
  match py_index likelihood_names (enum_value (racy safe_search)) with
  | inl e => inl e
  | inr r =>
      inr (<["adult" := VStr a]> (<["spoof" := VStr s]> (<["medical" := VStr m]>
            (<["violence" := VStr v]> (<["racy" := VStr r]> ∅)))))
  end end end end end end end.

(** *** [analyze_video] *)

Section Loop.

Variable interval_seconds : float.
Variable save_flagged_frames : bool.
Variable output_dir : option string.

(** [likelihood_levels[frame_result[key]]] *)
Definition level (frame_result : gmap string pyval) (key : string) : exn + Z :=
  match dict_get frame_result key with
  | inl e => inl e
  | inr v => level_of v
  end.

(** The body of [for key in ['adult', 'violence', 'medical', 'racy', 'spoof']]. *)
Definition update_max (frame_result : gmap string pyval) (key : string) : M unit :=
  new_level <- lift (level frame_result key) ;;
  cur_level <- gets (fun st => level (maxima (summary (results st))) ("max_" +:+ key)) ;;
  if new_level >? cur_level then
    new <- lift (dict_get frame_result key) ;;
    modify (set_max ("max_" +:+ key) new)
  else ret tt.

(** The [try] block of the frame loop. *)
Definition score_frame (idx : nat) (frame : Frame) : M unit :=
  _ <- modify (record_call (CallAnalyzeFrame idx)) ;;
  frame_result <- lift (analyze_frame_safety (safe_search_detection w idx) frame) ;;
  let frame_result := <["frame_index" := VInt (Z.of_nat idx)]> frame_result in
  let frame_result :=
    <["timestamp_seconds" := VFloat (float_of_nat idx * interval_seconds)]> frame_result in
  _ <- modify (append_frame_result frame_result) ;;
  _ <- for_each ["adult"; "violence"; "medical"; "racy"; "spoof"] (update_max frame_result) ;;
  a <- lift (level frame_result "adult") ;;
  v <- lift (level frame_result "violence") ;;
  r <- lift (level frame_result "racy") ;;
  let is_flagged := (a >=? 3) || (v >=? 3) || (r >=? 3) in
  if is_flagged then
    _ <- modify (append_flagged
           {| frame_index := idx;
              timestamp_seconds := float_of_nat idx * interval_seconds;
              reasons := frame_result |}) ;;
    if save_flagged_frames && truthy output_dir then
      let frame_filename := "flagged_frame_" +:+ format_04d idx +:+ ".jpg" in
      let frame_path := os_path_join w (default "" output_dir) frame_filename in
      _ <- modify (record_call (CallImwrite frame_path)) ;;
      match imwrite w frame_path frame with
      | Some e => lift (inl e)
      | None => ret tt
      end
    else ret tt
  else ret tt.

(** The body of [for idx, frame in enumerate(frames)]. *)
Definition process_frame (idx : nat) (frame : Frame) : M unit :=
  try_except (score_frame idx frame)
    (fun e =>
       modify (append_frame_result
         (<["frame_index" := VInt (Z.of_nat idx)]> (<["error" := VStr (str e)]> ∅)))).

Definition analyze_frames (frames : list (nat * Frame)) : M unit :=
  for_each frames (fun '(idx, frame) => process_frame idx frame).

End Loop.

(** The dictionary [results] as [analyze_video] first builds it. *)
Definition initial_results (video_path : string) (n_frames : nat)
    (interval_seconds : float) : Results :=
  {| video_path := video_path;
     total_frames_analyzed := n_frames;
     interval_seconds := interval_seconds;
     timestamp := datetime_now w;
     frame_results := [];
     summary :=
       {| maxima :=
            <["max_adult" := VStr "VERY_UNLIKELY"]>
            (<["max_violence" := VStr "VERY_UNLIKELY"]>
            (<["max_medical" := VStr "VERY_UNLIKELY"]>
            (<["max_racy" := VStr "VERY_UNLIKELY"]>
            (<["max_spoof" := VStr "VERY_UNLIKELY"]> ∅))));
          flagged_frames := [] |} |}.

(** The run of [analyze_video]: the calls it made and what it returned
    or raised. *)
Definition analyze_video (video_path : string) (interval_seconds : float)
    (save_flagged_frames : bool) (output_dir : option string)
    : list Call * (exn + Results) :=
  if negb (os_path_exists w video_path) then
    ([], inl (FileNotFoundError ("Video file not found: " +:+ video_path)))
  else
    match extract_frames video_path interval_seconds with
    | inl e => ([], inl e)
    | inr frames =>
        let dir := default "" output_dir in
        let wanted := save_flagged_frames && truthy output_dir in
        match (if wanted then os_makedirs w dir else None) with
        | Some e => ([CallMakedirs dir], inl e)
        | None =>
            let st0 :=
              {| results := initial_results video_path (length frames) interval_seconds;
                 calls := if wanted then [CallMakedirs dir] else [] |} in
            match analyze_frames interval_seconds save_flagged_frames output_dir
                    (enumerate frames) st0 with
            | (st, inl e) => (calls st, inl e)
            | (st, inr _) => (calls st, inr (results st))
            end
        end
    end.

End Analyzer.

Arguments World : clear implicits.

(** ** The specification's sampling formula *)

(** [ceil(a / b)], through the floor division of [Z]. *)
Definition ceil_div (a b : Z) : Z := - ((- a) / b).

(** [round(x)] as the specification's formula has it: the nearest
    integer, a tie going to the even one (0 where [x] is not finite). *)
Definition spec_round (x : float) : Z :=
  match Prim2SF x with
  | S754_finite s m e =>
      let a :=
        if 0 <=? e then Z.pos m * 2 ^ e
        else
          let d := 2 ^ (- e) in
          let q := Z.pos m / d in
          let rem := Z.pos m mod d in
          if (d <? 2 * rem) || ((d =? 2 * rem) && Z.odd q) then q + 1 else q in
      if s then - a else a
  | _ => 0
  end.

(** [max(1, round(f * i))] and [ceil(total / max(1, round(f * i)))]. *)
Definition spec_stride (f i : float) : Z := Z.max 1 (spec_round (f * i)).

Definition spec_frame_count (total : Z) (f i : float) : Z :=
  ceil_div total (spec_stride f i).

(** ** Concrete runs *)

(** A reply with all five categories set. *)
Definition reply (a s m v r : Z) : SafeSearchAnnotation :=
  {| adult := Some a; spoof := Some s; medical := Some m;
     violence := Some v; racy := Some r |}.

(** A world with one video, [agv.mp4], of [n] frames (frame [k] is the
    number [k]) at [fps] frames per second, a service that answers the
    request for sampled frame [idx] with [service idx], and a file
    system and encoder that never fail. *)
Definition test_world (fps : float) (n : nat)
    (service : nat -> exn + SafeSearchAnnotation) : World nat :=
  {| os_path_exists := fun path => String.eqb path "agv.mp4";
     VideoCapture := fun path =>
       if String.eqb path "agv.mp4" then Some (fps, seq 0 n) else None;
     imencode := fun frame => inr [];
     safe_search_detection := fun idx _ => service idx;
     os_makedirs := fun _ => None;
     os_path_join := fun a b => a +:+ "/" +:+ b;
     imwrite := fun _ _ => None;
     datetime_now := "2024-05-01T12:00:00";
     repr_float := fun _ => "0.0";
     ImageAnnotatorClient := fun _ => None;
     json_dump := fun _ _ => None;
     write_report := fun _ _ => None |}.

(** Every frame rated VERY_UNLIKELY in every category. *)
Definition all_clear (idx : nat) : exn + SafeSearchAnnotation :=
  inr (reply 1 1 1 1 1).

(** The frame rate 29.97 (NTSC), as the binary64 value nearest to it. *)
Definition ntsc_fps : float := 0x1.df851eb851eb8p+4.

(** A reply in which the service left [racy] unset. *)
Definition reply_without_racy : SafeSearchAnnotation :=
  {| adult := Some 1; spoof := Some 1; medical := Some 1;
     violence := Some 1; racy := None |}.

(** ** Vocabulary of the properties *)

(** The five categories, and the field of a reply each one reads. *)
Definition categories : list string :=
  ["adult"; "spoof"; "medical"; "violence"; "racy"].

Definition field_of (safe_search : SafeSearchAnnotation) (key : string) : option Z :=
  if String.eqb key "adult" then adult safe_search
  else if String.eqb key "spoof" then spoof safe_search
  else if String.eqb key "medical" then medical safe_search
  else if String.eqb key "violence" then violence safe_search
  else racy safe_search.

(** The rank of category [key] in a dictionary of scores, when it holds a
    name of the rank table. *)
Definition rank (d : gmap string pyval) (key : string) : option Z :=
  match d !! key with
  | Some (VStr name) => likelihood_levels !! name
  | _ => None
  end.

(** A dictionary that rates each of the five categories with a name of
    the rank table. *)
Definition scores (d : gmap string pyval) : Prop :=
  Forall (fun key => exists name r,
            d !! key = Some (VStr name) /\
            likelihood_levels !! name = Some r /\ 0 <= r <= 5)
         categories.

(** The three parts of the state the frame loop writes. *)
Definition entries (st : State) : list (gmap string pyval) :=
  frame_results (results st).

Definition flags (st : State) : list FlagRecord :=
  flagged_frames (summary (results st)).

Definition maxes (st : State) : gmap string pyval :=
  maxima (summary (results st)).

(** The state with its [max_<category>] entries replaced. *)
Definition set_maxima (m : gmap string pyval) (st : State) : State :=
  with_results (with_summary (fun s =>
    {| maxima := m; flagged_frames := flagged_frames s |})) st.

(** A map of maxima that holds, for each category, a name of the rank
    table of rank 1 or more. *)
Definition maxima_ok (m : gmap string pyval) : Prop :=
  Forall (fun key => exists name r,
            m !! ("max_" +:+ key) = Some (VStr name) /\
            likelihood_levels !! name = Some r /\ 1 <= r <= 5)
         categories.

(** The entry a scored frame leaves in [frame_results], the marker a
    failed one leaves, and the record of a flagged one. *)
Definition stamped (interval_seconds : float) (idx : nat)
    (d : gmap string pyval) : gmap string pyval :=
  <["timestamp_seconds" := VFloat (float_of_nat idx * interval_seconds)]>
    (<["frame_index" := VInt (Z.of_nat idx)]> d).

Definition error_marker {Frame : Type} (w : World Frame) (idx : nat) (e : exn)
    : gmap string pyval :=
  <["frame_index" := VInt (Z.of_nat idx)]> (<["error" := VStr (str w e)]> ∅).

Definition flag_record (interval_seconds : float) (idx : nat)
    (d : gmap string pyval) : FlagRecord :=
  {| frame_index := idx;
     timestamp_seconds := float_of_nat idx * interval_seconds;
     reasons := stamped interval_seconds idx d |}.

(** The flag predicate of the specification: one of adult, violence,
    racy has rank 3 (POSSIBLE) or more. *)
Definition flag_keys : list string := ["adult"; "violence"; "racy"].

Definition flag_predicate (d : gmap string pyval) : Prop :=
  Exists (fun key => exists r, rank d key = Some r /\ 3 <= r) flag_keys.

Definition is_flagged (d : gmap string pyval) : bool :=
  existsb (fun key => match rank d key with
                      | Some r => 3 <=? r
                      | None => false
                      end) flag_keys.

(** The order in which the key loop of [analyze_video] visits the
    categories. *)
Definition update_order : list string :=
  ["adult"; "violence"; "medical"; "racy"; "spoof"].

(** What the frame loop does to the state after the maxima of a scored
    frame are in: the flag check, and the saving of a flagged frame. *)
Definition flag_step (interval_seconds : float) (idx : nat)
    (d : gmap string pyval) (st : State) : State :=
  if is_flagged d then append_flagged (flag_record interval_seconds idx d) st
  else st.

Definition save_step {Frame : Type} (w : World Frame)
    (save_flagged_frames : bool) (output_dir : option string)
    (idx : nat) (frame : Frame) (d : gmap string pyval) (st : State) : State :=
  if is_flagged d && (save_flagged_frames && truthy output_dir) then
    let frame_path :=
      os_path_join w (default "" output_dir)
        ("flagged_frame_" +:+ format_04d idx +:+ ".jpg") in
    let st' := record_call (CallImwrite frame_path) st in
    match imwrite w frame_path frame with
    | Some e => append_frame_result (error_marker w idx e) st'
    | None => st'
    end
  else st.

(** The header of a result dictionary: the entries the frame loop never
    writes. *)
Definition header (r : Results) : string * nat * float * string :=
  (video_path r, total_frames_analyzed r, interval_seconds r, timestamp r).

Section Contributions.

Context {Frame : Type}.
Variable w : World Frame.
Variable interval_seconds : float.
Variable save_flagged_frames : bool.
Variable output_dir : option string.

(** The state after the frame loop has run over [frames] from [st]. *)
Definition loop_state (frames : list (nat * Frame)) (st : State) : State :=
  (analyze_frames w interval_seconds save_flagged_frames output_dir frames st).1.

(** The state in which [analyze_video] enters the frame loop. *)
Definition initial_state (video_path : string) (n_frames : nat) : State :=
  {| results := initial_results w video_path n_frames interval_seconds;
     calls := if save_flagged_frames && truthy output_dir
              then [CallMakedirs (default "" output_dir)] else [] |}.

(** The scores of sampled frame [x.1], when scoring it succeeds. *)
Definition score_of (x : nat * Frame) : exn + gmap string pyval :=
  analyze_frame_safety w (safe_search_detection w x.1) x.2.

(** What one sampled frame adds to the flagged list and to the per-frame
    results. *)
Definition flags_of (x : nat * Frame) : list FlagRecord :=
  match score_of x with
  | inr d => if is_flagged d then [flag_record interval_seconds x.1 d] else []
  | inl _ => []
  end.

Definition save_failure (x : nat * Frame) (d : gmap string pyval) : option exn :=
  if is_flagged d && (save_flagged_frames && truthy output_dir) then
    imwrite w (os_path_join w (default "" output_dir)
                 ("flagged_frame_" +:+ format_04d x.1 +:+ ".jpg")) x.2
  else None.

Definition entries_of (x : nat * Frame) : list (gmap string pyval) :=
  match score_of x with
  | inr d =>
      stamped interval_seconds x.1 d ::
      match save_failure x d with
      | Some e => [error_marker w x.1 e]
      | None => []
      end
  | inl e => [error_marker w x.1 e]
  end.

(** The ranks of category [key] in the successfully scored frames of
    [frames], in order, and the greatest of them (0 when there is none). *)
Definition scored_ranks (key : string) (frames : list (nat * Frame)) : list Z :=
  omap (fun x => match score_of x with
                 | inr d => rank d key
                 | inl _ => None
                 end) frames.

Definition greatest (ranks : list Z) : Z := foldr Z.max 0 ranks.

End Contributions.

(** The maxima after the key loop has run for a scored frame [d]: one
    category at a time, the stored name is replaced when the frame's
    rank is strictly greater. *)
Definition raise_max (d m : gmap string pyval) (key : string) : gmap string pyval :=
  match rank d key, rank m ("max_" +:+ key), d !! key with
  | Some r, Some r0, Some v => if r >? r0 then <["max_" +:+ key := v]> m else m
  | _, _, _ => m
  end.

Definition raise_maxima (d m : gmap string pyval) : gmap string pyval :=
  foldl (raise_max d) m update_order.

Section Effects.

Context {Frame : Type}.
Variable w : World Frame.
Variable interval_seconds : float.
Variable save_flagged_frames : bool.
Variable output_dir : option string.

(** What one sampled frame does to the maxima, and the calls made for
    it. *)
Definition maxima_after (x : nat * Frame) (m : gmap string pyval) : gmap string pyval :=
  match score_of w x with
  | inr d => raise_maxima (stamped interval_seconds x.1 d) m
  | inl _ => m
  end.

Definition calls_of (x : nat * Frame) : list Call :=
  CallAnalyzeFrame x.1 ::
  match score_of w x with
  | inr d =>
      if is_flagged d && (save_flagged_frames && truthy output_dir) then
        [CallImwrite (os_path_join w (default "" output_dir)
                        ("flagged_frame_" +:+ format_04d x.1 +:+ ".jpg"))]
      else []
  | inl _ => []
  end.

End Effects.


(** The two shapes of an entry of [frame_results]. *)
Definition scored_entry (interval_seconds : float) (entry : gmap string pyval) : Prop :=
  dom entry = list_to_set (categories ++ ["frame_index"; "timestamp_seconds"]) /\
  scores entry /\
  exists idx : nat,
    entry !! "frame_index" = Some (VInt (Z.of_nat idx)) /\
    entry !! "timestamp_seconds" = Some (VFloat (float_of_nat idx * interval_seconds)).

Definition error_entry (entry : gmap string pyval) : Prop :=
  dom entry = list_to_set ["frame_index"; "error"] /\
  exists (idx : nat) (description : string),
    entry !! "frame_index" = Some (VInt (Z.of_nat idx)) /\
    entry !! "error" = Some (VStr description).

(** A service for a six-frame run: frame 2 is rated adult POSSIBLE,
    the request for frame 3 fails, frame 4 is rated medical LIKELY and
    spoof VERY_LIKELY, and the other frames are rated VERY_UNLIKELY
    throughout. *)
Definition sample_service (idx : nat) : exn + SafeSearchAnnotation :=
  if (idx =? 2)%nat then inr (reply 3 1 1 1 1)
  else if (idx =? 3)%nat then inl (ExternalError "503 Service Unavailable")
  else if (idx =? 4)%nat then inr (reply 1 5 4 1 1)
  else inr (reply 1 1 1 1 1).

Definition sample_world : World nat := test_world 1 6 sample_service.


(** Whether a run returned, and the dictionary it returned. *)
Definition returns (run : list Call * (exn + Results)) : bool :=
  match run.2 with
  | inr _ => true
  | inl _ => false
  end.

Definition no_results : Results :=
  {| video_path := ""; total_frames_analyzed := 0; interval_seconds := 0;
     timestamp := ""; frame_results := [];
     summary := {| maxima := ∅; flagged_frames := [] |} |}.

Definition results_of (run : list Call * (exn + Results)) : Results :=
  match run.2 with
  | inr res => res
  | inl _ => no_results
  end.

Definition sample_run : list Call * (exn + Results) :=
  analyze_video sample_world "agv.mp4" 1 false None.

Definition sample_results : Results := results_of sample_run.

(** A one-frame run whose frame is rated UNKNOWN in every category. *)
Definition unknown_world : World nat :=
  test_world 1 1 (fun _ => inr (reply 0 0 0 0 0)).

Definition unknown_run : list Call * (exn + Results) :=
  analyze_video unknown_world "agv.mp4" 1 false None.



(** The scores of sampled frame [idx] in the sample run. *)
Definition sample_scores (idx : nat) : gmap string pyval :=
  match analyze_frame_safety sample_world (safe_search_detection sample_world idx) idx with
  | inr d => d
  | inl _ => ∅
  end.

(** A two-frame run rated adult LIKELY, then adult POSSIBLE. *)
Definition likely_then_possible (idx : nat) : exn + SafeSearchAnnotation :=
  if (idx =? 0)%nat then inr (reply 4 1 1 1 1) else inr (reply 3 1 1 1 1).

(** A command line for the sample run, and the run [main] makes for it. *)
Definition sample_args : Args.t :=
  {| Args.video_path := "agv.mp4";
     Args.credentials := None;
     Args.interval := 1;
     Args.save_flagged := false;
     Args.output_dir := "flagged_frames";
     Args.json_output := Some "results.json";
     Args.report_output := None |}.

Definition sample_main_run : list Call * (exn + Results) :=
  analyze_video sample_world "agv.mp4" 1 false (Some "flagged_frames").

(** ** The report and the command line *)

(** [sep.join(lines)] and [s * n] on strings. *)
Fixpoint join (sep : string) (lines : list string) : string :=
  match lines with
  | [] => ""
  | line :: rest =>
      match rest with
      | [] => line
      | _ :: _ => line +:+ sep +:+ join sep rest
      end
  end.

Fixpoint string_mul (s : string) (n : nat) : string :=
  match n with
  | O => ""
  | S n' => s +:+ string_mul s n'
  end.

(** The line feed, ['\n']. *)
Definition newline : string := String (Ascii.ascii_of_nat 10) EmptyString.

(** The keys of a frame's dictionary in the order in which
    [analyze_frame_safety] (the dictionary display) and the frame loop
    (the two assignments) insert them.  [d.items()] lists a dictionary
    in insertion order, so this is the order of [items] for every
    dictionary [analyze_video] stores under [reasons]. *)
Definition insertion_order : list string :=
  ["adult"; "spoof"; "medical"; "violence"; "racy"; "frame_index"; "timestamp_seconds"].

Definition items (d : gmap string pyval) : list (string * pyval) :=
  omap (fun key => (fun value => (key, value)) <$> d !! key) insertion_order.

Section Report.

Context {Frame : Type}.
Variable w : World Frame.

(** [format(x, '.1f')] on a float. *)
Variable format_1f : float -> string.

(** [print(text)] on the standard output of the process: the exception it
    raises, if any (the output cannot encode a character of the text, or
    is closed). *)
Variable print : string -> option exn.

(** [str(v)], as an f-string field prints a value. *)
Definition str_value (v : pyval) : string :=
  match v with
  | VStr s => s
  | VInt z => pretty z
  | VFloat f => repr_float w f
  end.

(** The inner loop over [flagged['reasons'].items()]. *)
Definition reason_lines (reasons : gmap string pyval) : list string :=
  flat_map (fun '(key, value) =>
              if bool_decide (key ∈ ["frame_index"; "timestamp_seconds"]) then []
              else ["  - " +:+ key +:+ ": " +:+ str_value value])
           (items reasons).

(** The lines one flagged frame adds to the report. *)
Definition flagged_lines (flagged : FlagRecord) : list string :=
  ("Frame " +:+ pretty (frame_index flagged) +:+ " at "
     +:+ format_1f (timestamp_seconds flagged) +:+ "s:")
  :: reason_lines (reasons flagged) ++ [""].

(** The lines up to the summary, which read no nested dictionary. *)
Definition heading_lines (results : Results) : list string :=
  [string_mul "=" 60;
   "VIDEO SAFE SEARCH ANALYSIS REPORT";
   string_mul "=" 60;
   "Video: " +:+ video_path results;
   "Analysis Date: " +:+ timestamp results;
   "Frames Analyzed: " +:+ pretty (total_frames_analyzed results);
   "Sampling Interval: " +:+ repr_float w (interval_seconds results) +:+ " seconds";
   "";
   "SUMMARY";
   string_mul "-" 40].

(** The lines after the summary. *)
Definition verdict_lines (results : Results) : list string :=
  match flagged_frames (summary results) with
  | [] => ["✓ No concerning content detected"]
  | _ :: _ =>
      ("⚠️  FLAGGED FRAMES: " +:+ pretty (length (flagged_frames (summary results))))
      :: string_mul "-" 40
      :: flat_map flagged_lines (flagged_frames (summary results))
  end.

(** The list [report] when [generate_report] joins it. *)
Definition report_lines (results : Results) : exn + list string :=
  let maxes := maxima (summary results) in
  match dict_get maxes "max_adult" with
  | inl e => inl e
  | inr max_adult =>
  match dict_get maxes "max_violence" with
  | inl e => inl e
  | inr max_violence =>
  match dict_get maxes "max_medical" with
  | inl e => inl e
  | inr max_medical =>
  match dict_get maxes "max_racy" with
  | inl e => inl e
  | inr max_racy =>
  match dict_get maxes "max_spoof" with
  | inl e => inl e
  | inr max_spoof =>
      inr (heading_lines results ++
           ["Maximum Adult Content: " +:+ str_value max_adult;
            "Maximum Violence: " +:+ str_value max_violence;
            "Maximum Medical: " +:+ str_value max_medical;
            "Maximum Racy Content: " +:+ str_value max_racy;
            "Maximum Spoof: " +:+ str_value max_spoof;
            ""] ++
           verdict_lines results)
  end end end end end.

(** [generate_report]: the report text, or the exception raised while
    the report is built or written to [output_file]. *)
Definition generate_report (results : Results) (output_file : option string)
    : exn + string :=
  match report_lines results with
  | inl e => inl e
  | inr report =>
      let report_text := join newline report in
      if truthy output_file then
        match write_report w (default "" output_file) results with
        | Some e => inl e
        | None => inr report_text
        end
      else inr report_text
  end.

(** What a run of [main] has done outside the process: the calls of
    [analyze_video], the files it has written and the text it has
    printed. *)
Inductive Output : Type :=
| OutCall (c : Call)
| OutJson (path : string)
| OutReport (path : string)
| OutPrint (text : string).

(** *** [main] *)

(** [main] for a parsed command line: what the run has done, and the
    status it passes to [exit].  Everything from the creation of the
    analyzer to the printing of the report is in the [try] block, so an
    exception of any of these steps ends the run with status 1. *)
Definition main (args : Args.t) : list Output * Z :=
  match ImageAnnotatorClient w (Args.credentials args) with
  | Some _ => ([], 1)
  | None =>
  match analyze_video w (Args.video_path args) (Args.interval args)
          (Args.save_flagged args) (Some (Args.output_dir args)) with
  | (trace, inl _) => (OutCall <$> trace, 1)
  | (trace, inr results) =>
  let json_wanted := truthy (Args.json_output args) in
  let json_path := default "" (Args.json_output args) in
  match (if json_wanted then json_dump w json_path results else None) with
  | Some _ => (OutCall <$> trace, 1)
  | None =>
  let out := (OutCall <$> trace) ++ (if json_wanted then [OutJson json_path] else []) in
  match generate_report results (Args.report_output args) with
  | inl _ => (out, 1)
  | inr report =>
  let out :=
    out ++ (if truthy (Args.report_output args)
            then [OutReport (default "" (Args.report_output args))] else []) in
  match print (newline +:+ report) with
  | Some _ => (out, 1)
  | None =>
      (out ++ [OutPrint (newline +:+ report)],
       match flagged_frames (summary results) with
       | [] => 0
       | _ :: _ => 1
       end)
  end end end end end.

(** A run of [main] completes when the client is created, the analysis
    returns, the JSON file, where asked for, is written, the report is
    generated (and written, where asked for) and printed. *)
Definition completes (args : Args.t) (trace : list Call) (results : Results)
    (report : string) : Prop :=
  ImageAnnotatorClient w (Args.credentials args) = None /\
  analyze_video w (Args.video_path args) (Args.interval args)
    (Args.save_flagged args) (Some (Args.output_dir args)) = (trace, inr results) /\
  (truthy (Args.json_output args) = true ->
   json_dump w (default "" (Args.json_output args)) results = None) /\
  generate_report results (Args.report_output args) = inr report /\
  print (newline +:+ report) = None.

End Report.

(** The five summary lines of a report, for the names the summary
    holds. *)
Definition summary_lines_for (a v m r s : string) : list string :=
  ["Maximum Adult Content: " +:+ a;
   "Maximum Violence: " +:+ v;
   "Maximum Medical: " +:+ m;
   "Maximum Racy Content: " +:+ r;
   "Maximum Spoof: " +:+ s;
   ""].

(** The outputs of a completed run of [main] that made the calls [trace]
    and printed [text]. *)
Definition outputs_of (args : Args.t) (trace : list Call) (text : string)
    : list Output :=
  (OutCall <$> trace)
  ++ (if truthy (Args.json_output args)
      then [OutJson (default "" (Args.json_output args))] else [])
  ++ (if truthy (Args.report_output args)
      then [OutReport (default "" (Args.report_output args))] else [])
  ++ [OutPrint text].

(** The keys [generate_report] reads from the summary, in the order of
    its lines. *)
Definition max_keys : list string :=
  ["max_adult"; "max_violence"; "max_medical"; "max_racy"; "max_spoof"].

(** The kinds of call in a trace. *)
Definition is_imwrite (c : Call) : bool :=
  match c with CallImwrite _ => true | _ => false end.

Definition is_makedirs (c : Call) : bool :=
  match c with CallMakedirs _ => true | _ => false end.

Definition is_analyze (c : Call) : bool :=
  match c with CallAnalyzeFrame _ => true | _ => false end.

(** The path under which the frame loop saves flagged frame [idx]. *)
Definition frame_filename (idx : nat) : string :=
  "flagged_frame_" +:+ format_04d idx +:+ ".jpg".

(** ** More concrete runs *)

(** A formatter for the times of a report, as crude as the [repr_float]
    of [test_world]. *)
Definition sample_format (x : float) : string := "0.0".

(** A standard output that takes any text, and one that encodes ASCII
    only, on which [print] raises for any other character. *)
Definition sample_print (text : string) : option exn := None.

Fixpoint is_ascii (s : string) : bool :=
  match s with
  | EmptyString => true
  | String c s' => (Ascii.nat_of_ascii c <? 128)%nat && is_ascii s'
  end.

Definition ascii_print (text : string) : option exn :=
  if is_ascii text then None
  else Some (ExternalError "'ascii' codec can't encode character").

(** The sample run with its flagged frames saved. *)
Definition saved_run : list Call * (exn + Results) :=
  analyze_video sample_world "agv.mp4" 1 true (Some "flagged_frames").

(** The sample world with a disk on which no frame can be written, and
    the run that tries to save its flagged frames there. *)
Definition disk_full_world : World nat :=
  {| os_path_exists := os_path_exists sample_world;
     VideoCapture := VideoCapture sample_world;
     imencode := imencode sample_world;
     safe_search_detection := safe_search_detection sample_world;
     os_makedirs := os_makedirs sample_world;
     os_path_join := os_path_join sample_world;
     imwrite := fun _ _ => Some (ExternalError "No space left on device");
     datetime_now := datetime_now sample_world;
     repr_float := repr_float sample_world;
     ImageAnnotatorClient := ImageAnnotatorClient sample_world;
     json_dump := json_dump sample_world;
     write_report := write_report sample_world |}.

Definition disk_full_run : list Call * (exn + Results) :=
  analyze_video disk_full_world "agv.mp4" 1 true (Some "flagged_frames").

(** A three-frame video analyzed while the service is down. *)
Definition outage_world : World nat :=
  test_world 1 3 (fun _ => inl (ExternalError "503 Service Unavailable")).

Definition outage_args : Args.t :=
  {| Args.video_path := "agv.mp4";
     Args.credentials := None;
     Args.interval := 1;
     Args.save_flagged := false;
     Args.output_dir := "flagged_frames";
     Args.json_output := None;
     Args.report_output := None |}.

Definition outage_run : list Call * (exn + Results) :=
  analyze_video outage_world "agv.mp4" 1 false (Some "flagged_frames").

(** The record of frame 2 of the sample run, the one it flags. *)
Definition sample_flagged : FlagRecord := flag_record 1 2 (sample_scores 2).

(** * Properties *)

(** ** Frame sampling *)

Section ExtractFrames.

Context {Frame : Type}.
Implicit Types (cap frames : list Frame) (n c : Z).

Lemma phase_at_multiple n c :
  1 <= n -> c mod n = 0 -> (- c) mod n = 0 /\ (- (c + 1)) mod n = n - 1.
Proof.
  intros Hn Hc. pose proof (Z.div_mod c n ltac:(lia)) as Hdiv. split.
  - symmetry. apply (Z.mod_unique_pos _ _ (- (c / n))); lia.
  - symmetry. apply (Z.mod_unique_pos _ _ (- (c / n) - 1)); lia.
Qed.

Lemma phase_between n c :
  1 <= n -> c mod n <> 0 -> (- (c + 1)) mod n = (- c) mod n - 1 /\ 1 <= (- c) mod n.
Proof.
  intros Hn Hc. pose proof (Z.div_mod c n ltac:(lia)) as Hdiv.
  pose proof (Z.mod_pos_bound c n ltac:(lia)) as Hr.
  assert (Hneg : (- c) mod n = n - c mod n).
  { symmetry. apply (Z.mod_unique_pos _ _ (- (c / n) - 1)); lia. }
  assert (Hnext : (- (c + 1)) mod n = n - c mod n - 1).
  { symmetry. apply (Z.mod_unique_pos _ _ (- (c / n) - 1)); lia. }
  lia.
Qed.

(** The read loop with a stride [n >= 1], started at count [c]: it keeps
    the frames at the positions where the count is a multiple of [n]. *)
Lemma read_frames_stride n cap : forall c frames,
  1 <= n ->
  exists out,
    read_frames n cap c frames = inr (frames ++ out) /\
    forall k : nat, out !! k = cap !! (Z.to_nat ((- c) mod n) + k * Z.to_nat n)%nat.
Proof.
  induction cap as [|frame cap IH]; intros c frames Hn; simpl.
  - exists []. rewrite app_nil_r. split; [done|]. intros k. by rewrite !lookup_nil.
  - unfold py_mod. destruct (Z.eqb_spec n 0) as [->|_]; [lia|].
    destruct (Z.eqb_spec (c mod n) 0) as [Hc|Hc].
    + destruct (IH (c + 1) (frames ++ [frame]) Hn) as (out & -> & Hout).
      destruct (phase_at_multiple n c Hn Hc) as [-> Hnext].
      exists (frame :: out). rewrite <- app_assoc. split; [done|].
      intros [|k]; [done|]. change ((frame :: out) !! S k) with (out !! k).
      rewrite Hout, Hnext.
      replace (S k * Z.to_nat n)%nat with (S (Z.to_nat (n - 1) + k * Z.to_nat n)) by lia.
      done.
    + destruct (IH (c + 1) frames Hn) as (out & -> & Hout).
      destruct (phase_between n c Hn Hc) as [Hnext Hpos].
      exists out. split; [done|]. intros k. rewrite Hout, Hnext.
      replace (Z.to_nat ((- c) mod n) + k * Z.to_nat n)%nat
        with (S (Z.to_nat ((- c) mod n - 1) + k * Z.to_nat n)) by lia.
      done.
Qed.

(** A list that holds every [n]-th element of [cap] has [ceil(|cap| / n)]
    elements. *)
Lemma stride_length n cap frames :
  1 <= n ->
  (forall k : nat, frames !! k = cap !! (k * Z.to_nat n)%nat) ->
  Z.of_nat (length frames) = ceil_div (Z.of_nat (length cap)) n.
Proof.
  intros Hn H. unfold ceil_div.
  assert (Hup : Z.of_nat (length cap) <= Z.of_nat (length frames) * n).
  { pose proof (H (length frames)) as Hk.
    rewrite (lookup_ge_None_2 frames) in Hk by lia.
    symmetry in Hk. apply lookup_ge_None_1 in Hk. nia. }
  assert (Hlow : (length frames > 0)%nat ->
                 (Z.of_nat (length frames) - 1) * n < Z.of_nat (length cap)).
  { intros Hpos. pose proof (H (length frames - 1)%nat) as Hk.
    destruct (lookup_lt_is_Some_2 frames (length frames - 1)%nat) as [x Hx]; [lia|].
    rewrite Hx in Hk. symmetry in Hk. apply lookup_lt_Some in Hk. nia. }
  destruct (length frames) as [|m].
  - assert (length cap = 0%nat) as -> by lia. done.
  - specialize (Hlow ltac:(lia)). Z.div_mod_to_equations. nia.
Qed.

(** The first read with a stride of zero raises: the remainder
    [frame_count % frame_interval] is taken before anything is kept. *)
Lemma read_frames_zero_stride (frame : Frame) cap c frames :
  read_frames 0 (frame :: cap) c frames
  = inl (ZeroDivisionError "integer modulo by zero").
Proof. reflexivity. Qed.

(** C3 (amended): when the video opens and [int(fps * interval_seconds)],
    the product truncated toward zero, is a stride [n >= 1], the sampler
    returns exactly [ceil(total_source_frames / n)] frames and its [k]-th
    frame is source frame [k * n]. *)
Theorem extract_frames_stride (w : World Frame) (video_path : string)
    (interval_seconds fps : float) cap n :
  VideoCapture w video_path = Some (fps, cap) ->
  int_of_float (fps * interval_seconds) = inr n ->
  1 <= n ->
  exists frames,
    extract_frames w video_path interval_seconds = inr frames /\
    Z.of_nat (length frames) = ceil_div (Z.of_nat (length cap)) n /\
    forall k : nat, frames !! k = cap !! (k * Z.to_nat n)%nat.
Proof.
  intros Hopen Hint Hn. unfold extract_frames. rewrite Hopen, Hint.
  destruct (read_frames_stride n cap 0 [] Hn) as (out & Hrun & Hout).
  assert (Hk : forall k : nat, out !! k = cap !! (k * Z.to_nat n)%nat).
  { intros k. rewrite Hout. f_equal. }
  exists out. split; [exact Hrun|]. split; [|exact Hk].
  by apply stride_length.
Qed.

End ExtractFrames.

(** C3, witness: a 2 fps video of 7 frames sampled every 1.5 seconds
    (stride 3) gives frames 0, 3 and 6. *)
Lemma extract_frames_stride_witness :
  exists frames : list nat,
    extract_frames (test_world 2 7 all_clear) "agv.mp4" 1.5 = inr frames /\
    Z.of_nat (length frames) = ceil_div (Z.of_nat (length (seq 0 7))) 3 /\
    forall k : nat, frames !! k = seq 0 7 !! (k * Z.to_nat 3)%nat.
Proof.
  apply (extract_frames_stride (test_world 2 7 all_clear) "agv.mp4" 1.5 2 (seq 0 7) 3).
  - reflexivity.
  - reflexivity.
  - lia.
Defined.

(** C3, counterexample: at 29.97 fps and a 1-second interval the code
    strides by [int(29.97) = 29], so a 30-frame video yields two frames,
    source frames 0 and 29; the specification's formula rounds to a stride
    of 30 and promises one frame. *)
Lemma extract_frames_round_counterexample :
  extract_frames (test_world ntsc_fps 30 all_clear) "agv.mp4" 1 = inr [0%nat; 29%nat] /\
  spec_round (ntsc_fps * 1) = 30 /\
  spec_frame_count 30 ntsc_fps 1 = 1.
Proof. repeat split; vm_compute; reflexivity. Qed.

(** C4: a frame rate of 0 gives a stride of 0, and the first frame read
    raises [ZeroDivisionError]; no frame is returned. *)
Theorem extract_frames_zero_fps_raises :
  extract_frames (test_world 0 3 all_clear) "agv.mp4" 1
  = inl (ZeroDivisionError "integer modulo by zero").
Proof. reflexivity. Qed.

(** ** Scoring one frame *)

Section Scorer.

Context {Frame : Type}.
Variable w : World Frame.

(** A successful index into [likelihood_names] is a name of the rank
    table; for an index in 0..5 its rank is the index. *)
Lemma py_index_names_inv (z : Z) (name : string) :
  py_index likelihood_names z = inr name ->
  exists r, likelihood_levels !! name = Some r /\ 0 <= r <= 5 /\
            (0 <= z -> r = z).
Proof.
  unfold py_index. cbv zeta. change (Z.of_nat (length likelihood_names)) with 6.
  destruct (z <? 0) eqn:Hneg.
  - apply Z.ltb_lt in Hneg.
    destruct ((0 <=? z + 6) && (z + 6 <? 6)) eqn:Hin; [|discriminate].
    apply andb_prop in Hin as [Hlo Hhi].
    apply Z.leb_le in Hlo. apply Z.ltb_lt in Hhi.
    assert (Hz : z = -6 \/ z = -5 \/ z = -4 \/ z = -3 \/ z = -2 \/ z = -1) by lia.
    destruct Hz as [->|[->|[->|[->|[->| ->]]]]]; intros H; vm_compute in H;
      injection H as <-; vm_compute (likelihood_levels !! _);
      eexists; (split; [reflexivity|]); lia.
  - apply Z.ltb_ge in Hneg.
    destruct ((0 <=? z) && (z <? 6)) eqn:Hin; [|discriminate].
    apply andb_prop in Hin as [Hlo Hhi]. apply Z.ltb_lt in Hhi.
    assert (Hz : z = 0 \/ z = 1 \/ z = 2 \/ z = 3 \/ z = 4 \/ z = 5) by lia.
    destruct Hz as [->|[->|[->|[->|[->| ->]]]]]; intros H; vm_compute in H;
      injection H as <-; vm_compute (likelihood_levels !! _);
      eexists; (split; [reflexivity|]); lia.
Qed.

Lemma py_index_names_in_range (z : Z) :
  0 <= z <= 5 ->
  exists name, py_index likelihood_names z = inr name /\
               likelihood_names !! Z.to_nat z = Some name.
Proof.
  intros Hz.
  assert (Hc : z = 0 \/ z = 1 \/ z = 2 \/ z = 3 \/ z = 4 \/ z = 5) by lia.
  destruct Hc as [->|[->|[->|[->|[->| ->]]]]]; eexists; split; reflexivity.
Qed.

(** What [analyze_frame_safety] returns when it returns: the five names
    it read from the table, under the five category keys. *)
Lemma analyze_frame_safety_inr client (frame : Frame) d :
  analyze_frame_safety w client frame = inr d ->
  exists image safe_search a s m v r,
    imencode w frame = inr image /\
    client image = inr safe_search /\
    py_index likelihood_names (enum_value (adult safe_search)) = inr a /\
    py_index likelihood_names (enum_value (spoof safe_search)) = inr s /\
    py_index likelihood_names (enum_value (medical safe_search)) = inr m /\
    py_index likelihood_names (enum_value (violence safe_search)) = inr v /\
    py_index likelihood_names (enum_value (racy safe_search)) = inr r /\
    d = <["adult" := VStr a]> (<["spoof" := VStr s]> (<["medical" := VStr m]>
          (<["violence" := VStr v]> (<["racy" := VStr r]> ∅)))).
Proof.
  unfold analyze_frame_safety. intros H.
  destruct (imencode w frame) as [?|image] eqn:Himg; [discriminate|].
  destruct (client image) as [?|safe_search] eqn:Hreply; [discriminate|].
  destruct (py_index _ (enum_value (adult safe_search))) as [?|a] eqn:Ha; [discriminate|].
  destruct (py_index _ (enum_value (spoof safe_search))) as [?|s] eqn:Hs; [discriminate|].
  destruct (py_index _ (enum_value (medical safe_search))) as [?|m] eqn:Hm; [discriminate|].
  destruct (py_index _ (enum_value (violence safe_search))) as [?|v] eqn:Hv; [discriminate|].
  destruct (py_index _ (enum_value (racy safe_search))) as [?|r] eqn:Hr; [discriminate|].
  injection H as <-. by exists image, safe_search, a, s, m, v, r.
Qed.

(** Every result of [analyze_frame_safety] has exactly the five category
    keys. *)
Lemma analyze_frame_safety_dom client (frame : Frame) d :
  analyze_frame_safety w client frame = inr d ->
  dom d = list_to_set categories.
Proof.
  intros H. apply analyze_frame_safety_inr in H
    as (image & safe_search & a & s & m & v & r & _ & _ & _ & _ & _ & _ & _ & ->).
  rewrite !dom_insert_L, dom_empty_L. unfold categories. simpl. set_solver.
Qed.

(** Every result of [analyze_frame_safety] rates the five categories
    with names of the rank table. *)
Lemma analyze_frame_safety_scores client (frame : Frame) d :
  analyze_frame_safety w client frame = inr d -> scores d.
Proof.
  intros H. apply analyze_frame_safety_inr in H
    as (image & safe_search & a & s & m & v & r & _ & _ & Ha & Hs & Hm & Hv & Hr & ->).
  apply py_index_names_inv in Ha as (ra & Ha & ? & _).
  apply py_index_names_inv in Hs as (rs & Hs & ? & _).
  apply py_index_names_inv in Hm as (rm & Hm & ? & _).
  apply py_index_names_inv in Hv as (rv & Hv & ? & _).
  apply py_index_names_inv in Hr as (rr & Hr & ? & _).
  unfold scores, categories.
  repeat apply Forall_cons_2; [..|apply Forall_nil_2];
    eexists _, _; (split; [by simplify_map_eq|]); eauto.
Qed.

(** C7 (amended): for a reply whose five enum values, an unset category
    reading as 0, are in 0..5, the scorer returns a dictionary with
    exactly the five category keys, each holding the table's name for the
    reply's value; a category the reply leaves unset raises nothing and
    is reported as UNKNOWN. *)
Theorem analyze_frame_safety_reply client (frame : Frame) image safe_search :
  imencode w frame = inr image ->
  client image = inr safe_search ->
  Forall (fun key => 0 <= enum_value (field_of safe_search key) <= 5) categories ->
  exists d,
    analyze_frame_safety w client frame = inr d /\
    dom d = list_to_set categories /\
    Forall (fun key =>
              exists name,
                d !! key = Some (VStr name) /\
                likelihood_names !! Z.to_nat (enum_value (field_of safe_search key))
                  = Some name /\
                (field_of safe_search key = None -> name = "UNKNOWN"))
           categories.
Proof.
  intros Himg Hreply Hrange.
  unfold categories in Hrange.
  apply Forall_cons_1 in Hrange as [Ha Hrange].
  apply Forall_cons_1 in Hrange as [Hs Hrange].
  apply Forall_cons_1 in Hrange as [Hm Hrange].
  apply Forall_cons_1 in Hrange as [Hv Hrange].
  apply Forall_cons_1 in Hrange as [Hr _].
  change (field_of safe_search "adult") with (adult safe_search) in Ha.
  change (field_of safe_search "spoof") with (spoof safe_search) in Hs.
  change (field_of safe_search "medical") with (medical safe_search) in Hm.
  change (field_of safe_search "violence") with (violence safe_search) in Hv.
  change (field_of safe_search "racy") with (racy safe_search) in Hr.
  destruct (py_index_names_in_range _ Ha) as (a & Hia & Hna).
  destruct (py_index_names_in_range _ Hs) as (s & His & Hns).
  destruct (py_index_names_in_range _ Hm) as (m & Him & Hnm).
  destruct (py_index_names_in_range _ Hv) as (v & Hiv & Hnv).
  destruct (py_index_names_in_range _ Hr) as (r & Hir & Hnr).
  assert (Hrun : analyze_frame_safety w client frame
    = inr (<["adult" := VStr a]> (<["spoof" := VStr s]> (<["medical" := VStr m]>
            (<["violence" := VStr v]> (<["racy" := VStr r]> ∅)))))).
  { unfold analyze_frame_safety. by rewrite Himg, Hreply, Hia, His, Him, Hiv, Hir. }
  eexists. split; [exact Hrun|]. split; [by eapply analyze_frame_safety_dom|].
  unfold categories.
  repeat apply Forall_cons_2; [..|apply Forall_nil_2].
  - exists a. split; [by simplify_map_eq|]. split; [exact Hna|].
    intros Hnone. change (adult safe_search = None) in Hnone.
    rewrite Hnone in Hna. by injection Hna.
  - exists s. split; [by simplify_map_eq|]. split; [exact Hns|].
    intros Hnone. change (spoof safe_search = None) in Hnone.
    rewrite Hnone in Hns. by injection Hns.
  - exists m. split; [by simplify_map_eq|]. split; [exact Hnm|].
    intros Hnone. change (medical safe_search = None) in Hnone.
    rewrite Hnone in Hnm. by injection Hnm.
  - exists v. split; [by simplify_map_eq|]. split; [exact Hnv|].
    intros Hnone. change (violence safe_search = None) in Hnone.
    rewrite Hnone in Hnv. by injection Hnv.
  - exists r. split; [by simplify_map_eq|]. split; [exact Hnr|].
    intros Hnone. change (racy safe_search = None) in Hnone.
    rewrite Hnone in Hnr. by injection Hnr.
Qed.

End Scorer.

(** C7, witness: a reply rating adult POSSIBLE and the rest
    VERY_UNLIKELY. *)
Lemma analyze_frame_safety_reply_witness :
  exists d,
    analyze_frame_safety (test_world 1 3 all_clear)
      (fun _ => inr (reply 3 1 1 1 1)) 0%nat = inr d /\
    dom d = list_to_set categories /\
    Forall (fun key =>
              exists name,
                d !! key = Some (VStr name) /\
                likelihood_names !! Z.to_nat (enum_value (field_of (reply 3 1 1 1 1) key))
                  = Some name /\
                (field_of (reply 3 1 1 1 1) key = None -> name = "UNKNOWN"))
           categories.
Proof.
  apply (analyze_frame_safety_reply (test_world 1 3 all_clear)
           (fun _ => inr (reply 3 1 1 1 1)) 0%nat [] (reply 3 1 1 1 1)).
  - reflexivity.
  - reflexivity.
  - repeat apply Forall_cons_2; [..|apply Forall_nil_2]; simpl; lia.
Defined.

(** C7, counterexample: a reply that leaves [racy] unset is scored
    without any error, and its [racy] entry is UNKNOWN. *)
Lemma analyze_frame_safety_missing_counterexample :
  racy reply_without_racy = None /\
  exists d,
    analyze_frame_safety (test_world 1 3 all_clear)
      (fun _ => inr reply_without_racy) 0%nat = inr d /\
    d !! "racy" = Some (VStr "UNKNOWN").
Proof. split; [reflexivity|]. eexists. split; reflexivity. Qed.

(** ** The frame loop *)

(** How the state updates act on the parts of the state. *)
Lemma entries_append_frame_result entry st :
  entries (append_frame_result entry st) = entries st ++ [entry].
Proof. reflexivity. Qed.

Lemma flags_append_frame_result entry st :
  flags (append_frame_result entry st) = flags st.
Proof. reflexivity. Qed.

Lemma maxes_append_frame_result entry st :
  maxes (append_frame_result entry st) = maxes st.
Proof. reflexivity. Qed.

Lemma entries_append_flagged rec st :
  entries (append_flagged rec st) = entries st.
Proof. reflexivity. Qed.

Lemma flags_append_flagged rec st :
  flags (append_flagged rec st) = flags st ++ [rec].
Proof. reflexivity. Qed.

Lemma maxes_append_flagged rec st :
  maxes (append_flagged rec st) = maxes st.
Proof. reflexivity. Qed.

Lemma entries_set_maxima m st : entries (set_maxima m st) = entries st.
Proof. reflexivity. Qed.

Lemma flags_set_maxima m st : flags (set_maxima m st) = flags st.
Proof. reflexivity. Qed.

Lemma maxes_set_maxima m st : maxes (set_maxima m st) = m.
Proof. reflexivity. Qed.

Lemma entries_record_call c st : entries (record_call c st) = entries st.
Proof. reflexivity. Qed.

Lemma flags_record_call c st : flags (record_call c st) = flags st.
Proof. reflexivity. Qed.

Lemma maxes_record_call c st : maxes (record_call c st) = maxes st.
Proof. reflexivity. Qed.

Lemma calls_append_frame_result entry st :
  calls (append_frame_result entry st) = calls st.
Proof. reflexivity. Qed.

Lemma calls_append_flagged rec st : calls (append_flagged rec st) = calls st.
Proof. reflexivity. Qed.

Lemma calls_set_maxima m st : calls (set_maxima m st) = calls st.
Proof. reflexivity. Qed.

Lemma calls_record_call c st : calls (record_call c st) = calls st ++ [c].
Proof. reflexivity. Qed.

Lemma set_maxima_set_maxima m m' st :
  set_maxima m' (set_maxima m st) = set_maxima m' st.
Proof. reflexivity. Qed.

Lemma set_max_set_maxima key v st :
  set_max key v st = set_maxima (<[key := v]> (maxes st)) st.
Proof. reflexivity. Qed.

Lemma set_maxima_maxes st : set_maxima (maxes st) st = st.
Proof. by destruct st as [[? ? ? ? ? [? ?]] ?]. Qed.

Create Rewrite HintDb state_parts.
#[local] Hint Rewrite
  entries_append_frame_result flags_append_frame_result maxes_append_frame_result
  entries_append_flagged flags_append_flagged maxes_append_flagged
  entries_set_maxima flags_set_maxima maxes_set_maxima
  entries_record_call flags_record_call maxes_record_call
  calls_append_frame_result calls_append_flagged calls_set_maxima
  calls_record_call : state_parts.

(** Closes a goal from [H : key ∈ categories] for a literal [key] that is
    not one of the five. *)
Ltac not_a_category H :=
  unfold categories in H;
  repeat (apply elem_of_cons in H as [H|H]; [discriminate H|]);
  by apply elem_of_nil in H.

(** Proves [key ∈ l] for a literal [key] of a literal list [l]. *)
Ltac in_list :=
  repeat (apply elem_of_cons; first [left; reflexivity | right]).

(** Proves [l ⊆ l'] for literal lists of strings. *)
Ltac sub_list :=
  let key := fresh "key" in
  let H := fresh "H" in
  intros key H;
  repeat (apply elem_of_cons in H as [->|H]; [in_list|]);
  by apply elem_of_nil in H.

(** The keys [max_<category>] are distinct for distinct categories. *)
Lemma max_key_inj (key key' : string) :
  "max_" +:+ key = "max_" +:+ key' -> key = key'.
Proof. intros H. by simplify_eq/=. Qed.

Lemma rank_valid d key name r :
  d !! key = Some (VStr name) -> likelihood_levels !! name = Some r ->
  rank d key = Some r.
Proof. unfold rank. by intros -> ->. Qed.

Lemma rank_stamped interval_seconds idx d key :
  key ∈ categories -> rank (stamped interval_seconds idx d) key = rank d key.
Proof.
  intros Hkey. unfold rank, stamped.
  rewrite !lookup_insert_ne; [done|..]; intros <-; not_a_category Hkey.
Qed.

Lemma level_rank d key r : rank d key = Some r -> level d key = inr r.
Proof.
  unfold rank, level, dict_get.
  destruct (d !! key) as [[name| |]|]; try discriminate.
  simpl. unfold dict_get. by intros ->.
Qed.

Lemma scores_rank d key :
  scores d -> key ∈ categories -> exists r, rank d key = Some r /\ 0 <= r <= 5.
Proof.
  intros Hd Hkey. unfold scores in Hd. rewrite Forall_forall in Hd.
  destruct (Hd key Hkey) as (name & r & Hname & Hr & Hrange).
  exists r. split; [by eapply rank_valid|done].
Qed.

Lemma maxima_ok_rank m key :
  maxima_ok m -> key ∈ categories ->
  exists r, rank m ("max_" +:+ key) = Some r /\ 1 <= r <= 5.
Proof.
  intros Hm Hkey. unfold maxima_ok in Hm. rewrite Forall_forall in Hm.
  destruct (Hm key Hkey) as (name & r & Hname & Hr & Hrange).
  exists r. split; [by eapply rank_valid|done].
Qed.

Section MaximaUpdate.

Variable d : gmap string pyval.
Hypothesis d_scores : scores d.

(** One pass of the body of the key loop: the stored name is replaced
    exactly when the frame's rank is strictly greater. *)
Lemma update_max_run key st r r0 :
  rank d key = Some r ->
  rank (maxes st) ("max_" +:+ key) = Some r0 ->
  update_max d key st = (set_maxima (raise_max d (maxes st) key) st, inr tt).
Proof.
  intros Hr Hr0.
  assert (Hname : exists name, d !! key = Some (VStr name)).
  { unfold rank in Hr. destruct (d !! key) as [[name| |]|]; try discriminate.
    by exists name. }
  destruct Hname as (name & Hname).
  unfold update_max, bind, lift, gets, modify, ret.
  rewrite (level_rank _ _ _ Hr).
  change (maxima (summary (results st))) with (maxes st).
  rewrite (level_rank _ _ _ Hr0).
  unfold raise_max. rewrite Hr, Hr0, Hname.
  destruct (r >? r0); [|by rewrite set_maxima_maxes].
  unfold dict_get. rewrite Hname. by rewrite set_max_set_maxima.
Qed.

(** The rank a category has after one pass for category [k]. *)
Lemma rank_raise_max k m r r0 key :
  rank d k = Some r ->
  rank m ("max_" +:+ k) = Some r0 ->
  rank (raise_max d m k) ("max_" +:+ key)
  = if decide (key = k) then Some (Z.max r0 r) else rank m ("max_" +:+ key).
Proof.
  intros Hr Hr0.
  assert (Hname : exists name, d !! k = Some (VStr name) /\
                               likelihood_levels !! name = Some r).
  { unfold rank in Hr. destruct (d !! k) as [[name| |]|]; try discriminate.
    by exists name. }
  destruct Hname as (name & Hname & Hlevel).
  unfold raise_max. rewrite Hr, Hr0, Hname.
  destruct (decide (key = k)) as [->|Hne].
  - destruct (Z.gtb_spec r r0).
    + unfold rank. rewrite lookup_insert_eq, Hlevel. f_equal. lia.
    + rewrite Hr0. f_equal. lia.
  - destruct (r >? r0); [|done].
    unfold rank. rewrite lookup_insert_ne; [done|].
    intros Heq. apply max_key_inj in Heq. congruence.
Qed.

Lemma maxima_ok_raise_max k m :
  k ∈ categories -> maxima_ok m -> maxima_ok (raise_max d m k).
Proof.
  intros Hk Hok.
  destruct (scores_rank d k d_scores Hk) as (r & Hr & Hrange).
  destruct (maxima_ok_rank _ k Hok Hk) as (r0 & Hr0 & Hrange0).
  assert (Hname : exists name, d !! k = Some (VStr name) /\
                               likelihood_levels !! name = Some r).
  { unfold rank in Hr. destruct (d !! k) as [[name| |]|]; try discriminate.
    by exists name. }
  destruct Hname as (name & Hname & Hlevel).
  unfold raise_max. rewrite Hr, Hr0, Hname.
  destruct (Z.gtb_spec r r0) as [Hgt|Hle]; [|done].
  unfold maxima_ok in *. rewrite Forall_forall in *. intros key Hkey.
  destruct (decide (key = k)) as [->|Hne].
  - exists name, r. rewrite lookup_insert_eq. repeat split; [done|lia..].
  - rewrite lookup_insert_ne
      by (intros Heq; apply max_key_inj in Heq; congruence).
    by apply Hok.
Qed.

(** The key loop over any categories [keys]: it only changes the maxima,
    keeps them well formed, and leaves each listed category at the
    greater of its old maximum and the frame's rank. *)
Lemma update_maxes_run keys : forall st,
  keys ⊆ categories ->
  maxima_ok (maxes st) ->
  let m := foldl (raise_max d) (maxes st) keys in
  for_each keys (update_max d) st = (set_maxima m st, inr tt) /\
  maxima_ok m /\
  forall key r0,
    key ∈ categories ->
    rank (maxes st) ("max_" +:+ key) = Some r0 ->
    (key ∈ keys -> forall r, rank d key = Some r ->
                   rank m ("max_" +:+ key) = Some (Z.max r0 r)) /\
    (key ∉ keys -> rank m ("max_" +:+ key) = Some r0).
Proof.
  induction keys as [|k keys IH]; intros st Hsub Hok.
  - simpl. unfold ret. rewrite set_maxima_maxes.
    split; [done|]. split; [done|]. intros key r0 _ Hr0. split; [|done].
    intros Hin. by apply elem_of_nil in Hin.
  - assert (Hk : k ∈ categories) by (apply Hsub; left).
    destruct (scores_rank d k d_scores Hk) as (r & Hr & Hrange).
    destruct (maxima_ok_rank _ k Hok Hk) as (r0 & Hr0 & Hrange0).
    pose proof (update_max_run k st r r0 Hr Hr0) as Hrun.
    set (m1 := raise_max d (maxes st) k) in *.
    assert (Hok1 : maxima_ok m1) by by apply maxima_ok_raise_max.
    destruct (IH (set_maxima m1 st)) as (Hloop & Hokm & Hranks).
    { intros x Hx. apply Hsub. by right. }
    { by rewrite maxes_set_maxima. }
    rewrite maxes_set_maxima in Hloop, Hokm, Hranks.
    simpl. fold m1. unfold bind at 1. rewrite Hrun, Hloop, set_maxima_set_maxima.
    split; [done|]. split; [done|].
    intros key q0 Hkey Hq0.
    pose proof (rank_raise_max k (maxes st) r r0 key Hr Hr0) as Hm1. fold m1 in Hm1.
    destruct (decide (key = k)) as [->|Hne].
    + assert (q0 = r0) as -> by congruence.
      destruct (Hranks k (Z.max r0 r) Hkey Hm1) as [Hin Hout].
      split; [|intros Hnot; exfalso; apply Hnot; left].
      intros _ q Hq. assert (q = r) as -> by congruence.
      destruct (decide (k ∈ keys)) as [Hmem|Hmem].
      * rewrite (Hin Hmem r Hr). f_equal. lia.
      * by apply Hout.
    + rewrite Hq0 in Hm1.
      destruct (Hranks key q0 Hkey Hm1) as [Hin Hout]. split.
      * intros Hmem q Hq. apply Hin; [|done].
        apply elem_of_cons in Hmem as [?|?]; [congruence|done].
      * intros Hnot. apply Hout. intros Hmem. apply Hnot. by right.
Qed.

End MaximaUpdate.

Lemma scores_stamped interval_seconds idx d :
  scores d -> scores (stamped interval_seconds idx d).
Proof.
  unfold scores. rewrite !Forall_forall. intros Hd key Hkey.
  destruct (Hd key Hkey) as (name & r & Hname & Hr).
  exists name, r. split; [|done]. unfold stamped.
  rewrite !lookup_insert_ne; [done|..]; intros <-; not_a_category Hkey.
Qed.

Lemma is_flagged_stamped interval_seconds idx d :
  is_flagged (stamped interval_seconds idx d) = is_flagged d.
Proof.
  unfold is_flagged, flag_keys. simpl.
  rewrite !rank_stamped; [done|..]; unfold categories; in_list.
Qed.

Lemma update_order_categories : update_order ⊆ categories.
Proof. unfold update_order, categories. sub_list. Qed.

Lemma categories_update_order : categories ⊆ update_order.
Proof. unfold update_order, categories. sub_list. Qed.

Section Step.

Context {Frame : Type}.
Variable w : World Frame.
Variable interval_seconds : float.
Variable save_flagged_frames : bool.
Variable output_dir : option string.

Abbreviation body := (process_frame w interval_seconds save_flagged_frames output_dir).
Abbreviation score := (fun idx frame => analyze_frame_safety w (safe_search_detection w idx) frame).

(** A frame whose scoring raises: the call is made, a marker is
    appended, nothing else changes, and the loop body ends normally. *)
Lemma process_frame_failed idx (frame : Frame) e st :
  score idx frame = inl e ->
  body idx frame st
  = (append_frame_result (error_marker w idx e)
       (record_call (CallAnalyzeFrame idx) st), inr tt).
Proof.
  intros He. unfold process_frame, try_except, score_frame, bind, modify, lift.
  by rewrite He.
Qed.

(** A frame that is scored: its stamped entry is appended, then the
    maxima are raised, then the flag check runs, then a flagged frame is
    saved; the loop body ends normally even if saving raises. *)
Lemma process_frame_scored idx (frame : Frame) d st :
  score idx frame = inr d ->
  maxima_ok (maxes st) ->
  let m := raise_maxima (stamped interval_seconds idx d) (maxes st) in
  body idx frame st
  = (save_step w save_flagged_frames output_dir idx frame d
       (flag_step interval_seconds idx d
          (set_maxima m
             (append_frame_result (stamped interval_seconds idx d)
                (record_call (CallAnalyzeFrame idx) st)))), inr tt) /\
  maxima_ok m /\
  forall key r0 r,
    key ∈ categories ->
    rank (maxes st) ("max_" +:+ key) = Some r0 ->
    rank d key = Some r ->
    rank m ("max_" +:+ key) = Some (Z.max r0 r).
Proof.
  intros Hd Hok.
  pose proof (analyze_frame_safety_scores w _ _ _ Hd) as Hscores.
  pose proof (scores_stamped interval_seconds idx d Hscores) as Hstamped.
  set (st1 := append_frame_result (stamped interval_seconds idx d)
                (record_call (CallAnalyzeFrame idx) st)).
  destruct (update_maxes_run _ Hstamped update_order st1 update_order_categories)
    as (Hloop & Hokm & Hranks); [done|].
  change (maxes st1) with (maxes st) in Hloop, Hokm, Hranks.
  fold (raise_maxima (stamped interval_seconds idx d) (maxes st)) in Hloop, Hokm, Hranks.
  split; [|split; [done|]].
  - assert (Hrank : forall key, key ∈ categories ->
              exists r, level (stamped interval_seconds idx d) key = inr r /\
                        rank d key = Some r).
    { intros key Hkey. destruct (scores_rank d key Hscores Hkey) as (r & Hr & _).
      exists r. split; [|done]. apply level_rank. by rewrite rank_stamped. }
    destruct (Hrank "adult") as (a & Hla & Ha); [unfold categories; in_list|].
    destruct (Hrank "violence") as (v & Hlv & Hv); [unfold categories; in_list|].
    destruct (Hrank "racy") as (r & Hlr & Hr); [unfold categories; in_list|].
    assert (Hflag : (a >=? 3) || (v >=? 3) || (r >=? 3) = is_flagged d).
    { unfold is_flagged, flag_keys. simpl. rewrite Ha, Hv, Hr.
      rewrite !Z.geb_leb. by rewrite orb_false_r, orb_assoc. }
    unfold process_frame, try_except, score_frame.
    unfold bind at 1. unfold modify at 1.
    unfold bind at 1. unfold lift at 1. rewrite Hd.
    unfold bind at 1. unfold modify at 1.
    change (<["timestamp_seconds" := VFloat (float_of_nat idx * interval_seconds)]>
              (<["frame_index" := VInt (Z.of_nat idx)]> d))
      with (stamped interval_seconds idx d).
    fold st1.
    unfold bind at 1.
    change ["adult"; "violence"; "medical"; "racy"; "spoof"] with update_order.
    rewrite Hloop.
    unfold bind at 1. unfold lift at 1. rewrite Hla.
    unfold bind at 1. unfold lift at 1. rewrite Hlv.
    unfold bind at 1. unfold lift at 1. rewrite Hlr.
    rewrite Hflag. unfold save_step, flag_step.
    destruct (is_flagged d); [|done].
    unfold bind at 1. unfold modify at 1. simpl andb.
    change {| frame_index := idx;
              timestamp_seconds := float_of_nat idx * interval_seconds;
              reasons := stamped interval_seconds idx d |}
      with (flag_record interval_seconds idx d).
    destruct (save_flagged_frames && truthy output_dir); [|done].
    unfold bind, modify, lift, ret. cbv zeta.
    by destruct (imwrite w _ frame).
  - intros key r0 r Hkey Hr0 Hr.
    destruct (Hranks key r0 Hkey Hr0) as [Hin _].
    apply Hin; [by apply categories_update_order|].
    by rewrite rank_stamped.
Qed.

End Step.

Section Loop.

Context {Frame : Type}.
Variable w : World Frame.
Variable interval_seconds : float.
Variable save_flagged_frames : bool.
Variable output_dir : option string.

Abbreviation step := (process_frame w interval_seconds save_flagged_frames output_dir).
Abbreviation loop := (loop_state w interval_seconds save_flagged_frames output_dir).
Abbreviation flag := (flag_step interval_seconds).
Abbreviation save := (save_step w save_flagged_frames output_dir).

Implicit Types (st : State) (x : nat * Frame) (frames : list (nat * Frame)).

(** The body of the frame loop never raises: whatever the [try] block
    raises is caught. *)
Lemma process_frame_returns idx (frame : Frame) st :
  (step idx frame st).2 = inr tt.
Proof.
  unfold process_frame, try_except.
  by destruct (score_frame _ _ _ _ _ _ st) as [st' [e|[]]].
Qed.

Lemma loop_state_nil st : loop [] st = st.
Proof. reflexivity. Qed.

Lemma loop_state_cons idx (frame : Frame) frames st :
  loop ((idx, frame) :: frames) st = loop frames (step idx frame st).1.
Proof.
  unfold loop_state, analyze_frames. simpl. unfold bind.
  pose proof (process_frame_returns idx frame st) as Hret.
  destruct (step idx frame st) as [st' r]. simpl in Hret. by subst r.
Qed.

Lemma loop_state_app frames frames' st :
  loop (frames ++ frames') st = loop frames' (loop frames st).
Proof.
  revert st. induction frames as [|[idx frame] frames IH]; intros st; [done|].
  simpl. by rewrite !loop_state_cons, IH.
Qed.

(** The frame loop never raises. *)
Lemma analyze_frames_returns frames st :
  analyze_frames w interval_seconds save_flagged_frames output_dir frames st
  = (loop frames st, inr tt).
Proof.
  revert st. induction frames as [|[idx frame] frames IH]; intros st; [done|].
  rewrite loop_state_cons, <- IH. unfold analyze_frames. simpl. unfold bind.
  pose proof (process_frame_returns idx frame st) as Hret.
  destruct (step idx frame st) as [st' r]. simpl in Hret. by subst r.
Qed.

(** The parts of the state after the flag check and after the saving of
    a flagged frame. *)
Lemma flags_flag_step idx d st :
  flags (flag idx d st)
  = flags st ++ (if is_flagged d then [flag_record interval_seconds idx d] else []).
Proof.
  unfold flag_step. destruct (is_flagged d); [done|]. by rewrite app_nil_r.
Qed.

Lemma entries_flag_step idx d st : entries (flag idx d st) = entries st.
Proof. unfold flag_step. by destruct (is_flagged d). Qed.

Lemma maxes_flag_step idx d st : maxes (flag idx d st) = maxes st.
Proof. unfold flag_step. by destruct (is_flagged d). Qed.

Lemma header_flag_step idx d st :
  header (results (flag idx d st)) = header (results st).
Proof. unfold flag_step. by destruct (is_flagged d). Qed.

Lemma flags_save_step idx (frame : Frame) d st :
  flags (save idx frame d st) = flags st.
Proof.
  unfold save_step. destruct (_ && _); [|done]. cbv zeta.
  by destruct (imwrite w _ frame).
Qed.

Lemma maxes_save_step idx (frame : Frame) d st :
  maxes (save idx frame d st) = maxes st.
Proof.
  unfold save_step. destruct (_ && _); [|done]. cbv zeta.
  by destruct (imwrite w _ frame).
Qed.

Lemma header_save_step idx (frame : Frame) d st :
  header (results (save idx frame d st)) = header (results st).
Proof.
  unfold save_step. destruct (_ && _); [|done]. cbv zeta.
  by destruct (imwrite w _ frame).
Qed.

Lemma entries_save_step idx (frame : Frame) d st :
  entries (save idx frame d st)
  = entries st ++
    match save_failure w save_flagged_frames output_dir (idx, frame) d with
    | Some e => [error_marker w idx e]
    | None => []
    end.
Proof.
  unfold save_step, save_failure. simpl.
  destruct (_ && _); [|by rewrite app_nil_r]. cbv zeta.
  destruct (imwrite w _ frame); [done|]. by rewrite app_nil_r.
Qed.

Lemma calls_flag_step idx d st : calls (flag idx d st) = calls st.
Proof. unfold flag_step. by destruct (is_flagged d). Qed.

Lemma calls_save_step idx (frame : Frame) d st :
  calls (save idx frame d st)
  = calls st ++
    (if is_flagged d && (save_flagged_frames && truthy output_dir) then
       [CallImwrite (os_path_join w (default "" output_dir)
                       ("flagged_frame_" +:+ format_04d idx +:+ ".jpg"))]
     else []).
Proof.
  unfold save_step. destruct (_ && _); [|by rewrite app_nil_r]. cbv zeta.
  by destruct (imwrite w _ frame).
Qed.

(** What one pass of the loop body does to each part of the state. *)
Lemma step_facts idx (frame : Frame) st :
  maxima_ok (maxes st) ->
  let st' := (step idx frame st).1 in
  maxima_ok (maxes st') /\
  flags st' = flags st ++ flags_of w interval_seconds (idx, frame) /\
  entries st'
  = entries st ++ entries_of w interval_seconds save_flagged_frames output_dir (idx, frame) /\
  maxes st' = maxima_after w interval_seconds (idx, frame) (maxes st) /\
  calls st' = calls st ++ calls_of w save_flagged_frames output_dir (idx, frame) /\
  header (results st') = header (results st) /\
  forall key r0,
    key ∈ categories ->
    rank (maxes st) ("max_" +:+ key) = Some r0 ->
    rank (maxes st') ("max_" +:+ key)
    = Some (Z.max r0 (greatest (scored_ranks w key [(idx, frame)]))).
Proof.
  intros Hok.
  unfold flags_of, entries_of, maxima_after, calls_of, scored_ranks, score_of. simpl.
  destruct (analyze_frame_safety w (safe_search_detection w idx) frame)
    as [e|d] eqn:Hscore.
  - rewrite (process_frame_failed w _ _ _ _ _ e st Hscore). simpl.
    autorewrite with state_parts. rewrite app_nil_r.
    repeat split; [done..|]. intros key r0 Hkey Hr0.
    destruct (maxima_ok_rank _ key Hok Hkey) as (q & Hq & Hrange).
    rewrite Hr0. f_equal. assert (q = r0) by congruence. lia.
  - destruct (process_frame_scored w interval_seconds save_flagged_frames
                output_dir idx frame d st Hscore Hok) as (Hrun & Hokm & Hranks).
    rewrite Hrun. simpl.
    rewrite maxes_save_step, maxes_flag_step, maxes_set_maxima.
    rewrite flags_save_step, flags_flag_step, entries_save_step, entries_flag_step.
    rewrite header_save_step, header_flag_step.
    rewrite calls_save_step, calls_flag_step.
    autorewrite with state_parts. rewrite <- !app_assoc.
    repeat split; [done..|]. intros key r0 Hkey Hr0.
    pose proof (analyze_frame_safety_scores w _ _ _ Hscore) as Hscores.
    destruct (scores_rank d key Hscores Hkey) as (r & Hr & Hrange).
    rewrite (Hranks key r0 r Hkey Hr0 Hr), Hr. simpl. f_equal. lia.
Qed.

End Loop.

(** The greatest rank of a list of ranks. *)
Lemma greatest_nonneg ranks : 0 <= greatest ranks.
Proof. induction ranks as [|r ranks IH]; simpl; lia. Qed.

Lemma greatest_app ranks ranks' :
  greatest (ranks ++ ranks') = Z.max (greatest ranks) (greatest ranks').
Proof.
  induction ranks as [|r ranks IH]; simpl.
  - pose proof (greatest_nonneg ranks'). lia.
  - rewrite IH. lia.
Qed.

Lemma greatest_upper ranks r : r ∈ ranks -> r <= greatest ranks.
Proof.
  induction ranks as [|q ranks IH]; intros Hr.
  - by apply elem_of_nil in Hr.
  - apply elem_of_cons in Hr as [->|Hr]; simpl; [lia|].
    specialize (IH Hr). lia.
Qed.

Lemma greatest_attained ranks :
  ranks <> [] -> Forall (fun r => 0 <= r) ranks -> greatest ranks ∈ ranks.
Proof.
  induction ranks as [|q ranks IH]; intros Hne Hpos; [done|].
  apply Forall_cons_1 in Hpos as [Hq Hpos]. simpl.
  destruct ranks as [|q' ranks].
  - simpl. replace (Z.max q 0) with q by lia. left.
  - destruct (Z.max_spec q (greatest (q' :: ranks))) as [[_ ->]|[_ ->]].
    + right. by apply IH.
    + left.
Qed.

(** Positions in [enumerate]. *)
Lemma enumerate_from_lookup {A : Type} (l : list A) start i :
  enumerate_from start l !! i = (fun x => ((start + i)%nat, x)) <$> l !! i.
Proof.
  revert start i. induction l as [|x l IH]; intros start i; [done|].
  destruct i as [|i]; simpl.
  - by rewrite Nat.add_0_r.
  - rewrite IH. by replace (S start + i)%nat with (start + S i)%nat by lia.
Qed.

Lemma enumerate_lookup {A : Type} (l : list A) i :
  enumerate l !! i = (fun x => (i, x)) <$> l !! i.
Proof. unfold enumerate. by rewrite enumerate_from_lookup. Qed.

Lemma elem_of_enumerate {A : Type} (l : list A) i x :
  (i, x) ∈ enumerate l <-> l !! i = Some x.
Proof.
  rewrite list_elem_of_lookup. split.
  - intros [j Hj]. rewrite enumerate_lookup in Hj.
    destruct (l !! j) as [y|] eqn:Hy; [|done]. simpl in Hj. by simplify_eq.
  - intros Hx. exists i. by rewrite enumerate_lookup, Hx.
Qed.

Lemma enumerate_from_length {A : Type} (l : list A) start :
  length (enumerate_from start l) = length l.
Proof. revert start. induction l as [|x l IH]; intros start; simpl; [done|]. by rewrite IH. Qed.

Lemma enumerate_from_take {A : Type} (l : list A) start n :
  take n (enumerate_from start l) = enumerate_from start (take n l).
Proof.
  revert start n. induction l as [|x l IH]; intros start n; [by destruct n|].
  destruct n as [|n]; simpl; [done|]. by rewrite IH.
Qed.

Lemma enumerate_take_S {A : Type} (l : list A) n x :
  l !! n = Some x ->
  enumerate (take (S n) l) = enumerate (take n l) ++ [(n, x)].
Proof.
  intros Hx. unfold enumerate. rewrite <- !enumerate_from_take.
  rewrite (take_S_r _ _ (n, x)); [done|].
  by rewrite enumerate_from_lookup, Hx.
Qed.

Section Run.

Context {Frame : Type}.
Variable w : World Frame.
Variable interval_seconds : float.
Variable save_flagged_frames : bool.
Variable output_dir : option string.

Abbreviation loop' := (loop_state w interval_seconds save_flagged_frames output_dir).
Abbreviation init := (initial_state w interval_seconds save_flagged_frames output_dir).

Implicit Types (st : State) (frames : list (nat * Frame)).

Lemma scored_ranks_app key frames frames' :
  scored_ranks w key (frames ++ frames')
  = scored_ranks w key frames ++ scored_ranks w key frames'.
Proof. unfold scored_ranks. apply omap_app. Qed.

(** What the frame loop does to each part of the state. *)
Lemma loop_facts frames : forall st,
  maxima_ok (maxes st) ->
  let st' := loop' frames st in
  maxima_ok (maxes st') /\
  flags st' = flags st ++ flat_map (flags_of w interval_seconds) frames /\
  entries st'
  = entries st ++
    flat_map (entries_of w interval_seconds save_flagged_frames output_dir) frames /\
  maxes st' = foldl (fun m x => maxima_after w interval_seconds x m) (maxes st) frames /\
  calls st' = calls st ++ flat_map (calls_of w save_flagged_frames output_dir) frames /\
  header (results st') = header (results st) /\
  forall key r0,
    key ∈ categories ->
    rank (maxes st) ("max_" +:+ key) = Some r0 ->
    rank (maxes st') ("max_" +:+ key)
    = Some (Z.max r0 (greatest (scored_ranks w key frames))).
Proof.
  induction frames as [|[idx frame] frames IH]; intros st Hok.
  - simpl. rewrite !app_nil_r. repeat split; [done..|].
    intros key r0 Hkey Hr0. change (loop' [] st) with st. rewrite Hr0. f_equal.
    destruct (maxima_ok_rank _ key Hok Hkey) as (q & Hq & Hrange).
    assert (q = r0) by congruence. simpl. lia.
  - intros st'. unfold st'. rewrite loop_state_cons.
    destruct (step_facts w interval_seconds save_flagged_frames output_dir
                idx frame st Hok)
      as (Hok1 & Hflags1 & Hentries1 & Hmaxes1 & Hcalls1 & Hheader1 & Hranks1).
    destruct (IH _ Hok1)
      as (Hok2 & Hflags2 & Hentries2 & Hmaxes2 & Hcalls2 & Hheader2 & Hranks2).
    split; [done|].
    split; [by rewrite Hflags2, Hflags1, <- app_assoc|].
    split; [by rewrite Hentries2, Hentries1, <- app_assoc|].
    split; [by rewrite Hmaxes2, Hmaxes1|].
    split; [by rewrite Hcalls2, Hcalls1, <- app_assoc|].
    split; [by rewrite Hheader2, Hheader1|].
    intros key r0 Hkey Hr0.
    rewrite (Hranks2 key _ Hkey (Hranks1 key r0 Hkey Hr0)).
    change ((idx, frame) :: frames) with ([(idx, frame)] ++ frames).
    rewrite scored_ranks_app, greatest_app. f_equal. lia.
Qed.

(** The state in which the loop starts: every maximum is VERY_UNLIKELY,
    of rank 1. *)
Lemma initial_maxima_ok video_path n : maxima_ok (maxes (init video_path n)).
Proof.
  unfold maxima_ok, categories.
  repeat apply Forall_cons_2; [..|apply Forall_nil_2];
    exists "VERY_UNLIKELY", 1; (split; [reflexivity|]); (split; [reflexivity|lia]).
Qed.

Lemma initial_rank video_path n key :
  key ∈ categories -> rank (maxes (init video_path n)) ("max_" +:+ key) = Some 1.
Proof.
  intros Hkey. unfold categories in Hkey.
  repeat (apply elem_of_cons in Hkey as [->|Hkey]; [reflexivity|]).
  by apply elem_of_nil in Hkey.
Qed.

(** [analyze_video] returns exactly when the path exists, the frames are
    extracted and the output directory, if wanted, is made; what it
    returns is the state the frame loop ends in. *)
Lemma analyze_video_inr video_path trace res :
  analyze_video w video_path interval_seconds save_flagged_frames output_dir
  = (trace, inr res) <->
  os_path_exists w video_path = true /\
  (save_flagged_frames && truthy output_dir = true ->
   os_makedirs w (default "" output_dir) = None) /\
  exists sampled : list Frame,
    extract_frames w video_path interval_seconds = inr sampled /\
    trace = calls (loop' (enumerate sampled) (init video_path (length sampled))) /\
    res = results
            (loop' (enumerate sampled) (init video_path (length sampled))).
Proof.
  unfold analyze_video.
  destruct (os_path_exists w video_path); simpl; [|split; [done|by intros [? _]]].
  destruct (extract_frames w video_path interval_seconds) as [e|frames];
    [split; [done|by intros (_ & _ & ? & ? & _)]|].
  fold (init video_path (length frames)).
  rewrite analyze_frames_returns.
  destruct (save_flagged_frames && truthy output_dir) eqn:Hwanted.
  - destruct (os_makedirs w (default "" output_dir)) as [e|] eqn:Hdir.
    + split; [done|]. intros (_ & Hnone & _). by specialize (Hnone eq_refl).
    + split.
      * intros [= <- <-]. split; [done|]. split; [done|]. by exists frames.
      * intros (_ & _ & frames' & [= <-] & -> & ->). done.
  - split.
    + intros [= <- <-]. split; [done|]. split; [done|]. by exists frames.
    + intros (_ & _ & frames' & [= <-] & -> & ->). done.
Qed.

End Run.

(** ** Properties of a run *)

Lemma is_flagged_iff d : is_flagged d = true <-> flag_predicate d.
Proof.
  unfold is_flagged, flag_predicate.
  rewrite existsb_exists, Exists_exists. split.
  - intros (key & Hin & Hkey). exists key. split; [by apply list_elem_of_In|].
    destruct (rank d key) as [r|]; [|done]. exists r. split; [done|].
    by apply Z.leb_le.
  - intros (key & Hin & r & Hr & Hle). exists key.
    split; [by apply list_elem_of_In|]. rewrite Hr. by apply Z.leb_le.
Qed.

Lemma elem_of_flat_map {A B : Type} (f : A -> list B) (l : list A) (y : B) :
  y ∈ flat_map f l <-> exists x, x ∈ l /\ y ∈ f x.
Proof.
  rewrite list_elem_of_In, in_flat_map. split.
  - intros (x & Hx & Hy). exists x. by rewrite !list_elem_of_In.
  - intros (x & Hx & Hy). exists x. by rewrite <- !list_elem_of_In.
Qed.

Section Claims.

Context {Frame : Type}.
Variable w : World Frame.

Implicit Types (sampled : list Frame) (res : Results).

(** The record a frame leaves in the flagged list is its own. *)
Lemma elem_of_flags_of interval_seconds (x : nat * Frame) rec :
  rec ∈ flags_of w interval_seconds x <->
  exists d, score_of w x = inr d /\ is_flagged d = true /\
            rec = flag_record interval_seconds x.1 d.
Proof.
  unfold flags_of. destruct (score_of w x) as [e|d].
  - split; [by intros ?%elem_of_nil|by intros (? & ? & _)].
  - destruct (is_flagged d) eqn:Hflag.
    + rewrite list_elem_of_singleton. split; [intros ->; by exists d|].
      by intros (d' & [= <-] & _ & ->).
    + split; [by intros ?%elem_of_nil|].
      intros (d' & [= <-] & ? & _). congruence.
Qed.

(** C1: a successfully scored frame is in the flagged list exactly when
    one of adult, violence, racy has rank 3 (POSSIBLE) or more in its own
    scores; its record carries these scores; and when the three ranks
    are below 3 the frame is not flagged, whatever medical and spoof
    are. *)
Theorem flagged_iff_own_scores video_path interval_seconds save_flagged_frames
    output_dir trace res sampled idx frame d :
  analyze_video w video_path interval_seconds save_flagged_frames output_dir
  = (trace, inr res) ->
  extract_frames w video_path interval_seconds = inr sampled ->
  sampled !! idx = Some frame ->
  analyze_frame_safety w (safe_search_detection w idx) frame = inr d ->
  ((exists rec, rec ∈ flagged_frames (summary res) /\ frame_index rec = idx)
   <-> flag_predicate d) /\
  (forall rec, rec ∈ flagged_frames (summary res) -> frame_index rec = idx ->
               rec = flag_record interval_seconds idx d) /\
  ((forall key r, key ∈ flag_keys -> rank d key = Some r -> r < 3) ->
   forall rec, rec ∈ flagged_frames (summary res) -> frame_index rec <> idx).
Proof.
  intros Hrun Hframes Hframe Hd.
  apply analyze_video_inr in Hrun as (_ & _ & sampled' & Hframes' & _ & ->).
  assert (sampled' = sampled) as -> by congruence.
  destruct (loop_facts w interval_seconds save_flagged_frames output_dir
              (enumerate sampled) _
              (initial_maxima_ok w interval_seconds save_flagged_frames
                 output_dir video_path (length sampled)))
    as (_ & Hflags & _).
  change (flagged_frames (summary (results ?st))) with (flags st).
  rewrite Hflags. simpl.
  assert (Hmem : forall rec,
            rec ∈ flat_map (flags_of w interval_seconds) (enumerate sampled) ->
            frame_index rec = idx ->
            is_flagged d = true /\ rec = flag_record interval_seconds idx d).
  { intros rec Hrec Hidx.
    apply elem_of_flat_map in Hrec as ([i f] & Hx & Hrec).
    apply elem_of_flags_of in Hrec as (d' & Hd' & Hflag & ->).
    simpl in Hidx. subst i. apply elem_of_enumerate in Hx.
    assert (f = frame) as -> by congruence.
    unfold score_of in Hd'. simpl in Hd'.
    assert (d' = d) as -> by congruence. done. }
  split; [|split].
  - rewrite <- is_flagged_iff. split.
    + intros (rec & Hrec & Hidx). by destruct (Hmem rec Hrec Hidx).
    + intros Hflag. exists (flag_record interval_seconds idx d).
      split; [|done]. apply elem_of_flat_map. exists (idx, frame).
      split; [by apply elem_of_enumerate|].
      apply elem_of_flags_of. by exists d.
  - intros rec Hrec Hidx. by destruct (Hmem rec Hrec Hidx).
  - intros Hlow rec Hrec Hidx.
    destruct (Hmem rec Hrec Hidx) as [Hflag _].
    apply is_flagged_iff in Hflag. unfold flag_predicate in Hflag.
    apply Exists_exists in Hflag as (key & Hkey & r & Hr & Hle).
    specialize (Hlow key r Hkey Hr). lia.
Qed.

End Claims.

Section RunningMaximum.

Context {Frame : Type}.
Variable w : World Frame.
Variable interval_seconds : float.
Variable save_flagged_frames : bool.
Variable output_dir : option string.

Abbreviation run_loop := (loop_state w interval_seconds save_flagged_frames output_dir).
Abbreviation start := (initial_state w interval_seconds save_flagged_frames output_dir).

(** The maxima after the first [n] sampled frames. *)
Lemma prefix_rank video_path (sampled : list Frame) n key :
  key ∈ categories ->
  rank (maxes (run_loop (enumerate (take n sampled)) (start video_path (length sampled))))
       ("max_" +:+ key)
  = Some (Z.max 1 (greatest (scored_ranks w key (enumerate (take n sampled))))).
Proof.
  intros Hkey.
  destruct (loop_facts w interval_seconds save_flagged_frames output_dir
              (enumerate (take n sampled)) _
              (initial_maxima_ok w interval_seconds save_flagged_frames
                 output_dir video_path (length sampled)))
    as (_ & _ & _ & _ & _ & _ & Hranks).
  apply Hranks; [done|]. by apply initial_rank.
Qed.

Lemma prefix_ranks_grow (sampled : list Frame) n key :
  greatest (scored_ranks w key (enumerate (take n sampled)))
  <= greatest (scored_ranks w key (enumerate (take (S n) sampled))).
Proof.
  destruct (sampled !! n) as [frame|] eqn:Hn.
  - rewrite (enumerate_take_S _ _ _ Hn), scored_ranks_app, greatest_app. lia.
  - apply lookup_ge_None in Hn. rewrite !take_ge by lia. lia.
Qed.

(** C2 (amended): after any prefix of the sampled frames, and for each
    of the five categories, the rank of the stored maximum is the greater
    of 1 (the initial VERY_UNLIKELY) and the greatest rank among the
    successfully scored frames of the prefix, ranks being those of the
    rank table; it does not decrease when the prefix grows by a frame;
    and for a scored frame the flag check and what follows it run on a
    state whose maxima already cover that frame. *)
Theorem running_maximum video_path (sampled : list Frame) n :
  let before := run_loop (enumerate (take n sampled)) (start video_path (length sampled)) in
  let after := run_loop (enumerate (take (S n) sampled)) (start video_path (length sampled)) in
  Forall (fun key =>
            exists r r',
              rank (maxes before) ("max_" +:+ key) = Some r /\
              rank (maxes after) ("max_" +:+ key) = Some r' /\
              r = Z.max 1 (greatest (scored_ranks w key (enumerate (take n sampled)))) /\
              r' = Z.max 1 (greatest (scored_ranks w key (enumerate (take (S n) sampled)))) /\
              r <= r')
         categories /\
  forall frame d,
    sampled !! n = Some frame ->
    analyze_frame_safety w (safe_search_detection w n) frame = inr d ->
    exists st,
      after = save_step w save_flagged_frames output_dir n frame d
                (flag_step interval_seconds n d st) /\
      Forall (fun key =>
                exists rd r,
                  rank d key = Some rd /\
                  rank (maxes st) ("max_" +:+ key) = Some r /\ rd <= r)
             categories.
Proof.
  intros before after. split.
  - rewrite Forall_forall. intros key Hkey. eexists _, _.
    split; [by apply prefix_rank|]. split; [by apply prefix_rank|].
    split; [done|]. split; [done|].
    pose proof (prefix_ranks_grow sampled n key). lia.
  - intros frame d Hn Hd.
    assert (Hok : maxima_ok (maxes before)).
    { by destruct (loop_facts w interval_seconds save_flagged_frames output_dir
                     (enumerate (take n sampled)) _
                     (initial_maxima_ok w interval_seconds save_flagged_frames
                        output_dir video_path (length sampled))) as [? _]. }
    destruct (process_frame_scored w interval_seconds save_flagged_frames
                output_dir n frame d before Hd Hok) as (Hrun & Hokm & Hranks).
    eexists. split.
    + unfold after. rewrite (enumerate_take_S _ _ _ Hn), loop_state_app.
      fold before. rewrite loop_state_cons, loop_state_nil, Hrun. reflexivity.
    + rewrite Forall_forall. intros key Hkey.
      pose proof (analyze_frame_safety_scores w _ _ _ Hd) as Hscores.
      destruct (scores_rank d key Hscores Hkey) as (rd & Hrd & _).
      destruct (maxima_ok_rank _ key Hok Hkey) as (r0 & Hr0 & _).
      exists rd, (Z.max r0 rd). split; [done|].
      rewrite maxes_set_maxima. split; [by apply Hranks|lia].
Qed.

End RunningMaximum.

Section PerFrameResults.

Context {Frame : Type}.
Variable w : World Frame.
Variable interval : float.
Variable save_flagged_frames : bool.
Variable output_dir : option string.

Abbreviation frame_loop := (loop_state w interval save_flagged_frames output_dir).
Abbreviation start_state := (initial_state w interval save_flagged_frames output_dir).
Abbreviation new_entries := (entries_of w interval save_flagged_frames output_dir).

Implicit Types (sampled : list Frame) (res : Results).

Lemma error_marker_shape idx e : error_entry (error_marker w idx e).
Proof.
  unfold error_entry, error_marker. split.
  - rewrite !dom_insert_L, dom_empty_L. simpl. set_solver.
  - exists idx, (str w e). by simplify_map_eq.
Qed.

Lemma stamped_shape idx (frame : Frame) d :
  analyze_frame_safety w (safe_search_detection w idx) frame = inr d ->
  scored_entry interval (stamped interval idx d).
Proof.
  intros Hd. unfold scored_entry. split; [|split].
  - unfold stamped. rewrite !dom_insert_L, (analyze_frame_safety_dom w _ _ _ Hd).
    unfold categories. simpl. set_solver.
  - apply scores_stamped. by eapply analyze_frame_safety_scores.
  - exists idx. unfold stamped. by simplify_map_eq.
Qed.

(** What a sampled frame appends is an entry for that frame, of one of
    the two shapes. *)
Lemma entries_of_shape (x : nat * Frame) entry :
  entry ∈ new_entries x ->
  entry !! "frame_index" = Some (VInt (Z.of_nat x.1)) /\
  (scored_entry interval entry \/ error_entry entry).
Proof.
  destruct x as [idx frame]. unfold entries_of, score_of. simpl.
  destruct (analyze_frame_safety w (safe_search_detection w idx) frame)
    as [e|d] eqn:Hd.
  - intros ->%list_elem_of_singleton. split; [by unfold error_marker; simplify_map_eq|].
    right. apply error_marker_shape.
  - intros [->|Hentry]%elem_of_cons.
    + split; [by unfold stamped; simplify_map_eq|]. left. by eapply stamped_shape.
    + destruct (save_failure _ _ _ _ _) as [e|]; [|by apply elem_of_nil in Hentry].
      apply list_elem_of_singleton in Hentry as ->.
      split; [by unfold error_marker; simplify_map_eq|].
      right. apply error_marker_shape.
Qed.

Lemma entries_of_first (x : nat * Frame) :
  exists entry rest,
    new_entries x = entry :: rest /\
    entry = match score_of w x with
            | inr d => stamped interval x.1 d
            | inl e => error_marker w x.1 e
            end.
Proof.
  unfold entries_of. destruct (score_of w x) as [e|d]; eexists _, _; by split.
Qed.

(** The entries, the flagged list and the header a completed run
    returns. *)
Lemma run_results video_path trace res sampled :
  analyze_video w video_path interval save_flagged_frames output_dir
  = (trace, inr res) ->
  extract_frames w video_path interval = inr sampled ->
  res = results (frame_loop (enumerate sampled) (start_state video_path (length sampled))) /\
  frame_results res = flat_map new_entries (enumerate sampled) /\
  flagged_frames (summary res) = flat_map (flags_of w interval) (enumerate sampled) /\
  trace = calls (start_state video_path (length sampled)) ++
          flat_map (calls_of w save_flagged_frames output_dir) (enumerate sampled) /\
  header res = (video_path, length sampled, interval, datetime_now w).
Proof.
  intros Hrun Hframes.
  apply analyze_video_inr in Hrun as (_ & _ & sampled' & Hframes' & -> & ->).
  assert (sampled' = sampled) as -> by congruence.
  destruct (loop_facts w interval save_flagged_frames output_dir
              (enumerate sampled) _
              (initial_maxima_ok w interval save_flagged_frames
                 output_dir video_path (length sampled)))
    as (_ & Hflags & Hentries & _ & Hcalls & Hheader & _).
  split; [done|]. split; [exact Hentries|]. split; [exact Hflags|].
  split; [exact Hcalls|]. by rewrite Hheader.
Qed.

(** C10: every entry of the per-frame results of a run is of one of two
    shapes: the five categories, each with a name of the rank table, and
    [frame_index] and [timestamp_seconds = frame_index * interval_seconds];
    or [frame_index] and [error] and nothing else.  A scored frame leaves
    an entry of the first shape and a frame whose scoring raised one of
    the second. *)
Theorem frame_results_shapes video_path trace res sampled :
  analyze_video w video_path interval save_flagged_frames output_dir
  = (trace, inr res) ->
  extract_frames w video_path interval = inr sampled ->
  interval_seconds res = interval /\
  Forall (fun entry => scored_entry (interval_seconds res) entry \/ error_entry entry)
         (frame_results res) /\
  forall idx frame,
    sampled !! idx = Some frame ->
    match analyze_frame_safety w (safe_search_detection w idx) frame with
    | inr d => stamped interval idx d ∈ frame_results res /\
               scored_entry interval (stamped interval idx d)
    | inl e => error_marker w idx e ∈ frame_results res /\
               error_entry (error_marker w idx e)
    end.
Proof.
  intros Hrun Hframes.
  destruct (run_results _ _ _ _ Hrun Hframes) as (_ & Hentries & _ & _ & Hheader).
  assert (Hinterval : interval_seconds res = interval).
  { unfold header in Hheader. by simplify_eq. }
  split; [done|]. rewrite Hinterval, Hentries. split.
  - rewrite Forall_forall. intros entry Hentry.
    apply elem_of_flat_map in Hentry as (x & _ & Hentry).
    by apply entries_of_shape in Hentry as [_ ?].
  - intros idx frame Hframe.
    apply elem_of_enumerate in Hframe.
    destruct (entries_of_first (idx, frame)) as (entry & rest & Hnew & Hfirst).
    assert (Hin : entry ∈ flat_map new_entries (enumerate sampled)).
    { apply elem_of_flat_map. exists (idx, frame). split; [done|].
      rewrite Hnew. left. }
    unfold score_of in Hfirst. simpl in Hfirst.
    destruct (analyze_frame_safety w (safe_search_detection w idx) frame)
      as [e|d] eqn:Hd; subst entry.
    + split; [done|]. apply error_marker_shape.
    + split; [done|]. by eapply stamped_shape.
Qed.

(** C5: when the scoring of sampled frame [k] raises, the run still
    returns a result dictionary; it counts all sampled frames; the marker
    of frame [k], its index with the description of the exception, is
    among the per-frame results; no flagged record is for frame [k];
    processing frame [k] appends the marker and leaves the summary as
    it was; the loop goes on with the frames after [k]; and every
    sampled frame has an entry. *)
Theorem error_containment video_path sampled k frame e :
  os_path_exists w video_path = true ->
  extract_frames w video_path interval = inr sampled ->
  (save_flagged_frames && truthy output_dir = true ->
   os_makedirs w (default "" output_dir) = None) ->
  sampled !! k = Some frame ->
  analyze_frame_safety w (safe_search_detection w k) frame = inl e ->
  exists trace res,
    analyze_video w video_path interval save_flagged_frames output_dir
    = (trace, inr res) /\
    total_frames_analyzed res = length sampled /\
    error_marker w k e ∈ frame_results res /\
    (forall rec, rec ∈ flagged_frames (summary res) -> frame_index rec <> k) /\
    (let before := frame_loop (enumerate (take k sampled))
                     (start_state video_path (length sampled)) in
     let after := frame_loop (enumerate (take (S k) sampled))
                    (start_state video_path (length sampled)) in
     summary (results after) = summary (results before) /\
     entries after = entries before ++ [error_marker w k e] /\
     res = results (frame_loop (drop (S k) (enumerate sampled)) after)) /\
    (forall j frame',
        sampled !! j = Some frame' ->
        exists entry, entry ∈ frame_results res /\
                      entry !! "frame_index" = Some (VInt (Z.of_nat j))).
Proof.
  intros Hexists Hframes Hdir Hk He.
  set (final := frame_loop (enumerate sampled) (start_state video_path (length sampled))).
  assert (Hrun : analyze_video w video_path interval save_flagged_frames output_dir
                 = (calls final, inr (results final))).
  { apply analyze_video_inr. split; [done|]. split; [done|]. by exists sampled. }
  exists (calls final), (results final). split; [exact Hrun|].
  destruct (run_results _ _ _ _ Hrun Hframes)
    as (_ & Hentries & Hflags & _ & Hheader).
  split; [unfold header in Hheader; by simplify_eq|].
  split; [|split; [|split]].
  - rewrite Hentries. apply elem_of_flat_map. exists (k, frame).
    split; [by apply elem_of_enumerate|].
    unfold entries_of, score_of. simpl. rewrite He. left.
  - intros rec Hrec Hidx. rewrite Hflags in Hrec.
    apply elem_of_flat_map in Hrec as ([i f] & Hx & Hrec).
    apply elem_of_flags_of in Hrec as (d & Hd & _ & ->).
    simpl in Hidx. subst i. apply elem_of_enumerate in Hx.
    assert (f = frame) as -> by congruence.
    unfold score_of in Hd. simpl in Hd. congruence.
  - intros before after.
    assert (Hafter : after = append_frame_result (error_marker w k e)
                               (record_call (CallAnalyzeFrame k) before)).
    { unfold after. rewrite (enumerate_take_S _ _ _ Hk), loop_state_app.
      fold before. rewrite loop_state_cons, loop_state_nil.
      by rewrite (process_frame_failed w _ _ _ _ _ e before He). }
    split; [by rewrite Hafter|]. split; [by rewrite Hafter|].
    unfold after, final. rewrite <- loop_state_app. f_equal. f_equal.
    unfold enumerate. by rewrite <- enumerate_from_take, take_drop.
  - intros j frame' Hj. apply elem_of_enumerate in Hj.
    destruct (entries_of_first (j, frame')) as (entry & rest & Hnew & _).
    assert (Hin : entry ∈ new_entries (j, frame')) by (rewrite Hnew; left).
    exists entry. split.
    + rewrite Hentries. apply elem_of_flat_map. by exists (j, frame').
    + by apply entries_of_shape in Hin as [? _].
Qed.

End PerFrameResults.

Section Outcome.

Context {Frame : Type}.
Variable w : World Frame.
Variable interval : float.
Variable save_flagged_frames : bool.
Variable output_dir : option string.

Abbreviation run := (fun video_path =>
  analyze_video w video_path interval save_flagged_frames output_dir).

(** Every call of [analyze_video] for a sampled frame is recorded in the
    trace of a completed run. *)
Lemma calls_of_analyze (x : nat * Frame) :
  CallAnalyzeFrame x.1 ∈ calls_of w save_flagged_frames output_dir x.
Proof. unfold calls_of. left. Qed.

(** C6: a path that does not exist makes the run raise
    [FileNotFoundError], and a video that cannot be opened makes it raise
    [ValueError]; in both cases no collaborator has been called, so no
    frame has been scored, and no result dictionary is returned.  Any
    run either raises, without having scored a frame and without a
    result dictionary, or returns a result dictionary that counts all
    the sampled frames, each of which was sent to scoring and has an
    entry. *)
Theorem source_unavailable_or_full_summary video_path :
  (os_path_exists w video_path = false ->
   run video_path
   = ([], inl (FileNotFoundError ("Video file not found: " +:+ video_path)))) /\
  (os_path_exists w video_path = true ->
   VideoCapture w video_path = None ->
   run video_path
   = ([], inl (ValueError ("Error opening video file: " +:+ video_path)))) /\
  ((exists trace e,
       run video_path = (trace, inl e) /\
       forall idx, CallAnalyzeFrame idx ∉ trace) \/
   (exists trace res (sampled : list Frame),
       run video_path = (trace, inr res) /\
       extract_frames w video_path interval = inr sampled /\
       total_frames_analyzed res = length sampled /\
       forall idx frame,
         sampled !! idx = Some frame ->
         CallAnalyzeFrame idx ∈ trace /\
         exists entry, entry ∈ frame_results res /\
                       entry !! "frame_index" = Some (VInt (Z.of_nat idx)))).
Proof.
  split; [|split].
  - intros Hmissing. unfold analyze_video. by rewrite Hmissing.
  - intros Hexists Hclosed. unfold analyze_video, extract_frames.
    by rewrite Hexists, Hclosed.
  - destruct (run video_path) as [trace [e|res]] eqn:Hrun.
    + left. exists trace, e. split; [done|]. intros idx.
      unfold analyze_video in Hrun.
      destruct (os_path_exists w video_path); simpl in Hrun;
        [|injection Hrun as <- _; by apply not_elem_of_nil].
      destruct (extract_frames w video_path interval) as [e'|sampled];
        [injection Hrun as <- _; by apply not_elem_of_nil|].
      rewrite analyze_frames_returns in Hrun.
      destruct (save_flagged_frames && truthy output_dir); [|done].
      destruct (os_makedirs w (default "" output_dir)); [|done].
      injection Hrun as <- _. intros Hin.
      apply list_elem_of_singleton in Hin. discriminate.
    + right.
      pose proof Hrun as Hinv.
      apply analyze_video_inr in Hinv as (_ & _ & sampled & Hframes & _ & _).
      exists trace, res, sampled. split; [done|]. split; [done|].
      destruct (run_results w interval save_flagged_frames output_dir
                  _ _ _ _ Hrun Hframes)
        as (_ & Hentries & _ & Hcalls & Hheader).
      split; [unfold header in Hheader; by simplify_eq|].
      intros idx frame Hframe. apply elem_of_enumerate in Hframe. split.
      * rewrite Hcalls. apply elem_of_app. right.
        apply elem_of_flat_map. exists (idx, frame). split; [done|].
        apply (calls_of_analyze (idx, frame)).
      * destruct (entries_of_first w interval save_flagged_frames output_dir
                    (idx, frame)) as (entry & rest & Hnew & _).
        assert (Hin : entry ∈ entries_of w interval save_flagged_frames
                                 output_dir (idx, frame)) by (rewrite Hnew; left).
        exists entry. split.
        -- rewrite Hentries. apply elem_of_flat_map. by exists (idx, frame).
        -- by apply entries_of_shape in Hin as [? _].
Qed.

End Outcome.

Section Rerun.

Context {Frame : Type}.
Variable w : World Frame.
Variable interval : float.
Variable save_flagged_frames : bool.
Variable output_dir : option string.






End Rerun.
(** ** The exit status *)

Section Main.

Context {Frame : Type}.
Variable w : World Frame.
Variable format_1f : float -> string.
Variable print : string -> option exn.

Abbreviation status := (fun args => (main w format_1f print args).2).

(** [main] exits with 0 or 1. *)
Lemma main_status args : status args = 0 \/ status args = 1.
Proof.
  unfold main.
  destruct (ImageAnnotatorClient w _); [by right|].
  destruct (analyze_video w _ _ _ _) as [trace [e|res]]; [by right|].
  cbv zeta.
  destruct (if truthy (Args.json_output args) then _ else _); [by right|].
  destruct (generate_report w format_1f res _) as [e|report]; [by right|].
  destruct (print _); [by right|]. simpl.
  destruct (flagged_frames (summary res)); [by left|by right].
Qed.

(** A run whose analysis fails exits with 1, the status of a flagged
    run. *)
Lemma main_failed_run args trace e :
  analyze_video w (Args.video_path args) (Args.interval args)
    (Args.save_flagged args) (Some (Args.output_dir args)) = (trace, inl e) ->
  status args = 1.
Proof.
  intros Hrun. unfold main. rewrite Hrun.
  by destruct (ImageAnnotatorClient w _).
Qed.

(** A run whose report cannot be printed exits with 1 as well, whether
    or not a frame was flagged. *)
Lemma main_print_raises args trace res report e :
  analyze_video w (Args.video_path args) (Args.interval args)
    (Args.save_flagged args) (Some (Args.output_dir args)) = (trace, inr res) ->
  generate_report w format_1f res (Args.report_output args) = inr report ->
  print (newline +:+ report) = Some e ->
  status args = 1.
Proof.
  intros Hrun Hreport Hprint. unfold main. rewrite Hrun.
  destruct (ImageAnnotatorClient w _); [done|]. cbv zeta.
  destruct (if truthy (Args.json_output args) then _ else _); [done|].
  by rewrite Hreport, Hprint.
Qed.

(** C9: a run that completes (the client is created, the analysis
    returns, the JSON file, where asked for, is written, and the report
    is generated, written where asked for, and printed) exits with
    status 0 exactly when the flagged list is empty and with status 1
    exactly when it holds a frame. *)
Theorem exit_status_of_completed_run args trace res report :
  ImageAnnotatorClient w (Args.credentials args) = None ->
  analyze_video w (Args.video_path args) (Args.interval args)
    (Args.save_flagged args) (Some (Args.output_dir args)) = (trace, inr res) ->
  (truthy (Args.json_output args) = true ->
   json_dump w (default "" (Args.json_output args)) res = None) ->
  generate_report w format_1f res (Args.report_output args) = inr report ->
  print (newline +:+ report) = None ->
  ((main w format_1f print args).2 = 0 <-> flagged_frames (summary res) = []) /\
  ((main w format_1f print args).2 = 1 <-> flagged_frames (summary res) <> []).
Proof.
  intros Hclient Hrun Hjson Hreport Hprint.
  unfold main. rewrite Hclient, Hrun. cbv zeta.
  destruct (truthy (Args.json_output args));
    [rewrite (Hjson eq_refl)|];
    rewrite Hreport, Hprint; simpl;
    destruct (flagged_frames (summary res)); split; split; done.
Qed.

End Main.

(** ** The properties on concrete runs *)

(** A run that returns, returns its dictionary. *)
Lemma returns_results (run : list Call * (exn + Results)) :
  returns run = true -> run = (run.1, inr (results_of run)).
Proof.
  unfold returns, results_of. destruct run as [trace [e|res]]; [discriminate|done].
Qed.

Lemma sample_run_returns : sample_run = (sample_run.1, inr sample_results).
Proof. apply returns_results. vm_compute. reflexivity. Qed.

Lemma sample_scores_scored idx :
  match analyze_frame_safety sample_world (safe_search_detection sample_world idx) idx with
  | inr _ => true
  | inl _ => false
  end = true ->
  analyze_frame_safety sample_world (safe_search_detection sample_world idx) idx
  = inr (sample_scores idx).
Proof. unfold sample_scores. by destruct (analyze_frame_safety _ _ _). Qed.

(** C1, witness: frame 2 of the sample run, rated adult POSSIBLE. *)
Lemma flagged_iff_own_scores_witness :
  ((exists rec, rec ∈ flagged_frames (summary sample_results) /\ frame_index rec = 2%nat)
   <-> flag_predicate (sample_scores 2)) /\
  (forall rec, rec ∈ flagged_frames (summary sample_results) -> frame_index rec = 2%nat ->
               rec = flag_record 1 2 (sample_scores 2)) /\
  ((forall key r, key ∈ flag_keys -> rank (sample_scores 2) key = Some r -> r < 3) ->
   forall rec, rec ∈ flagged_frames (summary sample_results) -> frame_index rec <> 2%nat).
Proof.
  apply (flagged_iff_own_scores sample_world "agv.mp4" 1 false None
           sample_run.1 sample_results (seq 0 6) 2%nat 2%nat (sample_scores 2)).
  - exact sample_run_returns.
  - vm_compute. reflexivity.
  - reflexivity.
  - apply sample_scores_scored. vm_compute. reflexivity.
Defined.

(** C2, counterexample: one frame rated UNKNOWN (rank 0) in every
    category.  The greatest rank among the scored frames is 0, yet the
    stored maximum for adult is VERY_UNLIKELY, of rank 1. *)
Lemma running_maximum_floor_counterexample :
  unknown_run = (unknown_run.1, inr (results_of unknown_run)) /\
  map (fun entry => rank entry "adult") (frame_results (results_of unknown_run))
  = [Some 0] /\
  greatest (scored_ranks unknown_world "adult" (enumerate [0%nat])) = 0 /\
  maxima (summary (results_of unknown_run)) !! "max_adult" = Some (VStr "VERY_UNLIKELY") /\
  rank (maxima (summary (results_of unknown_run))) "max_adult" = Some 1.
Proof.
  split; [apply returns_results; vm_compute; reflexivity|].
  vm_compute. repeat split; reflexivity.
Qed.

(** The order of the maxima is that of the rank table and not that of
    the strings: after a frame rated LIKELY and one rated POSSIBLE the
    maximum is LIKELY, which comes first in the order of strings. *)
Example maximum_follows_rank_table :
  String.ltb "LIKELY" "POSSIBLE" = true /\
  maxima (summary (results_of
            (analyze_video (test_world 1 2 likely_then_possible) "agv.mp4" 1 false None)))
    !! "max_adult" = Some (VStr "LIKELY").
Proof. vm_compute. split; reflexivity. Qed.

(** C5, witness: the request for frame 3 of the sample run fails. *)
Lemma error_containment_witness :
  exists trace res,
    sample_run = (trace, inr res) /\
    total_frames_analyzed res = length (seq 0 6) /\
    error_marker sample_world 3 (ExternalError "503 Service Unavailable")
      ∈ frame_results res /\
    (forall rec, rec ∈ flagged_frames (summary res) -> frame_index rec <> 3%nat) /\
    (let before := loop_state sample_world 1 false None (enumerate (take 3 (seq 0 6)))
                     (initial_state sample_world 1 false None "agv.mp4" (length (seq 0 6))) in
     let after := loop_state sample_world 1 false None (enumerate (take 4 (seq 0 6)))
                    (initial_state sample_world 1 false None "agv.mp4" (length (seq 0 6))) in
     summary (results after) = summary (results before) /\
     entries after
     = entries before ++
       [error_marker sample_world 3 (ExternalError "503 Service Unavailable")] /\
     res = results (loop_state sample_world 1 false None
                      (drop 4 (enumerate (seq 0 6))) after)) /\
    (forall j frame',
        seq 0 6 !! j = Some frame' ->
        exists entry, entry ∈ frame_results res /\
                      entry !! "frame_index" = Some (VInt (Z.of_nat j))).
Proof.
  apply (error_containment sample_world 1 false None "agv.mp4" (seq 0 6) 3%nat 3%nat
           (ExternalError "503 Service Unavailable")).
  - reflexivity.
  - vm_compute. reflexivity.
  - discriminate.
  - reflexivity.
  - vm_compute. reflexivity.
Defined.

(** C10, witness: the per-frame results of the sample run. *)
Lemma frame_results_shapes_witness :
  interval_seconds sample_results = 1%float /\
  Forall (fun entry => scored_entry (interval_seconds sample_results) entry \/
                       error_entry entry)
         (frame_results sample_results) /\
  forall idx frame,
    seq 0 6 !! idx = Some frame ->
    match analyze_frame_safety sample_world (safe_search_detection sample_world idx) frame with
    | inr d => stamped 1 idx d ∈ frame_results sample_results /\
               scored_entry 1 (stamped 1 idx d)
    | inl e => error_marker sample_world idx e ∈ frame_results sample_results /\
               error_entry (error_marker sample_world idx e)
    end.
Proof.
  apply (frame_results_shapes sample_world 1 false None "agv.mp4"
           sample_run.1 sample_results (seq 0 6)).
  - exact sample_run_returns.
  - vm_compute. reflexivity.
Defined.


(** C9, witness: the sample run has a flagged frame and exits with 1. *)
Lemma exit_status_of_completed_run_witness :
  ((main sample_world sample_format sample_print sample_args).2 = 0
   <-> flagged_frames (summary (results_of sample_main_run)) = []) /\
  ((main sample_world sample_format sample_print sample_args).2 = 1
   <-> flagged_frames (summary (results_of sample_main_run)) <> []).
Proof.
  apply (exit_status_of_completed_run sample_world sample_format sample_print
           sample_args sample_main_run.1 (results_of sample_main_run)
           (join newline
              (match report_lines sample_world sample_format
                       (results_of sample_main_run) with
               | inr lines => lines
               | inl _ => []
               end))).
  - reflexivity.
  - apply (returns_results sample_main_run). vm_compute. reflexivity.
  - reflexivity.
  - vm_compute. reflexivity.
  - reflexivity.
Defined.

Example sample_run_exit_status :
  (main sample_world sample_format sample_print sample_args).2 = 1.
Proof. vm_compute. reflexivity. Qed.

(** A clean run whose report cannot be printed: on a standard output
    that encodes ASCII only, the run made while the service is down
    flags nothing, prints nothing and exits with 1. *)
Example clean_run_ascii_stdout :
  flagged_frames (summary (results_of outage_run)) = [] /\
  main outage_world sample_format sample_print outage_args
  = (outputs_of outage_args outage_run.1
       (newline +:+ join newline
          (match report_lines outage_world sample_format (results_of outage_run) with
           | inr lines => lines
           | inl _ => []
           end)), 0) /\
  main outage_world sample_format ascii_print outage_args
  = (OutCall <$> outage_run.1, 1).
Proof. vm_compute. repeat split; reflexivity. Qed.

(** ** More on frame sampling *)

(** Multiplication commutes with a change of sign of the right factor,
    on the specification of binary64. *)
Lemma SF64mul_opp_r (x y : spec_float) :
  SF64mul x (SFopp y) = SFopp (SF64mul x y).
Proof.
  destruct x as [sx|sx| |sx mx ex], y as [sy|sy| |sy my ey]; simpl;
    try reflexivity; try (by destruct sx, sy).
  unfold binary_round_aux.
  destruct (shr_fexp _ _ _ _ _) as [mrs' e'].
  destruct (shr_fexp _ _ _ _ _) as [mrs'' e''].
  destruct (shr_m mrs'') as [|m|m]; [| |reflexivity].
  - by destruct sx, sy.
  - destruct (e'' <=? _); by destruct sx, sy.
Qed.

(** [int(-x) = -int(x)], and both raise alike. *)
Lemma int_of_float_opp (x : float) :
  int_of_float (- x)%float
  = match int_of_float x with
    | inr z => inr (- z)
    | inl e => inl e
    end.
Proof.
  unfold int_of_float. rewrite opp_spec.
  destruct (Prim2SF x) as [s|s| |s m e]; simpl; try reflexivity.
  f_equal. destruct s; simpl; lia.
Qed.

Lemma mod_opp_zero (c n : Z) : (c mod - n =? 0) = (c mod n =? 0).
Proof.
  destruct (decide (n = 0)) as [->|Hn]; [reflexivity|].
  apply eq_iff_eq_true. rewrite !Z.eqb_eq.
  rewrite !Z.mod_divide by lia. apply Z.divide_opp_l.
Qed.

(** A float is NaN, or infinite, exactly when its specification is. *)
Lemma is_nan_spec (x : float) : is_nan x = true <-> Prim2SF x = S754_nan.
Proof.
  unfold is_nan. rewrite FloatAxioms.eqb_spec.
  destruct (Prim2SF x) as [s|s| |s m e]; unfold SFeqb; simpl.
  - split; discriminate.
  - destruct s; split; discriminate.
  - split; reflexivity.
  - rewrite Z.compare_refl, Pos.compare_cont_refl.
    destruct s; split; discriminate.
Qed.

Lemma is_infinity_spec (x : float) :
  is_infinity x = true <-> exists s, Prim2SF x = S754_infinity s.
Proof.
  unfold is_infinity. rewrite FloatAxioms.eqb_spec, abs_spec.
  change (Prim2SF infinity) with (S754_infinity false).
  destruct (Prim2SF x) as [s|s| |s m e]; unfold SFeqb; simpl.
  - split; [discriminate|]. by intros [? ?].
  - split; eauto.
  - split; [discriminate|]. by intros [? ?].
  - split; [discriminate|]. by intros [? ?].
Qed.

(** [int(x)] returns exactly on the finite floats. *)
Lemma int_of_float_returns (x : float) :
  (exists z, int_of_float x = inr z) <-> is_nan x = false /\ is_infinity x = false.
Proof.
  rewrite <- !not_true_iff_false, is_nan_spec, is_infinity_spec.
  unfold int_of_float.
  destruct (Prim2SF x) as [s|s| |s m e].
  - split; [|by eauto]. intros _. split; [discriminate|]. by intros [? ?].
  - split; [by intros [? ?]|]. intros [_ H]. destruct H. eauto.
  - split; [by intros [? ?]|]. by intros [H _].
  - split; [|by eauto]. intros _. split; [discriminate|]. by intros [? ?].
Qed.

Section Sampling.

Context {Frame : Type}.
Variable w : World Frame.

Implicit Types (cap frames : list Frame) (n c : Z).

(** The read loop with the sign of the stride changed. *)
Lemma read_frames_opp n cap : forall c frames,
  read_frames (- n) cap c frames = read_frames n cap c frames.
Proof.
  induction cap as [|frame cap IH]; intros c frames; [reflexivity|].
  simpl. unfold py_mod.
  replace (- n =? 0) with (n =? 0)
    by (apply eq_iff_eq_true; rewrite !Z.eqb_eq; lia).
  destruct (n =? 0); [reflexivity|].
  rewrite mod_opp_zero. apply IH.
Qed.

(** What the read loop adds to [frames] is a sublist of the capture
    that starts with its first frame when the count is at a multiple of
    the stride. *)
Lemma read_frames_sublist n cap : forall c frames out,
  read_frames n cap c frames = inr out ->
  exists picked,
    out = frames ++ picked /\ sublist picked cap /\
    (cap = [] -> picked = []) /\
    (c mod n = 0 -> head picked = head cap).
Proof.
  induction cap as [|frame cap IH]; intros c frames out; simpl.
  - intros [= <-]. exists []. by rewrite app_nil_r.
  - unfold py_mod. destruct (n =? 0) eqn:Hn; [discriminate|].
    intros H. apply IH in H as (picked & -> & Hsub & _ & _).
    destruct (c mod n =? 0) eqn:Hc.
    + exists (frame :: picked). rewrite <- app_assoc. simpl.
      split_and!; [done|by constructor|done|done].
    + exists picked. split_and!; [done|by constructor|done|].
      apply Z.eqb_neq in Hc. by intros ?.
Qed.

(** The read loop raises only on a stride of 0 with a frame to read. *)
Lemma read_frames_returns n cap : forall c frames,
  n <> 0 \/ cap = [] -> exists out, read_frames n cap c frames = inr out.
Proof.
  induction cap as [|frame cap IH]; intros c frames Hn; simpl; [by eauto|].
  destruct Hn as [Hn|?]; [|done].
  unfold py_mod. apply Z.eqb_neq in Hn as Hn'. rewrite Hn'.
  apply IH. by left.
Qed.

(** X2: a negative interval samples the frames its absolute value samples,
    and fails where it fails: the sign of the stride plays no part in
    [frame_count % frame_interval == 0]. *)
Theorem extract_frames_negative_interval video_path (interval_seconds : float) :
  extract_frames w video_path (- interval_seconds)%float
  = extract_frames w video_path interval_seconds.
Proof.
  unfold extract_frames.
  destruct (VideoCapture w video_path) as [[fps cap]|]; [|reflexivity].
  assert (Hopp : int_of_float (fps * - interval_seconds)%float
                 = match int_of_float (fps * interval_seconds)%float with
                   | inr z => inr (- z)
                   | inl e => inl e
                   end).
  { rewrite <- int_of_float_opp. unfold int_of_float.
    by rewrite opp_spec, !mul_spec, opp_spec, SF64mul_opp_r. }
  rewrite Hopp.
  destruct (int_of_float (fps * interval_seconds)) as [e|n]; [reflexivity|].
  apply read_frames_opp.
Qed.

(** X1: [extract_frames] returns exactly when the capture opens, the product
    of frame rate and interval is a finite float, and its truncation is
    not 0 unless the video has no frame; what it returns is then a
    sublist of the video's frames, in order, that starts with the
    video's first frame and is empty only for a video without frames. *)
Theorem extract_frames_returns_iff video_path (interval_seconds : float) :
  ((exists frames, extract_frames w video_path interval_seconds = inr frames) <->
   exists fps cap,
     VideoCapture w video_path = Some (fps, cap) /\
     is_nan (fps * interval_seconds) = false /\
     is_infinity (fps * interval_seconds) = false /\
     (int_of_float (fps * interval_seconds) <> inr 0 \/ cap = [])) /\
  forall fps cap frames,
    VideoCapture w video_path = Some (fps, cap) ->
    extract_frames w video_path interval_seconds = inr frames ->
    sublist frames cap /\ head frames = head cap /\ (frames = [] <-> cap = []).
Proof.
  unfold extract_frames. split.
  - split.
    + intros [frames H].
      destruct (VideoCapture w video_path) as [[fps cap]|]; [|discriminate].
      exists fps, cap. split; [done|].
      destruct (int_of_float (fps * interval_seconds)) as [e|n] eqn:Hint;
        [discriminate|].
      destruct (proj1 (int_of_float_returns _) (ex_intro _ n Hint)) as [? ?].
      split_and!; [done..|].
      destruct cap as [|frame cap]; [by right|left].
      intros [= ->]. discriminate H.
    + intros (fps & cap & -> & Hnan & Hinf & Hn).
      destruct (proj2 (int_of_float_returns _) (conj Hnan Hinf)) as [n Hint].
      rewrite Hint. apply read_frames_returns.
      destruct Hn as [Hn|Hn]; [left|by right].
      intros ->. by apply Hn.
  - intros fps cap frames -> H.
    destruct (int_of_float (fps * interval_seconds)) as [e|n]; [discriminate|].
    apply read_frames_sublist in H as (picked & -> & Hsub & Hnil & Hhead).
    specialize (Hhead (Zmod_0_l n)). simpl.
    split_and!; [done|done|]. split; [|by auto].
    intros ->. destruct cap; [done|discriminate Hhead].
Qed.

(** X3: a product of frame rate and interval that is NaN makes
    [extract_frames] raise the [ValueError] of [int], and one that is
    infinite its [OverflowError], before a frame is read. *)
Theorem extract_frames_not_finite video_path (interval_seconds : float) fps cap :
  VideoCapture w video_path = Some (fps, cap) ->
  (is_nan (fps * interval_seconds) = true ->
   extract_frames w video_path interval_seconds
   = inl (ValueError "cannot convert float NaN to integer")) /\
  (is_infinity (fps * interval_seconds) = true ->
   extract_frames w video_path interval_seconds
   = inl (OverflowError "cannot convert float infinity to integer")).
Proof.
  intros Hcap. unfold extract_frames, int_of_float. rewrite Hcap. split.
  - intros H. apply is_nan_spec in H. by rewrite H.
  - intros H. apply is_infinity_spec in H as [s H]. by rewrite H.
Qed.

End Sampling.

(** ** More on the scoring of a frame *)

(** Indexing the name table: a value from -6 to 5 finds a name, a
    negative one counting from the end of the table, and any other
    value raises. *)
Lemma py_index_names_cases (z : Z) :
  (-6 <= z <= 5 /\
   exists name, py_index likelihood_names z = inr name /\
                likelihood_names !! Z.to_nat (z mod 6) = Some name) \/
  ((z < -6 \/ 5 < z) /\
   py_index likelihood_names z = inl (IndexError "list index out of range")).
Proof.
  destruct (decide (-6 <= z <= 5)) as [Hz|Hz].
  - left. split; [done|].
    assert (Hc : z = -6 \/ z = -5 \/ z = -4 \/ z = -3 \/ z = -2 \/ z = -1 \/
                 z = 0 \/ z = 1 \/ z = 2 \/ z = 3 \/ z = 4 \/ z = 5) by lia.
    repeat (destruct Hc as [->|Hc]; [eexists; split; reflexivity|]).
    subst z. eexists; split; reflexivity.
  - right. split; [lia|].
    unfold py_index. cbv zeta.
    change (Z.of_nat (length likelihood_names)) with 6.
    destruct (z <? 0) eqn:Hneg.
    + apply Z.ltb_lt in Hneg.
      replace (0 <=? z + 6) with false by (symmetry; apply Z.leb_gt; lia).
      reflexivity.
    + apply Z.ltb_ge in Hneg.
      replace (z <? 6) with false by (symmetry; apply Z.ltb_ge; lia).
      by rewrite andb_false_r.
Qed.

Section Scoring.

Context {Frame : Type}.
Variable w : World Frame.

(** X4: for a frame that is encoded and answered, [analyze_frame_safety]
    returns exactly when each of the five values of the reply lies
    between -6 and 5: it then names each category from the table, a
    negative value counting from the end of the table, and otherwise
    raises the [IndexError] of the list access. *)
Theorem analyze_frame_safety_index_range client (frame : Frame) image safe_search :
  imencode w frame = inr image ->
  client image = inr safe_search ->
  (Forall (fun key => -6 <= enum_value (field_of safe_search key) <= 5) categories ->
   exists d,
     analyze_frame_safety w client frame = inr d /\
     Forall (fun key =>
               exists name,
                 d !! key = Some (VStr name) /\
                 likelihood_names !! Z.to_nat (enum_value (field_of safe_search key) mod 6)
                 = Some name)
            categories) /\
  (Exists (fun key => enum_value (field_of safe_search key) < -6 \/
                      5 < enum_value (field_of safe_search key)) categories ->
   analyze_frame_safety w client frame
   = inl (IndexError "list index out of range")).
Proof.
  intros Himage Hreply. unfold analyze_frame_safety. rewrite Himage, Hreply.
  assert (HF :
    Forall (fun key => -6 <= enum_value (field_of safe_search key) <= 5) categories <->
    -6 <= enum_value (adult safe_search) <= 5 /\
    -6 <= enum_value (spoof safe_search) <= 5 /\
    -6 <= enum_value (medical safe_search) <= 5 /\
    -6 <= enum_value (violence safe_search) <= 5 /\
    -6 <= enum_value (racy safe_search) <= 5).
  { unfold categories. rewrite !Forall_cons, Forall_nil. unfold field_of. simpl. tauto. }
  assert (HE :
    Exists (fun key => enum_value (field_of safe_search key) < -6 \/
                       5 < enum_value (field_of safe_search key)) categories ->
    ~ (-6 <= enum_value (adult safe_search) <= 5 /\
       -6 <= enum_value (spoof safe_search) <= 5 /\
       -6 <= enum_value (medical safe_search) <= 5 /\
       -6 <= enum_value (violence safe_search) <= 5 /\
       -6 <= enum_value (racy safe_search) <= 5)).
  { unfold categories. rewrite !Exists_cons, Exists_nil. unfold field_of. simpl. lia. }
  destruct (py_index_names_cases (enum_value (adult safe_search)))
    as [[Ha (a & Ea & Ha')]|[Ha Ea]]; rewrite Ea; lazy beta iota;
  [destruct (py_index_names_cases (enum_value (spoof safe_search)))
    as [[Hs (s & Es & Hs')]|[Hs Es]]; rewrite Es; lazy beta iota;
  [destruct (py_index_names_cases (enum_value (medical safe_search)))
    as [[Hm (m & Em & Hm')]|[Hm Em]]; rewrite Em; lazy beta iota;
  [destruct (py_index_names_cases (enum_value (violence safe_search)))
    as [[Hv (v & Ev & Hv')]|[Hv Ev]]; rewrite Ev; lazy beta iota;
  [destruct (py_index_names_cases (enum_value (racy safe_search)))
    as [[Hr (r & Er & Hr')]|[Hr Er]]; rewrite Er; lazy beta iota|]|]|]|].
  all: split;
    [ intros Hall; apply HF in Hall; try (exfalso; lia)
    | intros Hex; apply HE in Hex; try reflexivity; exfalso; lia ].
  eexists. split; [reflexivity|].
  unfold categories, field_of. simpl.
  repeat apply Forall_cons_2; [..|apply Forall_nil_2];
    eexists; (split; [by simplify_map_eq|]); assumption.
Qed.

End Scoring.

(** ** More on the analysis of a video *)

Lemma greatest_reaches (ranks : list Z) (bound : Z) :
  0 < bound -> (bound <= greatest ranks <-> Exists (fun r => bound <= r) ranks).
Proof.
  intros Hbound. unfold greatest.
  induction ranks as [|r ranks IH]; simpl.
  - rewrite Exists_nil. lia.
  - rewrite Exists_cons, <- IH. lia.
Qed.

Lemma filter_flat_map {A B : Type} (p : B -> bool) (f : A -> list B) (l : list A) :
  List.filter p (flat_map f l) = flat_map (fun x => List.filter p (f x)) l.
Proof.
  induction l as [|x l IH]; simpl; [reflexivity|].
  by rewrite List.filter_app, IH.
Qed.

Section Runs.

Context {Frame : Type}.
Variable w : World Frame.
Variable interval : float.
Variable save_flagged_frames : bool.
Variable output_dir : option string.

Abbreviation analysis := (fun video_path =>
  analyze_video w video_path interval save_flagged_frames output_dir).
Abbreviation wanted := (save_flagged_frames && truthy output_dir).
Abbreviation dir := (default "" output_dir).
Abbreviation entries_for := (entries_of w interval save_flagged_frames output_dir).
Abbreviation flags_for := (flags_of w interval).
Abbreviation calls_for := (calls_of w save_flagged_frames output_dir).

Implicit Types (sampled : list Frame) (res : Results) (x : nat * Frame).

(** The parts of what a completed run returns, over the frames it
    sampled. *)
Lemma completed_run video_path trace res :
  analysis video_path = (trace, inr res) ->
  exists sampled,
    extract_frames w video_path interval = inr sampled /\
    total_frames_analyzed res = length sampled /\
    frame_results res = flat_map entries_for (enumerate sampled) /\
    flagged_frames (summary res) = flat_map flags_for (enumerate sampled) /\
    trace = (if wanted then [CallMakedirs dir] else []) ++
            flat_map calls_for (enumerate sampled) /\
    maxima (summary res)
    = foldl (fun m x => maxima_after w interval x m)
        (maxima (summary (initial_results w video_path (length sampled) interval)))
        (enumerate sampled) /\
    forall key,
      key ∈ categories ->
      rank (maxima (summary res)) ("max_" +:+ key)
      = Some (Z.max 1 (greatest (scored_ranks w key (enumerate sampled)))).
Proof.
  intros Hrun.
  apply analyze_video_inr in Hrun as (_ & _ & sampled & Hframes & -> & ->).
  exists sampled. split; [done|].
  destruct (loop_facts w interval save_flagged_frames output_dir
              (enumerate sampled) _
              (initial_maxima_ok w interval save_flagged_frames
                 output_dir video_path (length sampled)))
    as (_ & Hflags & Hentries & Hmaxes & Hcalls & Hheader & Hrank).
  split; [unfold header in Hheader; by simplify_eq|].
  split; [exact Hentries|]. split; [exact Hflags|]. split; [exact Hcalls|].
  split; [exact Hmaxes|].
  intros key Hkey. apply Hrank; [done|]. by apply initial_rank.
Qed.

Lemma flags_of_cases x :
  (flags_for x = [] /\
   forall d, score_of w x = inr d -> is_flagged d = false) \/
  (exists d, score_of w x = inr d /\ is_flagged d = true /\
             flags_for x = [flag_record interval x.1 d]).
Proof.
  unfold flags_of. destruct (score_of w x) as [e|d]; [left; by split|].
  destruct (is_flagged d) eqn:Hflag.
  - right. by exists d.
  - left. split; [done|]. by intros ? [= <-].
Qed.

(** The flagged records of the frames from position [start] on: their
    indexes lie in the range of the frames and grow along the list. *)
Lemma flagged_indices (l : list Frame) : forall start,
  let flagged := flat_map flags_for (enumerate_from start l) in
  Forall (fun rec => (start <= frame_index rec < start + length l)%nat) flagged /\
  (length flagged <= length l)%nat /\
  forall i j ri rj,
    flagged !! i = Some ri -> flagged !! j = Some rj -> (i < j)%nat ->
    (frame_index ri < frame_index rj)%nat.
Proof.
  induction l as [|frame l IH]; intros start; simpl.
  - split; [by constructor|]. split; [done|]. intros i j ri rj Hi. done.
  - destruct (IH (S start)) as (Hrange & Hlen & Hgrow).
    assert (Hrange' : Forall
              (fun rec => (start < frame_index rec < start + S (length l))%nat)
              (flat_map flags_for (enumerate_from (S start) l))).
    { eapply Forall_impl; [exact Hrange|]. simpl. intros rec. lia. }
    destruct (flags_of_cases (start, frame)) as [[-> _]|(d & _ & _ & ->)]; simpl.
    + split; [|split; [lia|exact Hgrow]].
      eapply Forall_impl; [exact Hrange'|]. simpl. intros rec. lia.
    + split; [|split; [lia|]].
      * constructor; [simpl; lia|].
        eapply Forall_impl; [exact Hrange'|]. simpl. intros rec. lia.
      * intros [|i] [|j] ri rj Hi Hj Hij; simpl in Hi, Hj; [lia| |lia|].
        -- injection Hi as <-. simpl.
           rewrite Forall_forall in Hrange'.
           apply list_elem_of_lookup_2 in Hj. apply Hrange' in Hj. lia.
        -- apply (Hgrow i j); [done|done|lia].
Qed.

(** X7: the flagged frames of a completed run are listed in the order of
    their frame indexes, which grow strictly along the list and stay
    below the number of frames analyzed: no frame is flagged twice, and
    there are at most as many flagged frames as frames. *)
Theorem flagged_frames_ordered video_path trace res :
  analyze_video w video_path interval save_flagged_frames output_dir
  = (trace, inr res) ->
  Forall (fun rec => (frame_index rec < total_frames_analyzed res)%nat)
         (flagged_frames (summary res)) /\
  (length (flagged_frames (summary res)) <= total_frames_analyzed res)%nat /\
  forall i j ri rj,
    flagged_frames (summary res) !! i = Some ri ->
    flagged_frames (summary res) !! j = Some rj ->
    (i < j)%nat ->
    (frame_index ri < frame_index rj)%nat.
Proof.
  intros Hrun.
  apply completed_run in Hrun as (sampled & _ & -> & _ & -> & _).
  destruct (flagged_indices sampled 0) as (Hrange & Hlen & Hgrow).
  split; [|split; [exact Hlen|exact Hgrow]].
  eapply Forall_impl; [exact Hrange|]. simpl. intros rec. lia.
Qed.

(** A scored frame is flagged exactly when one of the three keys of the
    flag check has a rank of 3 or more. *)
Lemma is_flagged_ranks d :
  is_flagged d = true <->
  exists key r, key ∈ flag_keys /\ rank d key = Some r /\ 3 <= r.
Proof.
  rewrite is_flagged_iff. unfold flag_predicate. rewrite Exists_exists. split.
  - intros (key & Hkey & r & Hr & Hle). by exists key, r.
  - intros (key & r & Hkey & Hr & Hle). exists key. split; [done|by exists r].
Qed.

Lemma flag_keys_categories key : key ∈ flag_keys -> key ∈ categories.
Proof.
  unfold flag_keys, categories. intros H.
  repeat (apply elem_of_cons in H as [->|H]; [in_list|]).
  by apply elem_of_nil in H.
Qed.

(** X8: the summary agrees with the flagged list: a completed run has
    flagged a frame exactly when the maximum it reports for adult,
    violence or racy has rank 3 (POSSIBLE) or more. *)
Theorem flagged_iff_maximum video_path trace res :
  analyze_video w video_path interval save_flagged_frames output_dir
  = (trace, inr res) ->
  flagged_frames (summary res) <> [] <->
  exists key r,
    key ∈ flag_keys /\
    rank (maxima (summary res)) ("max_" +:+ key) = Some r /\ 3 <= r.
Proof.
  intros Hrun.
  apply completed_run in Hrun
    as (sampled & _ & _ & _ & Hflags & _ & _ & Hrank).
  rewrite Hflags. split.
  - intros Hne.
    destruct (flat_map flags_for (enumerate sampled)) as [|rec rest] eqn:Hlist;
      [done|].
    assert (Hin : rec ∈ flat_map flags_for (enumerate sampled))
      by (rewrite Hlist; left).
    apply elem_of_flat_map in Hin as (x & Hx & Hrec).
    apply elem_of_flags_of in Hrec as (d & Hd & Hflag & _).
    apply is_flagged_ranks in Hflag as (key & r & Hkey & Hr & Hle).
    exists key, (Z.max 1 (greatest (scored_ranks w key (enumerate sampled)))).
    split; [done|]. split; [by apply Hrank, flag_keys_categories|].
    assert (3 <= greatest (scored_ranks w key (enumerate sampled))); [|lia].
    apply greatest_reaches; [lia|]. apply Exists_exists. exists r.
    split; [|done].
    unfold scored_ranks. apply list_elem_of_omap. exists x.
    split; [done|]. by rewrite Hd.
  - intros (key & r & Hkey & Hr & Hle).
    rewrite Hrank in Hr by by apply flag_keys_categories.
    injection Hr as <-.
    assert (Hg : 3 <= greatest (scored_ranks w key (enumerate sampled))) by lia.
    apply greatest_reaches in Hg; [|lia].
    apply Exists_exists in Hg as (r & Hin & Hr).
    unfold scored_ranks in Hin.
    apply list_elem_of_omap in Hin as (x & Hx & Hscore).
    destruct (score_of w x) as [e|d] eqn:Hd; [discriminate|].
    assert (Hflag : is_flagged d = true)
      by (apply is_flagged_ranks; by exists key, r).
    assert (Hin : flag_record interval x.1 d ∈ flat_map flags_for (enumerate sampled)).
    { apply elem_of_flat_map. exists x. split; [done|].
      apply elem_of_flags_of. by exists d. }
    intros Hnil. rewrite Hnil in Hin. by apply elem_of_nil in Hin.
Qed.

(** A sampled frame leaves one entry, its scores or its error marker,
    and a second one, an error marker, when it was flagged and saving it
    failed. *)
Lemma entries_of_cases x :
  (exists entry,
     entries_for x = [entry] /\
     entry !! "frame_index" = Some (VInt (Z.of_nat x.1))) \/
  (exists d e,
     score_of w x = inr d /\ is_flagged d = true /\ wanted = true /\
     imwrite w (os_path_join w dir (frame_filename x.1)) x.2 = Some e /\
     entries_for x = [stamped interval x.1 d; error_marker w x.1 e]).
Proof.
  unfold entries_of, save_failure.
  destruct (score_of w x) as [e|d] eqn:Hd.
  - left. eexists. split; [reflexivity|]. unfold error_marker. by simplify_map_eq.
  - destruct (is_flagged d) eqn:Hflag; simpl.
    + destruct wanted eqn:Hwanted; simpl.
      * fold (frame_filename x.1).
        destruct (imwrite w _ x.2) as [e|] eqn:Hsave.
        -- right. by exists d, e.
        -- left. eexists. split; [reflexivity|]. unfold stamped. by simplify_map_eq.
      * left. eexists. split; [reflexivity|]. unfold stamped. by simplify_map_eq.
    + left. eexists. split; [reflexivity|]. unfold stamped. by simplify_map_eq.
Qed.

Lemma entries_count (l : list (nat * Frame)) :
  (length l
   <= length (flat_map entries_for l)
   <= length l + length (flat_map flags_for l))%nat.
Proof.
  induction l as [|x l IH]; simpl; [lia|].
  rewrite !length_app.
  destruct (entries_of_cases x)
    as [(entry & -> & _)|(d & e & Hd & Hflag & _ & _ & ->)]; simpl; [lia|].
  assert (flags_for x = [flag_record interval x.1 d]) as ->
    by (unfold flags_of; by rewrite Hd, Hflag).
  simpl. lia.
Qed.

Lemma entries_count_more (l : list (nat * Frame)) x :
  x ∈ l -> length (entries_for x) = 2%nat ->
  (length l < length (flat_map entries_for l))%nat.
Proof.
  intros Hin Htwo.
  apply list_elem_of_split in Hin as (l1 & l2 & ->).
  rewrite flat_map_app, !length_app. simpl. rewrite length_app, Htwo.
  pose proof (entries_count l1). pose proof (entries_count l2). lia.
Qed.

Lemma entries_unsaved (l : list Frame) : forall start k entry,
  wanted = false ->
  length (flat_map entries_for (enumerate_from start l)) = length l /\
  (flat_map entries_for (enumerate_from start l) !! k = Some entry ->
   entry !! "frame_index" = Some (VInt (Z.of_nat (start + k)))).
Proof.
  induction l as [|frame l IH]; intros start k entry Hoff; simpl; [done|].
  destruct (IH (S start) (pred k) entry Hoff) as [Hlen Hlookup].
  destruct (entries_of_cases (start, frame))
    as [(first & -> & Hfirst)|(d & e & _ & _ & Hon & _)]; [|congruence].
  simpl. split; [by rewrite Hlen|].
  destruct k as [|k]; simpl.
  - intros [= <-]. by rewrite Nat.add_0_r.
  - intros H. apply Hlookup in H. by replace (start + S k)%nat with (S start + k)%nat by lia.
Qed.

(** X10: the per-frame results of a completed run hold at least one entry
    for each frame analyzed and at most one more for each flagged frame.
    When flagged frames are not saved there is exactly one entry for
    each frame, and the entry at position [k] is that of frame [k]. *)
Theorem frame_results_per_frame video_path trace res :
  analyze_video w video_path interval save_flagged_frames output_dir
  = (trace, inr res) ->
  (total_frames_analyzed res
   <= length (frame_results res)
   <= total_frames_analyzed res + length (flagged_frames (summary res)))%nat /\
  (save_flagged_frames && truthy output_dir = false ->
   length (frame_results res) = total_frames_analyzed res /\
   forall k entry,
     frame_results res !! k = Some entry ->
     entry !! "frame_index" = Some (VInt (Z.of_nat k))).
Proof.
  intros Hrun.
  apply completed_run in Hrun as (sampled & _ & -> & -> & -> & _).
  split.
  { pose proof (entries_count (enumerate sampled)) as H.
    unfold enumerate in *. by rewrite enumerate_from_length in H. }
  intros Hoff. split; [by apply (entries_unsaved sampled 0 0%nat ∅)|].
  intros k entry. by apply (entries_unsaved sampled 0 k entry).
Qed.

(** X11: a flagged frame whose saving fails stays scored and flagged: the
    run returns, the frame's scores and an error marker for the same
    frame are both among the per-frame results, its record is in the
    flagged list, and the results hold more entries than frames were
    analyzed. *)
Theorem failed_save_keeps_frame video_path trace res sampled k frame d e :
  analyze_video w video_path interval save_flagged_frames output_dir
  = (trace, inr res) ->
  extract_frames w video_path interval = inr sampled ->
  sampled !! k = Some frame ->
  analyze_frame_safety w (safe_search_detection w k) frame = inr d ->
  is_flagged d = true ->
  save_flagged_frames && truthy output_dir = true ->
  imwrite w (os_path_join w (default "" output_dir) (frame_filename k)) frame
  = Some e ->
  stamped interval k d ∈ frame_results res /\
  error_marker w k e ∈ frame_results res /\
  flag_record interval k d ∈ flagged_frames (summary res) /\
  (total_frames_analyzed res < length (frame_results res))%nat.
Proof.
  intros Hrun Hframes Hk Hd Hflag Hon Hsave.
  apply completed_run in Hrun as (sampled' & Hframes' & Htotal & -> & -> & _).
  assert (sampled' = sampled) as -> by congruence.
  apply elem_of_enumerate in Hk as Hx.
  assert (Hentries : entries_for (k, frame) = [stamped interval k d; error_marker w k e]).
  { unfold entries_of, save_failure, score_of. simpl.
    rewrite Hd, Hflag, Hon. simpl. fold (frame_filename k). by rewrite Hsave. }
  assert (Hflags : flags_for (k, frame) = [flag_record interval k d]).
  { unfold flags_of, score_of. simpl. by rewrite Hd, Hflag. }
  split_and!.
  - apply elem_of_flat_map. exists (k, frame). split; [done|].
    rewrite Hentries. left.
  - apply elem_of_flat_map. exists (k, frame). split; [done|].
    rewrite Hentries. right. left.
  - apply elem_of_flat_map. exists (k, frame). split; [done|].
    rewrite Hflags. left.
  - pose proof (entries_count_more _ (k, frame) Hx) as H.
    rewrite Hentries in H. specialize (H eq_refl).
    unfold enumerate in *. rewrite enumerate_from_length in H. by rewrite Htotal.
Qed.

(** The path of the file a flagged record is saved to. *)
Abbreviation saved_as := (fun rec : FlagRecord =>
  CallImwrite (os_path_join w dir (frame_filename (frame_index rec)))).

Lemma calls_of_kinds x :
  List.filter is_analyze (calls_for x) = [CallAnalyzeFrame x.1] /\
  List.filter is_makedirs (calls_for x) = [] /\
  List.filter is_imwrite (calls_for x)
  = if wanted then saved_as <$> flags_for x else [].
Proof.
  unfold calls_of, flags_of.
  destruct (score_of w x) as [e|d]; simpl; [by destruct wanted|].
  destruct (is_flagged d); simpl; [|by destruct wanted].
  by destruct wanted.
Qed.

Lemma calls_by_kind (l : list Frame) : forall start,
  let trace := flat_map calls_for (enumerate_from start l) in
  List.filter is_analyze trace = CallAnalyzeFrame <$> seq start (length l) /\
  List.filter is_makedirs trace = [] /\
  List.filter is_imwrite trace
  = if wanted then saved_as <$> flat_map flags_for (enumerate_from start l) else [].
Proof.
  induction l as [|frame l IH]; intros start;
    cbn [enumerate_from flat_map length seq fmap list_fmap].
  - by destruct wanted.
  - destruct (IH (S start)) as (Ha & Hm & Hw).
    destruct (calls_of_kinds (start, frame)) as (Ha' & Hm' & Hw').
    rewrite !List.filter_app, Ha, Hm, Hw, Ha', Hm', Hw'.
    split; [done|]. split; [done|].
    destruct wanted; [|done]. by rewrite fmap_app.
Qed.

(** X12: the calls of a completed run, by kind: [analyze_frame_safety]
    is called once for each sampled frame, in order; the output
    directory is made once, before anything else, when flagged frames
    are to be saved, and never otherwise; and a file is written exactly
    for each flagged frame, in order, under [flagged_frame_<index>.jpg]
    in the output directory, when flagged frames are to be saved, and
    never otherwise. *)
Theorem calls_of_run video_path trace res :
  analyze_video w video_path interval save_flagged_frames output_dir
  = (trace, inr res) ->
  List.filter is_analyze trace
  = CallAnalyzeFrame <$> seq 0 (total_frames_analyzed res) /\
  List.filter is_makedirs trace
  = (if save_flagged_frames && truthy output_dir
     then [CallMakedirs (default "" output_dir)] else []) /\
  List.filter is_imwrite trace
  = (if save_flagged_frames && truthy output_dir
     then (fun rec => CallImwrite (os_path_join w (default "" output_dir)
                                     (frame_filename (frame_index rec))))
          <$> flagged_frames (summary res)
     else []) /\
  (save_flagged_frames && truthy output_dir = true ->
   head trace = Some (CallMakedirs (default "" output_dir))).
Proof.
  intros Hrun.
  apply completed_run in Hrun as (sampled & _ & -> & _ & -> & -> & _).
  destruct (calls_by_kind sampled 0) as (Ha & Hm & Hw).
  unfold enumerate. rewrite !List.filter_app, Ha, Hm, Hw.
  destruct wanted; simpl; by rewrite ?app_nil_r.
Qed.

(** X5: [analyze_video] returns exactly when the path exists, the frames are
    extracted and the output directory, where one is wanted, is made: no
    failure of the encoder, of the service or of the writing of a frame
    makes it raise.  When it raises, the exception is its own
    [FileNotFoundError], or the one [extract_frames] or [os.makedirs]
    raised, and no frame has been sent to the service. *)
Theorem analyze_video_returns_iff video_path :
  ((exists trace res,
       analyze_video w video_path interval save_flagged_frames output_dir
       = (trace, inr res)) <->
   os_path_exists w video_path = true /\
   (exists sampled, extract_frames w video_path interval = inr sampled) /\
   (save_flagged_frames && truthy output_dir = true ->
    os_makedirs w (default "" output_dir) = None)) /\
  forall trace e,
    analyze_video w video_path interval save_flagged_frames output_dir
    = (trace, inl e) ->
    (os_path_exists w video_path = false /\ trace = [] /\
     e = FileNotFoundError ("Video file not found: " +:+ video_path)) \/
    (os_path_exists w video_path = true /\ trace = [] /\
     extract_frames w video_path interval = inl e) \/
    (os_path_exists w video_path = true /\
     trace = [CallMakedirs (default "" output_dir)] /\
     save_flagged_frames && truthy output_dir = true /\
     os_makedirs w (default "" output_dir) = Some e).
Proof.
  split.
  - split.
    + intros (trace & res & Hrun).
      apply analyze_video_inr in Hrun as (Hpath & Hdir & sampled & Hframes & _).
      split; [done|]. split; [by exists sampled|done].
    + intros (Hpath & [sampled Hframes] & Hdir).
      eexists _, _. apply analyze_video_inr.
      split; [done|]. split; [done|]. exists sampled. by split.
  - intros trace e. unfold analyze_video.
    destruct (os_path_exists w video_path); simpl;
      [|intros [= <- <-]; left; by split].
    destruct (extract_frames w video_path interval) as [e'|sampled];
      [intros [= <- <-]; right; left; by split|].
    rewrite analyze_frames_returns.
    destruct wanted; [|done].
    destruct (os_makedirs w dir) as [e'|]; [|done].
    intros [= <- <-]. right. right. by split.
Qed.

(** Frames whose scoring fails flag nothing, leave the maxima as they
    are, and leave one error marker each. *)
Lemma failed_frames_parts (l : list (nat * Frame)) :
  (forall x, x ∈ l -> exists e, score_of w x = inl e) ->
  flat_map flags_for l = [] /\
  (forall m, foldl (fun m x => maxima_after w interval x m) m l = m) /\
  length (flat_map entries_for l) = length l /\
  Forall error_entry (flat_map entries_for l).
Proof.
  induction l as [|x l IH]; intros Hl.
  - split; [done|]. split; [done|]. split; [done|constructor].
  - destruct (Hl x) as [e He]; [left|].
    destruct IH as (Hf & Hm & Hlen & Hshape);
      [intros y Hy; apply Hl; by right|].
    assert (Hfx : flags_for x = []) by (unfold flags_of; by rewrite He).
    assert (Hmx : forall m, maxima_after w interval x m = m)
      by (intros m; unfold maxima_after; by rewrite He).
    assert (Hex : entries_for x = [error_marker w x.1 e])
      by (unfold entries_of; by rewrite He).
    cbn [flat_map foldl]. rewrite Hfx, Hex. simpl.
    split; [done|]. split; [intros m; by rewrite Hmx|].
    split; [by rewrite Hlen|].
    constructor; [|done]. apply error_marker_shape.
Qed.

(** X14: when the scoring of every sampled frame fails, the run returns all
    the same: nothing is flagged, the summary is the one the run started
    from, with every maximum at VERY_UNLIKELY, and the per-frame results
    are one error marker for each frame. *)
Theorem all_frames_failed video_path trace res sampled :
  analyze_video w video_path interval save_flagged_frames output_dir
  = (trace, inr res) ->
  extract_frames w video_path interval = inr sampled ->
  (forall k frame,
      sampled !! k = Some frame ->
      exists e, analyze_frame_safety w (safe_search_detection w k) frame = inl e) ->
  summary res = summary (initial_results w video_path (length sampled) interval) /\
  flagged_frames (summary res) = [] /\
  length (frame_results res) = length sampled /\
  Forall error_entry (frame_results res).
Proof.
  intros Hrun Hframes Hfail.
  apply completed_run in Hrun
    as (sampled' & Hframes' & _ & Hentries & Hflags & _ & Hmaxes & _).
  assert (sampled' = sampled) as -> by congruence.
  destruct (failed_frames_parts (enumerate sampled)) as (Hf & Hm & Hlen & Hshape).
  { intros [k frame] Hx. apply elem_of_enumerate in Hx. by apply Hfail. }
  rewrite Hflags, Hentries, Hf.
  split; [|split; [done|split; [|done]]].
  - destruct (summary res) as [m fl]. simpl in *. by rewrite Hmaxes, Hm, Hflags, Hf.
  - unfold enumerate in *. by rewrite Hlen, enumerate_from_length.
Qed.

(** X9: the dictionary under [reasons] of a flagged record is the frame's
    own entry of the per-frame results, with its [frame_index] and
    [timestamp_seconds]: the record holds the dictionary, not a copy of
    the five scores. *)
Theorem flagged_reasons_are_entries video_path trace res rec :
  analyze_video w video_path interval save_flagged_frames output_dir
  = (trace, inr res) ->
  rec ∈ flagged_frames (summary res) ->
  reasons rec ∈ frame_results res /\
  reasons rec !! "frame_index" = Some (VInt (Z.of_nat (frame_index rec))) /\
  reasons rec !! "timestamp_seconds" = Some (VFloat (timestamp_seconds rec)) /\
  timestamp_seconds rec = (float_of_nat (frame_index rec) * interval)%float.
Proof.
  intros Hrun Hrec.
  apply completed_run in Hrun as (sampled & _ & _ & Hentries & Hflags & _).
  rewrite Hflags in Hrec. rewrite Hentries.
  apply elem_of_flat_map in Hrec as (x & Hx & Hrec).
  apply elem_of_flags_of in Hrec as (d & Hd & _ & ->).
  split_and!.
  - apply elem_of_flat_map. exists x. split; [done|].
    destruct (entries_of_first w interval save_flagged_frames output_dir x)
      as (entry & rest & -> & ->).
    rewrite Hd. left.
  - unfold flag_record, stamped. simpl. by simplify_map_eq.
  - unfold flag_record, stamped. simpl. by simplify_map_eq.
  - reflexivity.
Qed.

(** X6: a video without frames: whatever its frame rate, as long as the
    product with the interval is finite, the run returns the dictionary
    it started from, with no frame analyzed, no entry and no flagged
    frame, and asks the service nothing; a frame rate of 0 does not make
    it fail. *)
Theorem empty_video_run video_path fps :
  os_path_exists w video_path = true ->
  VideoCapture w video_path = Some (fps, []) ->
  is_nan (fps * interval) = false ->
  is_infinity (fps * interval) = false ->
  (save_flagged_frames && truthy output_dir = true ->
   os_makedirs w (default "" output_dir) = None) ->
  analyze_video w video_path interval save_flagged_frames output_dir
  = (if save_flagged_frames && truthy output_dir
     then [CallMakedirs (default "" output_dir)] else [],
     inr (initial_results w video_path 0 interval)).
Proof.
  intros Hpath Hcap Hnan Hinf Hdir.
  destruct (proj2 (int_of_float_returns _) (conj Hnan Hinf)) as [n Hn].
  unfold analyze_video, extract_frames. rewrite Hpath, Hcap, Hn. simpl.
  destruct wanted; [by rewrite Hdir|done].
Qed.

End Runs.

Lemma results_eq (r1 r2 : Results) :
  header r1 = header r2 -> frame_results r1 = frame_results r2 ->
  maxima (summary r1) = maxima (summary r2) ->
  flagged_frames (summary r1) = flagged_frames (summary r2) ->
  r1 = r2.
Proof.
  destruct r1 as [? ? ? ? ? [? ?]], r2 as [? ? ? ? ? [? ?]].
  unfold header. simpl. intros [= -> -> -> ->] -> -> ->. reflexivity.
Qed.

Section Saving.

Context {Frame : Type}.
Variable w : World Frame.
Variable interval : float.
Variable output_dir : option string.

Lemma entries_of_saved (x : nat * Frame) :
  (forall path frame, imwrite w path frame = None) ->
  entries_of w interval true output_dir x = entries_of w interval false output_dir x.
Proof.
  intros Hsave. unfold entries_of, save_failure.
  destruct (score_of w x) as [e|d]; [done|].
  destruct (is_flagged d), (truthy output_dir); simpl; by rewrite ?Hsave.
Qed.

Lemma loop_results_saved (frames : list (nat * Frame)) st1 st2 :
  (forall path frame, imwrite w path frame = None) ->
  maxima_ok (maxes st1) ->
  results st1 = results st2 ->
  results (loop_state w interval true output_dir frames st1)
  = results (loop_state w interval false output_dir frames st2).
Proof.
  intros Hsave Hok Hres.
  assert (Hok' : maxima_ok (maxes st2)) by (unfold maxes; by rewrite <- Hres).
  destruct (loop_facts w interval true output_dir frames st1 Hok)
    as (_ & Hf1 & He1 & Hm1 & _ & Hh1 & _).
  destruct (loop_facts w interval false output_dir frames st2 Hok')
    as (_ & Hf2 & He2 & Hm2 & _ & Hh2 & _).
  unfold entries, flags, maxes in *.
  apply results_eq.
  - by rewrite Hh1, Hh2, Hres.
  - rewrite He1, He2, Hres. f_equal. apply flat_map_ext. intros x.
    by apply entries_of_saved.
  - by rewrite Hm1, Hm2, Hres.
  - by rewrite Hf1, Hf2, Hres.
Qed.

(** X13: saving the flagged frames leaves the results as they are: where the
    output directory can be made and no frame fails to be written, a run
    that saves its flagged frames and one that does not return the same
    dictionary, or raise the same exception. *)
Theorem saving_leaves_results video_path :
  os_makedirs w (default "" output_dir) = None ->
  (forall path frame, imwrite w path frame = None) ->
  (analyze_video w video_path interval true output_dir).2
  = (analyze_video w video_path interval false output_dir).2.
Proof.
  intros Hdir Hsave. unfold analyze_video.
  destruct (os_path_exists w video_path); simpl; [|done].
  destruct (extract_frames w video_path interval) as [e|sampled]; [done|].
  destruct (truthy output_dir) eqn:Hout; [rewrite Hdir|];
    rewrite !analyze_frames_returns; simpl; f_equal;
    (apply loop_results_saved; [done| |done]).
  - apply (initial_maxima_ok w interval false output_dir video_path (length sampled)).
  - apply (initial_maxima_ok w interval false output_dir video_path (length sampled)).
Qed.

End Saving.

(** ** The report *)

Section Reports.

Context {Frame : Type}.
Variable w : World Frame.
Variable format_1f : float -> string.
Variable interval : float.
Variable save_flagged_frames : bool.
Variable output_dir : option string.

Abbreviation analysis' := (fun video_path =>
  analyze_video w video_path interval save_flagged_frames output_dir).
Abbreviation lines_of := (report_lines w format_1f).
Abbreviation block_of := (flagged_lines w format_1f).

Implicit Types (res : Results) (rec : FlagRecord) (lines : list string).

Lemma maximum_name video_path trace res key :
  analysis' video_path = (trace, inr res) ->
  key ∈ categories ->
  exists name, maxima (summary res) !! ("max_" +:+ key) = Some (VStr name).
Proof.
  intros Hrun Hkey.
  apply completed_run in Hrun as (sampled & _ & _ & _ & _ & _ & _ & Hrank).
  specialize (Hrank key Hkey). unfold rank in Hrank.
  destruct (maxima (summary res) !! ("max_" +:+ key)) as [[name| |]|];
    try discriminate.
  by exists name.
Qed.

Lemma report_lines_of_run video_path trace res :
  analysis' video_path = (trace, inr res) ->
  exists a v m r s,
    maxima (summary res) !! "max_adult" = Some (VStr a) /\
    maxima (summary res) !! "max_violence" = Some (VStr v) /\
    maxima (summary res) !! "max_medical" = Some (VStr m) /\
    maxima (summary res) !! "max_racy" = Some (VStr r) /\
    maxima (summary res) !! "max_spoof" = Some (VStr s) /\
    lines_of res
    = inr (heading_lines w res ++ summary_lines_for a v m r s
             ++ verdict_lines w format_1f res).
Proof.
  intros Hrun.
  destruct (maximum_name _ _ _ "adult" Hrun) as [a Ha]; [in_list|].
  destruct (maximum_name _ _ _ "violence" Hrun) as [v Hv]; [in_list|].
  destruct (maximum_name _ _ _ "medical" Hrun) as [m Hm]; [in_list|].
  destruct (maximum_name _ _ _ "racy" Hrun) as [r Hr]; [in_list|].
  destruct (maximum_name _ _ _ "spoof" Hrun) as [s Hs]; [in_list|].
  change ("max_" +:+ "adult") with "max_adult" in Ha.
  change ("max_" +:+ "violence") with "max_violence" in Hv.
  change ("max_" +:+ "medical") with "max_medical" in Hm.
  change ("max_" +:+ "racy") with "max_racy" in Hr.
  change ("max_" +:+ "spoof") with "max_spoof" in Hs.
  exists a, v, m, r, s. split_and!; try done.
  unfold report_lines, dict_get. by rewrite Ha, Hv, Hm, Hr, Hs.
Qed.

(** X16: on the dictionary of a completed run [generate_report] looks up no
    missing key: it returns the report, the heading, the five maxima the
    summary holds and the verdict, joined by line feeds, unless writing
    the report file raises, and then it raises that exception. *)
Theorem generate_report_of_run video_path trace res output_file :
  analyze_video w video_path interval save_flagged_frames output_dir
  = (trace, inr res) ->
  exists a v m r s,
    maxima (summary res) !! "max_adult" = Some (VStr a) /\
    maxima (summary res) !! "max_violence" = Some (VStr v) /\
    maxima (summary res) !! "max_medical" = Some (VStr m) /\
    maxima (summary res) !! "max_racy" = Some (VStr r) /\
    maxima (summary res) !! "max_spoof" = Some (VStr s) /\
    generate_report w format_1f res output_file
    = match (if truthy output_file
             then write_report w (default "" output_file) res else None) with
      | Some e => inl e
      | None =>
          inr (join newline
                 (heading_lines w res ++ summary_lines_for a v m r s
                    ++ verdict_lines w format_1f res))
      end.
Proof.
  intros Hrun.
  destruct (report_lines_of_run _ _ _ Hrun)
    as (a & v & m & r & s & Ha & Hv & Hm & Hr & Hs & Hlines).
  exists a, v, m, r, s. split_and!; try done.
  unfold generate_report. rewrite Hlines.
  by destruct (truthy output_file).
Qed.

(** The dictionary under [reasons] of a flagged record of a run: the
    five names the frame was rated, with its index and its time. *)
Lemma reasons_of_run video_path trace res rec :
  analysis' video_path = (trace, inr res) ->
  rec ∈ flagged_frames (summary res) ->
  exists a s m v r,
    reasons rec
    = stamped interval (frame_index rec)
        (<["adult" := VStr a]> (<["spoof" := VStr s]> (<["medical" := VStr m]>
           (<["violence" := VStr v]> (<["racy" := VStr r]> ∅))))).
Proof.
  intros Hrun Hrec.
  apply completed_run in Hrun as (sampled & _ & _ & _ & Hflags & _).
  rewrite Hflags in Hrec.
  apply elem_of_flat_map in Hrec as (x & _ & Hrec).
  apply elem_of_flags_of in Hrec as (d & Hd & _ & ->).
  apply analyze_frame_safety_inr in Hd
    as (image & safe_search & a & s & m & v & r & _ & _ & _ & _ & _ & _ & _ & ->).
  by exists a, s, m, v, r.
Qed.

(** X17: the lines of a flagged frame of a run: its index and time, the five
    categories in the order adult, spoof, medical, violence, racy, each
    with the name the frame was rated, and an empty line; the entries
    [frame_index] and [timestamp_seconds] of the frame's dictionary are
    not listed. *)
Theorem flagged_lines_of_run video_path trace res rec :
  analyze_video w video_path interval save_flagged_frames output_dir
  = (trace, inr res) ->
  rec ∈ flagged_frames (summary res) ->
  exists a s m v r,
    reasons rec !! "adult" = Some (VStr a) /\
    reasons rec !! "spoof" = Some (VStr s) /\
    reasons rec !! "medical" = Some (VStr m) /\
    reasons rec !! "violence" = Some (VStr v) /\
    reasons rec !! "racy" = Some (VStr r) /\
    flagged_lines w format_1f rec
    = ["Frame " +:+ pretty (frame_index rec) +:+ " at "
         +:+ format_1f (timestamp_seconds rec) +:+ "s:";
       "  - adult: " +:+ a;
       "  - spoof: " +:+ s;
       "  - medical: " +:+ m;
       "  - violence: " +:+ v;
       "  - racy: " +:+ r;
       ""].
Proof.
  intros Hrun Hrec.
  destruct (reasons_of_run _ _ _ _ Hrun Hrec) as (a & s & m & v & r & Hreasons).
  exists a, s, m, v, r.
  unfold flagged_lines, reason_lines, items, insertion_order.
  rewrite Hreasons. unfold stamped.
  split_and!; by vm_compute.
Qed.

Lemma last_flagged_lines (flagged : list FlagRecord) :
  flagged <> [] -> last (flat_map block_of flagged) = Some "".
Proof.
  intros Hne. destruct flagged as [|rec rest _] using rev_ind; [done|].
  rewrite flat_map_app. cbn [flat_map]. rewrite app_nil_r.
  unfold flagged_lines.
  by rewrite app_comm_cons, !app_assoc, last_snoc.
Qed.

(** X18: the layout of the report of a completed run.  A run without flagged
    frames has 17 lines, the last of which says that nothing concerning
    was detected; a run with [n] flagged frames has [18 + 7 * n] lines:
    line 16 (counting from 0) gives the number of flagged frames, seven
    lines follow for each of them, and the last line is empty.  So the
    report ends with the all-clear line exactly when nothing was
    flagged. *)
Theorem report_layout video_path trace res :
  analyze_video w video_path interval save_flagged_frames output_dir
  = (trace, inr res) ->
  exists lines,
    report_lines w format_1f res = inr lines /\
    (last lines = Some "✓ No concerning content detected"
     <-> flagged_frames (summary res) = []) /\
    (flagged_frames (summary res) = [] -> length lines = 17%nat) /\
    (flagged_frames (summary res) <> [] ->
     length lines = (18 + 7 * length (flagged_frames (summary res)))%nat /\
     lines !! 16%nat
     = Some ("⚠️  FLAGGED FRAMES: "
               +:+ pretty (length (flagged_frames (summary res)))) /\
     last lines = Some "").
Proof.
  intros Hrun.
  destruct (report_lines_of_run _ _ _ Hrun)
    as (a & v & m & r & s & _ & _ & _ & _ & _ & Hlines).
  eexists. split; [exact Hlines|].
  assert (Hblocks : length (flat_map block_of (flagged_frames (summary res)))
                    = (length (flagged_frames (summary res)) * 7)%nat).
  { apply flat_map_constant_length. intros rec Hrec.
    apply list_elem_of_In in Hrec.
    destruct (reasons_of_run _ _ _ rec Hrun Hrec) as (? & ? & ? & ? & ? & Hreasons).
    unfold flagged_lines, reason_lines, items, insertion_order.
    rewrite Hreasons. unfold stamped. by vm_compute. }
  pose proof (last_flagged_lines (flagged_frames (summary res))) as Hlast.
  unfold verdict_lines.
  destruct (flagged_frames (summary res)) as [|rec rest] eqn:Hflagged.
  - split; [by split|]. split; [done|]. by intros ?.
  - specialize (Hlast ltac:(done)).
    assert (Hend : forall l0 : list string,
              last (l0 ++ flat_map block_of (rec :: rest)) = Some "").
    { intros l0. by rewrite last_app, Hlast. }
    split; [|split; [done|intros _; split_and!]].
    + split; [|done]. rewrite !app_assoc.
      change (?l ++ ?x :: ?y :: flat_map block_of (rec :: rest))
        with (l ++ [x; y] ++ flat_map block_of (rec :: rest)).
      rewrite app_assoc, Hend. discriminate.
    + rewrite !length_app. cbn [length heading_lines summary_lines_for].
      rewrite Hblocks. cbn [length]. lia.
    + reflexivity.
    + rewrite !app_assoc.
      change (?l ++ ?x :: ?y :: flat_map block_of (rec :: rest))
        with (l ++ [x; y] ++ flat_map block_of (rec :: rest)).
      by rewrite app_assoc, Hend.
Qed.

(** X19: a summary that lacks one of the five maxima makes [generate_report]
    raise [KeyError] for the first one it misses, in the order of the
    lines of the report, whether or not an output file is given. *)
Theorem generate_report_missing_key res output_file :
  Exists (fun key => maxima (summary res) !! key = None) max_keys ->
  exists before key after,
    max_keys = before ++ key :: after /\
    Forall (fun k => is_Some (maxima (summary res) !! k)) before /\
    maxima (summary res) !! key = None /\
    generate_report w format_1f res output_file = inl (KeyError (VStr key)).
Proof.
  intros Hmissing. unfold generate_report, report_lines, dict_get. cbv zeta.
  destruct (maxima (summary res) !! "max_adult") as [a|] eqn:Ha;
    [|by exists [], "max_adult", ["max_violence"; "max_medical"; "max_racy"; "max_spoof"]].
  destruct (maxima (summary res) !! "max_violence") as [v|] eqn:Hv;
    [|exists ["max_adult"], "max_violence", ["max_medical"; "max_racy"; "max_spoof"];
      split_and!; [done| |done|done]; repeat constructor; by rewrite Ha].
  destruct (maxima (summary res) !! "max_medical") as [m|] eqn:Hm;
    [|exists ["max_adult"; "max_violence"], "max_medical", ["max_racy"; "max_spoof"];
      split_and!; [done| |done|done]; repeat constructor; by rewrite ?Ha, ?Hv].
  destruct (maxima (summary res) !! "max_racy") as [r|] eqn:Hr;
    [|exists ["max_adult"; "max_violence"; "max_medical"], "max_racy", ["max_spoof"];
      split_and!; [done| |done|done]; repeat constructor; by rewrite ?Ha, ?Hv, ?Hm].
  destruct (maxima (summary res) !! "max_spoof") as [s|] eqn:Hs;
    [|exists ["max_adult"; "max_violence"; "max_medical"; "max_racy"], "max_spoof", [];
      split_and!; [done| |done|done]; repeat constructor;
      by rewrite ?Ha, ?Hv, ?Hm, ?Hr].
  exfalso. unfold max_keys in Hmissing.
  rewrite !Exists_cons, Exists_nil in Hmissing.
  destruct Hmissing as [H|[H|[H|[H|[H|[]]]]]]; congruence.
Qed.

End Reports.

(** ** The command line *)

Section CommandLine.

Context {Frame : Type}.
Variable w : World Frame.
Variable format_1f : float -> string.
Variable print : string -> option exn.

Implicit Types (args : Args.t) (res : Results) (out : list Output).

Abbreviation analysis_for := (fun args =>
  analyze_video w (Args.video_path args) (Args.interval args)
    (Args.save_flagged args) (Some (Args.output_dir args))).
Abbreviation run_of := (main w format_1f print).
Abbreviation complete := (completes w format_1f print).

(** What a run of [main] that completes does: the calls of the
    analysis, the JSON file and the report file where asked for, and the
    printed report; its status tells whether a frame was flagged. *)
Lemma main_completes args trace res report :
  complete args trace res report ->
  run_of args
  = (outputs_of args trace (newline +:+ report),
     match flagged_frames (summary res) with
     | [] => 0
     | _ :: _ => 1
     end).
Proof.
  intros (Hclient & Hrun & Hjson & Hreport & Hprint).
  unfold main, outputs_of. rewrite Hclient, Hrun. cbv zeta.
  destruct (truthy (Args.json_output args));
    [rewrite (Hjson eq_refl)|];
    rewrite Hreport, Hprint; by rewrite <- ?app_assoc.
Qed.

(** What a run of [main] that does not complete does: it exits with 1
    and prints nothing. *)
Lemma main_fails args :
  (forall trace res report, ~ complete args trace res report) ->
  (run_of args).2 = 1 /\ forall text, OutPrint text ∉ (run_of args).1.
Proof.
  intros Hnot. unfold main.
  assert (Hcalls : forall (trace : list Call) text, OutPrint text ∉ OutCall <$> trace).
  { intros trace text Hin.
    apply list_elem_of_fmap in Hin as (c & Hc & _). discriminate. }
  assert (Hjson_out : forall (wanted : bool) path text,
            OutPrint text ∉ (if wanted then [OutJson path] else [])).
  { intros [|] path text Hin; [|by apply elem_of_nil in Hin].
    apply list_elem_of_singleton in Hin. discriminate. }
  assert (Hreport_out : forall (wanted : bool) path text,
            OutPrint text ∉ (if wanted then [OutReport path] else [])).
  { intros [|] path text Hin; [|by apply elem_of_nil in Hin].
    apply list_elem_of_singleton in Hin. discriminate. }
  destruct (ImageAnnotatorClient w (Args.credentials args)) eqn:Hclient.
  { split; [done|]. intros text H. by apply elem_of_nil in H. }
  destruct (analysis_for args) as [trace [e|res]] eqn:Hrun;
    [split; [done|apply Hcalls]|].
  cbv zeta.
  destruct (if truthy (Args.json_output args) then _ else _) eqn:Hjson;
    [split; [done|apply Hcalls]|].
  destruct (generate_report w format_1f res (Args.report_output args))
    as [e|report] eqn:Hreport.
  { split; [done|]. intros text Hin.
    apply elem_of_app in Hin as [Hin|Hin];
      [by apply Hcalls in Hin|by apply Hjson_out in Hin]. }
  destruct (print (newline +:+ report)) eqn:Hprint.
  - split; [done|]. intros text Hin.
    apply elem_of_app in Hin as [Hin|Hin]; [|by apply Hreport_out in Hin].
    apply elem_of_app in Hin as [Hin|Hin];
      [by apply Hcalls in Hin|by apply Hjson_out in Hin].
  - exfalso. apply (Hnot trace res report). unfold completes.
    split_and!; try done.
    intros Hwanted. by rewrite Hwanted in Hjson.
Qed.

Lemma completes_or_not args :
  (exists trace res report, complete args trace res report) \/
  (forall trace res report, ~ complete args trace res report).
Proof.
  unfold completes.
  destruct (ImageAnnotatorClient w (Args.credentials args)) eqn:Hclient;
    [right; by intros ? ? ? [? _]|].
  destruct (analysis_for args) as [trace [e|res]] eqn:Hrun;
    [right; by intros ? ? ? (_ & ? & _)|].
  destruct (generate_report w format_1f res (Args.report_output args))
    as [e|report] eqn:Hreport;
    [right; intros ? ? ? (_ & [= <- <-] & _ & ? & _); congruence|].
  destruct (print (newline +:+ report)) eqn:Hprint;
    [right; intros ? ? ? (_ & [= <- <-] & _ & ? & ?); congruence|].
  destruct (truthy (Args.json_output args)) eqn:Hj.
  - destruct (json_dump w (default "" (Args.json_output args)) res) eqn:Hjson.
    + right. intros ? ? ? (_ & [= <- <-] & Hjs & _).
      specialize (Hjs eq_refl). congruence.
    + left. exists trace, res, report. by split_and!.
  - left. exists trace, res, report. split_and!; try done; intros; congruence.
Qed.

(** The report [main] prints is the lines of the report joined by line
    feeds. *)
Lemma generated_report res output_file report :
  generate_report w format_1f res output_file = inr report ->
  exists lines,
    report_lines w format_1f res = inr lines /\ report = join newline lines.
Proof.
  unfold generate_report.
  destruct (report_lines w format_1f res) as [e|lines]; [discriminate|].
  cbv zeta. intros H. exists lines. split; [done|].
  destruct (truthy output_file); [|congruence].
  destruct (write_report w _ res); [discriminate|congruence].
Qed.

(** X20: the exit status of [main] is 0 exactly when the run completes
    (the client is created, the analysis returns, the JSON file, where
    asked for, is written, and the report is generated, written where
    asked for, and printed) and no frame is flagged. *)
Theorem main_exit_zero_iff args :
  (main w format_1f print args).2 = 0 <->
  exists trace res report,
    completes w format_1f print args trace res report /\
    flagged_frames (summary res) = [].
Proof.
  split.
  - intros Hzero.
    destruct (completes_or_not args) as [(trace & res & report & Hdone)|Hnot].
    + exists trace, res, report. split; [done|].
      rewrite (main_completes _ _ _ _ Hdone) in Hzero. simpl in Hzero.
      by destruct (flagged_frames (summary res)).
    + apply main_fails in Hnot as [Hone _]. congruence.
  - intros (trace & res & report & Hdone & Hclean).
    by rewrite (main_completes _ _ _ _ Hdone), Hclean.
Qed.

(** X21: [main] prints the report exactly when the run completes, and
    then last, after the calls of the analysis and the writing of the
    JSON file and of the report file, whether or not a frame was
    flagged; what it prints is a line feed and the lines of the report
    joined by line feeds.  A run that does not complete, be it because
    the report cannot be printed, prints nothing and exits with 1. *)
Theorem main_prints_report_iff args :
  ((exists text, OutPrint text ∈ (main w format_1f print args).1) <->
   exists trace res report, completes w format_1f print args trace res report) /\
  (forall trace res report,
      completes w format_1f print args trace res report ->
      (main w format_1f print args).1 = outputs_of args trace (newline +:+ report) /\
      exists lines,
        report_lines w format_1f res = inr lines /\ report = join newline lines) /\
  ((forall trace res report,
       ~ completes w format_1f print args trace res report) ->
   (main w format_1f print args).2 = 1).
Proof.
  split; [|split].
  - split.
    + intros [text Hin].
      destruct (completes_or_not args) as [?|Hnot]; [done|].
      apply main_fails in Hnot as [_ Hnot]. by destruct (Hnot text).
    + intros (trace & res & report & Hdone).
      exists (newline +:+ report). rewrite (main_completes _ _ _ _ Hdone). simpl.
      unfold outputs_of. rewrite !app_assoc. apply elem_of_app. right. left.
  - intros trace res report Hdone.
    split; [by rewrite (main_completes _ _ _ _ Hdone)|].
    destruct Hdone as (_ & _ & _ & Hreport & _).
    by apply generated_report in Hreport.
  - intros Hnot. by apply main_fails in Hnot as [? _].
Qed.

(** X22: an outage of the service is not told apart from a clean video:
    when the scoring of every sampled frame fails and the run completes,
    the printing of the report included, [main] exits with 0 and the
    report it prints ends with the all-clear line. *)
Theorem outage_reported_clean args trace res report sampled :
  completes w format_1f print args trace res report ->
  extract_frames w (Args.video_path args) (Args.interval args) = inr sampled ->
  (forall k frame,
      sampled !! k = Some frame ->
      exists e, analyze_frame_safety w (safe_search_detection w k) frame = inl e) ->
  main w format_1f print args = (outputs_of args trace (newline +:+ report), 0) /\
  exists lines,
    report = join newline lines /\
    last lines = Some "✓ No concerning content detected".
Proof.
  intros Hdone Hframes Hfail.
  assert (Hclean : flagged_frames (summary res) = []).
  { destruct Hdone as (_ & Hrun & _).
    apply completed_run in Hrun as (sampled' & Hframes' & _ & _ & -> & _).
    assert (sampled' = sampled) as -> by congruence.
    refine (proj1 (failed_frames_parts w _ (Args.save_flagged args)
                     (Some (Args.output_dir args)) _ _)).
    intros [k frame] Hx. apply elem_of_enumerate in Hx. by apply Hfail. }
  split; [by rewrite (main_completes _ _ _ _ Hdone), Hclean|].
  destruct Hdone as (_ & Hrun & _ & Hreport & _).
  apply generated_report in Hreport as (lines & Hlines & ->).
  exists lines. split; [done|].
  destruct (report_lines_of_run _ format_1f _ _ _ _ _ _ Hrun)
    as (a & v & m & r & s & _ & _ & _ & _ & _ & Hlines').
  assert (lines = heading_lines w res ++ summary_lines_for a v m r s
                    ++ verdict_lines w format_1f res) as -> by congruence.
  unfold verdict_lines. rewrite Hclean.
  by rewrite !last_app.
Qed.

End CommandLine.

(** ** The names of the saved frames *)

Lemma string_length_app (s t : string) :
  String.length (s +:+ t) = (String.length s + String.length t)%nat.
Proof. induction s as [|c s IH]; simpl; [done|]. by rewrite IH. Qed.

Lemma string_app_inj_r (s1 s2 t : string) : s1 +:+ t = s2 +:+ t -> s1 = s2.
Proof.
  revert s2. induction s1 as [|c s1 IH]; intros [|c' s2] H; simpl in H.
  - done.
  - apply (f_equal String.length) in H.
    rewrite !string_length_app in H. simpl in H. lia.
  - apply (f_equal String.length) in H.
    rewrite !string_length_app in H. simpl in H. lia.
  - injection H as -> H. f_equal. by apply IH.
Qed.

Lemma zeros_length (k : nat) : String.length (zeros k) = k.
Proof.
  induction k as [|k IH]; [done|].
  cbn [zeros]. by rewrite string_length_app, IH.
Qed.

(** The digits of a positive number do not start with 0. *)
Lemma pretty_N_go_head (x : N) : forall s,
  (0 < x)%N ->
  exists c rest, pretty_N_go x s = String c rest /\ String c "" <> "0".
Proof.
  induction (N.lt_wf_0 x) as [x _ IH]; intros s Hx.
  rewrite pretty_N_go_step by done.
  destruct (decide (x `div` 10 = 0)%N) as [Hdiv|Hdiv];
    [|apply N.neq_0_lt_0 in Hdiv].
  - rewrite Hdiv, pretty_N_go_0. eexists _, _. split; [reflexivity|].
    assert (x < 10)%N by (by apply N.div_small_iff in Hdiv).
    rewrite N.mod_small by done.
    assert (x = 1 \/ x = 2 \/ x = 3 \/ x = 4 \/ x = 5 \/ x = 6
            \/ x = 7 \/ x = 8 \/ x = 9)%N as Hc by lia.
    repeat (destruct Hc as [->|Hc]; [discriminate|]). subst x. discriminate.
  - apply IH; [|done]. by apply N.div_lt.
Qed.

Lemma pretty_nat_head (n : nat) :
  pretty n = "0" \/
  exists c rest, pretty n = String c rest /\ String c "" <> "0".
Proof.
  unfold pretty, pretty_nat, pretty, pretty_N.
  case_decide; [by left|right].
  apply pretty_N_go_head. lia.
Qed.

Lemma zeros_app_inv (k : nat) : forall k' d d',
  (k <= k')%nat -> zeros k +:+ d = zeros k' +:+ d' -> d = zeros (k' - k) +:+ d'.
Proof.
  induction k as [|k IH]; intros k' d d' Hle H.
  - by rewrite Nat.sub_0_r.
  - destruct k' as [|k']; [lia|].
    change ("0" +:+ (zeros k +:+ d) = "0" +:+ (zeros k' +:+ d')) in H.
    apply (inj (String.append "0")) in H.
    apply IH; [lia|done].
Qed.

Lemma format_04d_pad (i j : nat) :
  (4 - String.length (pretty i) <= 4 - String.length (pretty j))%nat ->
  format_04d i = format_04d j -> i = j.
Proof.
  unfold format_04d. cbv zeta. intros Hle H.
  apply zeros_app_inv in H; [|done].
  destruct (4 - String.length (pretty j) - (4 - String.length (pretty i)))%nat
    as [|k] eqn:Hk.
  - by apply (inj pretty).
  - change (pretty i = "0" +:+ (zeros k +:+ pretty j)) in H.
    destruct (pretty_nat_head i) as [Hi|(c & rest & Hi & Hc)].
    + rewrite Hi in H. apply (f_equal String.length) in H.
      rewrite !string_length_app in H.
      destruct (pretty_nat_head j) as [Hj|(c' & rest' & Hj & _)];
        rewrite Hj in H; simpl in H; lia.
    + rewrite Hi in H. injection H as -> _. done.
Qed.

Lemma format_04d_inj (i j : nat) : format_04d i = format_04d j -> i = j.
Proof.
  intros H.
  destruct (decide (4 - String.length (pretty i)
                    <= 4 - String.length (pretty j))%nat).
  - by apply format_04d_pad.
  - symmetry. apply format_04d_pad; [lia|done].
Qed.

(** A number below [10 ^ k] has at most [k] digits. *)
Lemma pretty_N_go_length (k : nat) : forall x s,
  (x < 10 ^ N.of_nat k)%N ->
  (String.length (pretty_N_go x s) <= k + String.length s)%nat.
Proof.
  induction k as [|k IH]; intros x s Hx.
  - assert (x = 0%N) as -> by (simpl in Hx; lia). by rewrite pretty_N_go_0.
  - destruct (decide (x = 0%N)) as [->|Hpos]; [rewrite pretty_N_go_0; lia|].
    rewrite pretty_N_go_step by lia.
    etrans; [apply IH|simpl; lia].
    apply N.Div0.div_lt_upper_bound.
    by rewrite <- N.pow_succ_r', <- Nat2N.inj_succ.
Qed.

Lemma format_04d_width (idx : nat) :
  Z.of_nat idx < 10000 -> String.length (format_04d idx) = 4%nat.
Proof.
  intros Hidx. unfold format_04d. cbv zeta.
  rewrite string_length_app, zeros_length.
  assert (String.length (pretty idx) <= 4)%nat; [|lia].
  unfold pretty, pretty_nat, pretty, pretty_N.
  case_decide; [simpl; lia|].
  etrans; [apply (pretty_N_go_length 4)|simpl; lia].
  change (10 ^ N.of_nat 4)%N with 10000%N. lia.
Qed.

(** X15: the file names of the saved frames: distinct frames get distinct
    names, so no flagged frame of a run overwrites another; a name is
    [flagged_frame_], at least four digits and [.jpg], with exactly four
    digits for the frames below 10000. *)
Theorem frame_filename_shape :
  (forall i j, frame_filename i = frame_filename j -> i = j) /\
  (forall idx, (22 <= String.length (frame_filename idx))%nat) /\
  (forall idx, Z.of_nat idx < 10000 ->
               String.length (frame_filename idx) = 22%nat).
Proof.
  unfold frame_filename. split; [|split].
  - intros i j H. apply (inj (String.append _)) in H.
    apply string_app_inj_r in H. by apply format_04d_inj.
  - intros idx. rewrite !string_length_app. unfold format_04d. cbv zeta.
    rewrite string_length_app, zeros_length. simpl. lia.
  - intros idx Hidx. rewrite !string_length_app.
    by rewrite format_04d_width.
Qed.

(** ** The further properties on concrete runs *)

Lemma saved_run_returns : saved_run = (saved_run.1, inr (results_of saved_run)).
Proof. apply returns_results. vm_compute. reflexivity. Qed.

Lemma disk_full_run_returns :
  disk_full_run = (disk_full_run.1, inr (results_of disk_full_run)).
Proof. apply returns_results. vm_compute. reflexivity. Qed.

Lemma outage_run_returns : outage_run = (outage_run.1, inr (results_of outage_run)).
Proof. apply returns_results. vm_compute. reflexivity. Qed.

Lemma sample_flagged_flagged : sample_flagged ∈ flagged_frames (summary sample_results).
Proof. apply (list_elem_of_lookup_2 _ 0%nat). vm_compute. reflexivity. Qed.

(** X3, witness: a frame rate that is not a number. *)
Lemma extract_frames_not_finite_witness :
  (is_nan (nan * 1) = true ->
   extract_frames (test_world nan 3 all_clear) "agv.mp4" 1
   = inl (ValueError "cannot convert float NaN to integer")) /\
  (is_infinity (nan * 1) = true ->
   extract_frames (test_world nan 3 all_clear) "agv.mp4" 1
   = inl (OverflowError "cannot convert float infinity to integer")).
Proof.
  apply (extract_frames_not_finite (test_world nan 3 all_clear) "agv.mp4" 1
           nan (seq 0 3)).
  reflexivity.
Defined.

(** X4, witness: a reply whose value for adult is -1, the last name of
    the table. *)
Lemma analyze_frame_safety_index_range_witness :
  (Forall (fun key => -6 <= enum_value (field_of (reply (-1) 1 1 1 1) key) <= 5)
          categories ->
   exists d,
     analyze_frame_safety (test_world 1 3 all_clear)
       (fun _ => inr (reply (-1) 1 1 1 1)) 0%nat = inr d /\
     Forall (fun key =>
               exists name,
                 d !! key = Some (VStr name) /\
                 likelihood_names
                   !! Z.to_nat (enum_value (field_of (reply (-1) 1 1 1 1) key) mod 6)
                 = Some name)
            categories) /\
  (Exists (fun key => enum_value (field_of (reply (-1) 1 1 1 1) key) < -6 \/
                      5 < enum_value (field_of (reply (-1) 1 1 1 1) key)) categories ->
   analyze_frame_safety (test_world 1 3 all_clear)
     (fun _ => inr (reply (-1) 1 1 1 1)) 0%nat
   = inl (IndexError "list index out of range")).
Proof.
  apply (analyze_frame_safety_index_range (test_world 1 3 all_clear)
           (fun _ => inr (reply (-1) 1 1 1 1)) 0%nat [] (reply (-1) 1 1 1 1));
    reflexivity.
Defined.

Example negative_value_counts_from_the_end :
  analyze_frame_safety (test_world 1 3 all_clear)
    (fun _ => inr (reply (-1) 1 1 1 6)) 0%nat
  = inl (IndexError "list index out of range") /\
  (exists d,
     analyze_frame_safety (test_world 1 3 all_clear)
       (fun _ => inr (reply (-1) 1 1 1 1)) 0%nat = inr d /\
     d !! "adult" = Some (VStr "VERY_LIKELY")).
Proof. split; [reflexivity|]. eexists. split; reflexivity. Qed.

(** X7, witness: the flagged frames of the sample run. *)
Lemma flagged_frames_ordered_witness :
  Forall (fun rec => (frame_index rec < total_frames_analyzed sample_results)%nat)
         (flagged_frames (summary sample_results)) /\
  (length (flagged_frames (summary sample_results))
   <= total_frames_analyzed sample_results)%nat /\
  forall i j ri rj,
    flagged_frames (summary sample_results) !! i = Some ri ->
    flagged_frames (summary sample_results) !! j = Some rj ->
    (i < j)%nat ->
    (frame_index ri < frame_index rj)%nat.
Proof.
  apply (flagged_frames_ordered sample_world 1 false None "agv.mp4" sample_run.1).
  exact sample_run_returns.
Defined.

(** X8, witness: the sample run, which flags frame 2 and reports adult
    POSSIBLE. *)
Lemma flagged_iff_maximum_witness :
  flagged_frames (summary sample_results) <> [] <->
  exists key r,
    key ∈ flag_keys /\
    rank (maxima (summary sample_results)) ("max_" +:+ key) = Some r /\ 3 <= r.
Proof.
  apply (flagged_iff_maximum sample_world 1 false None "agv.mp4" sample_run.1).
  exact sample_run_returns.
Defined.

(** X10, witness: the sample run, which saves no frame. *)
Lemma frame_results_per_frame_witness :
  (total_frames_analyzed sample_results
   <= length (frame_results sample_results)
   <= total_frames_analyzed sample_results
      + length (flagged_frames (summary sample_results)))%nat /\
  (false && truthy None = false ->
   length (frame_results sample_results) = total_frames_analyzed sample_results /\
   forall k entry,
     frame_results sample_results !! k = Some entry ->
     entry !! "frame_index" = Some (VInt (Z.of_nat k))).
Proof.
  apply (frame_results_per_frame sample_world 1 false None "agv.mp4" sample_run.1).
  exact sample_run_returns.
Defined.

(** X11, witness: frame 2 of the sample run cannot be saved. *)
Lemma failed_save_keeps_frame_witness :
  stamped 1 2 (sample_scores 2) ∈ frame_results (results_of disk_full_run) /\
  error_marker disk_full_world 2 (ExternalError "No space left on device")
    ∈ frame_results (results_of disk_full_run) /\
  flag_record 1 2 (sample_scores 2)
    ∈ flagged_frames (summary (results_of disk_full_run)) /\
  (total_frames_analyzed (results_of disk_full_run)
   < length (frame_results (results_of disk_full_run)))%nat.
Proof.
  apply (failed_save_keeps_frame disk_full_world 1 true (Some "flagged_frames")
           "agv.mp4" disk_full_run.1 (results_of disk_full_run) (seq 0 6)
           2%nat 2%nat (sample_scores 2) (ExternalError "No space left on device")).
  - exact disk_full_run_returns.
  - vm_compute. reflexivity.
  - reflexivity.
  - apply (sample_scores_scored 2). vm_compute. reflexivity.
  - vm_compute. reflexivity.
  - reflexivity.
  - reflexivity.
Defined.

(** X12, witness: the calls of the sample run when it saves its flagged
    frames. *)
Lemma calls_of_run_witness :
  List.filter is_analyze saved_run.1
  = CallAnalyzeFrame <$> seq 0 (total_frames_analyzed (results_of saved_run)) /\
  List.filter is_makedirs saved_run.1
  = (if true && truthy (Some "flagged_frames")
     then [CallMakedirs (default "" (Some "flagged_frames"))] else []) /\
  List.filter is_imwrite saved_run.1
  = (if true && truthy (Some "flagged_frames")
     then (fun rec : FlagRecord =>
             CallImwrite (os_path_join sample_world (default "" (Some "flagged_frames"))
                            (frame_filename (frame_index rec))))
          <$> flagged_frames (summary (results_of saved_run))
     else []) /\
  (true && truthy (Some "flagged_frames") = true ->
   head saved_run.1 = Some (CallMakedirs (default "" (Some "flagged_frames")))).
Proof.
  apply (calls_of_run sample_world 1 true (Some "flagged_frames") "agv.mp4").
  exact saved_run_returns.
Defined.

Example saved_run_calls :
  saved_run.1
  = [CallMakedirs "flagged_frames"; CallAnalyzeFrame 0; CallAnalyzeFrame 1;
     CallAnalyzeFrame 2; CallImwrite "flagged_frames/flagged_frame_0002.jpg";
     CallAnalyzeFrame 3; CallAnalyzeFrame 4; CallAnalyzeFrame 5].
Proof. vm_compute. reflexivity. Qed.

(** X14, witness: the run made while the service is down. *)
Lemma all_frames_failed_witness :
  summary (results_of outage_run)
  = summary (initial_results outage_world "agv.mp4" (length (seq 0 3)) 1) /\
  flagged_frames (summary (results_of outage_run)) = [] /\
  length (frame_results (results_of outage_run)) = length (seq 0 3) /\
  Forall error_entry (frame_results (results_of outage_run)).
Proof.
  apply (all_frames_failed outage_world 1 false (Some "flagged_frames") "agv.mp4"
           outage_run.1 (results_of outage_run) (seq 0 3)).
  - exact outage_run_returns.
  - vm_compute. reflexivity.
  - intros k frame _. eexists. reflexivity.
Defined.

(** X9, witness: the record of frame 2 of the sample run. *)
Lemma flagged_reasons_are_entries_witness :
  reasons sample_flagged ∈ frame_results sample_results /\
  reasons sample_flagged !! "frame_index"
  = Some (VInt (Z.of_nat (frame_index sample_flagged))) /\
  reasons sample_flagged !! "timestamp_seconds"
  = Some (VFloat (timestamp_seconds sample_flagged)) /\
  timestamp_seconds sample_flagged
  = (float_of_nat (frame_index sample_flagged) * 1)%float.
Proof.
  apply (flagged_reasons_are_entries sample_world 1 false None "agv.mp4" sample_run.1).
  - exact sample_run_returns.
  - exact sample_flagged_flagged.
Defined.

(** X6, witness: a video without frames whose frame rate reads 0. *)
Lemma empty_video_run_witness :
  analyze_video (test_world 0 0 all_clear) "agv.mp4" 1 false None
  = (if false && truthy None then [CallMakedirs (default "" None)] else [],
     inr (initial_results (test_world 0 0 all_clear) "agv.mp4" 0 1)).
Proof.
  apply (empty_video_run (test_world 0 0 all_clear) 1 false None "agv.mp4" 0);
    [reflexivity..|discriminate].
Defined.

(** X13, witness: the sample run with and without saving. *)
Lemma saving_leaves_results_witness :
  (analyze_video sample_world "agv.mp4" 1 true (Some "flagged_frames")).2
  = (analyze_video sample_world "agv.mp4" 1 false (Some "flagged_frames")).2.
Proof.
  apply (saving_leaves_results sample_world 1 (Some "flagged_frames") "agv.mp4").
  - reflexivity.
  - intros path frame. reflexivity.
Defined.

(** X16, witness: the report of the sample run. *)
Lemma generate_report_of_run_witness :
  exists a v m r s,
    maxima (summary sample_results) !! "max_adult" = Some (VStr a) /\
    maxima (summary sample_results) !! "max_violence" = Some (VStr v) /\
    maxima (summary sample_results) !! "max_medical" = Some (VStr m) /\
    maxima (summary sample_results) !! "max_racy" = Some (VStr r) /\
    maxima (summary sample_results) !! "max_spoof" = Some (VStr s) /\
    generate_report sample_world sample_format sample_results None
    = match (if truthy None
             then write_report sample_world (default "" None) sample_results
             else None) with
      | Some e => inl e
      | None =>
          inr (join newline
                 (heading_lines sample_world sample_results
                    ++ summary_lines_for a v m r s
                    ++ verdict_lines sample_world sample_format sample_results))
      end.
Proof.
  apply (generate_report_of_run sample_world sample_format 1 false None "agv.mp4"
           sample_run.1).
  exact sample_run_returns.
Defined.

(** X17, witness: the lines of frame 2 in the report of the sample run. *)
Lemma flagged_lines_of_run_witness :
  exists a s m v r,
    reasons sample_flagged !! "adult" = Some (VStr a) /\
    reasons sample_flagged !! "spoof" = Some (VStr s) /\
    reasons sample_flagged !! "medical" = Some (VStr m) /\
    reasons sample_flagged !! "violence" = Some (VStr v) /\
    reasons sample_flagged !! "racy" = Some (VStr r) /\
    flagged_lines sample_world sample_format sample_flagged
    = ["Frame " +:+ pretty (frame_index sample_flagged) +:+ " at "
         +:+ sample_format (timestamp_seconds sample_flagged) +:+ "s:";
       "  - adult: " +:+ a;
       "  - spoof: " +:+ s;
       "  - medical: " +:+ m;
       "  - violence: " +:+ v;
       "  - racy: " +:+ r;
       ""].
Proof.
  apply (flagged_lines_of_run sample_world sample_format 1 false None "agv.mp4"
           sample_run.1 sample_results).
  - exact sample_run_returns.
  - exact sample_flagged_flagged.
Defined.

Example sample_flagged_lines :
  flagged_lines sample_world sample_format sample_flagged
  = ["Frame 2 at 0.0s:"; "  - adult: POSSIBLE"; "  - spoof: VERY_UNLIKELY";
     "  - medical: VERY_UNLIKELY"; "  - violence: VERY_UNLIKELY";
     "  - racy: VERY_UNLIKELY"; ""].
Proof. vm_compute. reflexivity. Qed.

(** X18, witness: the report of the sample run, which flags one frame. *)
Lemma report_layout_witness :
  exists lines,
    report_lines sample_world sample_format sample_results = inr lines /\
    (last lines = Some "✓ No concerning content detected"
     <-> flagged_frames (summary sample_results) = []) /\
    (flagged_frames (summary sample_results) = [] -> length lines = 17%nat) /\
    (flagged_frames (summary sample_results) <> [] ->
     length lines = (18 + 7 * length (flagged_frames (summary sample_results)))%nat /\
     lines !! 16%nat
     = Some ("⚠️  FLAGGED FRAMES: "
               +:+ pretty (length (flagged_frames (summary sample_results)))) /\
     last lines = Some "").
Proof.
  apply (report_layout sample_world sample_format 1 false None "agv.mp4" sample_run.1).
  exact sample_run_returns.
Defined.

(** X19, witness: a dictionary without a summary. *)
Lemma generate_report_missing_key_witness :
  exists before key after,
    max_keys = before ++ key :: after /\
    Forall (fun k => is_Some (maxima (summary no_results) !! k)) before /\
    maxima (summary no_results) !! key = None /\
    generate_report sample_world sample_format no_results (Some "report.txt")
    = inl (KeyError (VStr key)).
Proof.
  apply (generate_report_missing_key sample_world sample_format no_results
           (Some "report.txt")).
  apply Exists_cons_hd. reflexivity.
Defined.

(** X22, witness: the command line while the service is down. *)
Lemma outage_reported_clean_witness :
  main outage_world sample_format sample_print outage_args
  = (outputs_of outage_args outage_run.1
       (newline +:+ join newline
          (match report_lines outage_world sample_format (results_of outage_run) with
           | inr lines => lines
           | inl _ => []
           end)), 0) /\
  exists lines,
    join newline
      (match report_lines outage_world sample_format (results_of outage_run) with
       | inr lines => lines
       | inl _ => []
       end)
    = join newline lines /\
    last lines = Some "✓ No concerning content detected".
Proof.
  apply (outage_reported_clean outage_world sample_format sample_print outage_args
           outage_run.1 (results_of outage_run)
           (join newline
              (match report_lines outage_world sample_format
                       (results_of outage_run) with
               | inr lines => lines
               | inl _ => []
               end))
           (seq 0 3)).
  - split; [reflexivity|]. split; [exact outage_run_returns|].
    split; [discriminate|]. split; [vm_compute; reflexivity|reflexivity].
  - vm_compute. reflexivity.
  - intros k frame _. eexists. reflexivity.
Defined.
